(** * The acquisition-and-feature pipeline of [core/data]

    A shallow embedding of [core/data/fetch.py] (class [Database]) and
    [core/data/feature.py] (class [FeatureExtractor]), followed by the
    properties of the pipeline that the specification states and by
    further properties of the code.

    Conventions of the embedding.
    - Python values that live in a [pandas] cell are a small tagged union
      ([Py.value]); a row ([pd.Series]) is the ordered list of its labelled
      cells, a frame is the ordered list of its labelled rows.
    - Code that can raise returns a [Py.result]; code that touches the disk,
      the network or the logger runs in the monad [M] over a [world].
    - The libraries the code calls ([requests], [PIL], [numpy], [skimage],
      [os]) are not part of the repository: what they return is taken from a
      record of [Externals].  The module [core.util.constants] is a record of
      [Constants].  What [pandas] and [os] do in [setup_dataset] alone
      (reading a table, merging, sorting, removing a file) is a record of
      [Pandas], the constants read there a record of [SetupConstants].
    - The pool of worker threads is embedded by the order in which its
      units complete, an argument [sched] of the functions that use the
      pool; a unit runs from its start to its end without another one in
      between.
    - Output of [print] is not part of the modelled world; logger records
      are. *)

From Stdlib Require Import ZArith List String Ascii Permutation Lia.
From stdpp Require Import base tactics option list strings pretty gmap.

(** ** Python values, exceptions and string primitives *)

Module Py.

(** The cell values the pipeline meets: strings, the float [nan] that
    pandas uses for a missing value, and integers. *)
Inductive value : Type :=
| VStr (s : string)
| VNaN
| VInt (n : Z).

(** The exception classes that the handlers of the code tell apart. *)
Inductive exn : Type :=
| AttributeError
| KeyError
| IndexError
| ValueError
| OSError
| Timeout
| RequestException
| OtherException.

Inductive result (A : Type) : Type :=
| Ok (a : A)
| Raise (e : exn).
Arguments Ok {A} a.
Arguments Raise {A} e.

(** [str(v)], as an f-string renders a cell. *)
Definition str (v : value) : string :=
  match v with
  | VStr s => s
  | VNaN => "nan"
  | VInt n => pretty n
  end.

(** [pd.isna] on a cell. *)
Definition isna (v : value) : bool :=
  match v with VNaN => true | _ => false end.

(** [s.replace(old, new)] for a one-character [old]. *)
Fixpoint replace (old : ascii) (new : string) (s : string) : string :=
  match s with
  | EmptyString => EmptyString
  | String a s' =>
      if Ascii.eqb a old then new +:+ replace old new s'
      else String a (replace old new s')
  end.

(** [s.split(sep)]: the pieces between the leftmost non-overlapping
    occurrences of [sep].  [cur] is the piece being read, [skip] the number
    of characters of a matched separator still to pass over. *)
Fixpoint split_go (sep s cur : string) (skip : nat) : list string :=
  match s with
  | EmptyString => [cur]
  | String a s' =>
      match skip with
      | S k => split_go sep s' cur k
      | O =>
          if String.prefix sep s
          then cur :: split_go sep s' EmptyString (String.length sep - 1)
          else split_go sep s' (cur +:+ String a EmptyString) 0
      end
  end.

(** An empty separator is a [ValueError]. *)
Definition split (s sep : string) : result (list string) :=
  match sep with
  | EmptyString => Raise ValueError
  | _ => Ok (split_go sep s EmptyString 0)
  end.

(** [l[i]] with Python's negative indices; out of range is an
    [IndexError]. *)
Definition index {A} (l : list A) (i : Z) : result A :=
  let n := Z.of_nat (length l) in
  let j := (if i <? 0 then i + n else i)%Z in
  if ((0 <=? j) && (j <? n))%Z
  then match l !! Z.to_nat j with Some x => Ok x | None => Raise IndexError end
  else Raise IndexError.

(** [l[i] = x] on a list: the same index rule, the list is updated in
    place. *)
Definition setitem {A} (l : list A) (i : Z) (x : A) : result (list A) :=
  let n := Z.of_nat (length l) in
  let j := (if i <? 0 then i + n else i)%Z in
  if ((0 <=? j) && (j <? n))%Z
  then Ok (<[Z.to_nat j := x]> l)
  else Raise IndexError.

(** [int(a / b)] for integers [a], [b]: true division, then truncation
    towards zero (exact while the quotient fits a double). *)
Definition int_truediv (a b : Z) : Z := Z.quot a b.

(** [max(a, b, c)]. *)
Definition max3 (a b c : Z) : Z := Z.max (Z.max a b) c.

(** [c in s] for a character [c]. *)
Fixpoint contains (s : string) (c : ascii) : bool :=
  match s with
  | EmptyString => false
  | String a s' => Ascii.eqb a c || contains s' c
  end.

(** Some character of [d] occurs in [s]. *)
Fixpoint shares_char (d s : string) : bool :=
  match d with
  | EmptyString => false
  | String c d' => contains s c || shares_char d' s
  end.

End Py.

(** ** Tables: [pd.Series] and [pd.DataFrame] *)

Module Pd.
Import Py.

(** A row: its cells in column order, each under its column label. *)
Definition Series : Type := list (string * value).

(** A frame: its rows in order, each under its index label. *)
Definition DataFrame : Type := list (Z * Series).

(** [row[label]]: the cell under a column label, [KeyError] if there is
    none. *)
Fixpoint getitem (row : Series) (label : string) : result value :=
  match row with
  | [] => Raise KeyError
  | (k, v) :: row' => if String.eqb k label then Ok v else getitem row' label
  end.

(** [row[n]] for an integer [n] on a row labelled by strings: pandas falls
    back to the position. *)
Definition getpos (row : Series) (n : nat) : result value :=
  match row !! n with
  | Some (_, v) => Ok v
  | None => Raise IndexError
  end.

(** One cell of [df[label] = ...]: an existing column is overwritten in
    place, a new one is appended. *)
Fixpoint setcell (row : Series) (label : string) (v : value) : Series :=
  match row with
  | [] => [(label, v)]
  | (k, x) :: row' =>
      if String.eqb k label then (k, v) :: row'
      else (k, x) :: setcell row' label v
  end.

(** [df[label] = values] for a list of the frame's length: assignment by
    position. *)
Fixpoint setcolumn (df : DataFrame) (label : string) (values : list value)
  : DataFrame :=
  match df, values with
  | (i, row) :: df', v :: values' =>
      (i, setcell row label v) :: setcolumn df' label values'
  | _, _ => []
  end.

(** The test of [df.dropna(subset=[label])] on one row; the column is
    always there when the code calls it, right after writing it. *)
Definition notna_at (label : string) (r : Z * Series) : bool :=
  match getitem (snd r) label with
  | Ok v => negb (isna v)
  | Raise _ => false
  end.

(** [df.dropna(subset=[label], inplace=True)]: the rows whose cell is
    missing go, the others keep their order and their index labels. *)
Definition dropna (df : DataFrame) (label : string) : DataFrame :=
  List.filter (notna_at label) df.

(** [np.full(n, fill_value=np.nan).tolist()]. *)
Definition full_nan (n : nat) : list value := repeat VNaN n.

End Pd.

(** ** Images, as [PIL] presents them *)

Module Img.

(** A pixel is its tuple of channel values. *)
Definition pixel : Type := list Z.

Record Image : Type := mkImage {
  im_mode : string;
  im_size : Z * Z;              (* (width, height) *)
  im_data : Z -> Z -> pixel     (* column, then line *)
}.

Definition width (im : Image) : Z := fst (im_size im).
Definition height (im : Image) : Z := snd (im_size im).

(** [im.getpixel((i, j))]: defined inside the image only. *)
Definition getpixel (im : Image) (i j : Z) : option pixel :=
  if ((0 <=? i) && (i <? width im) && (0 <=? j) && (j <? height im))%Z
  then Some (im_data im i j) else None.

End Img.

(** ** The world of the pipeline: disk, network record, logger *)

Module Sys.
Import Py Pd Img.

(** What a file holds: an array written by [np.save], a picture in an
    image format (given by the image a reader decodes from it), or a table
    written by [to_csv]. *)
Inductive content : Type :=
| Npy (arr : Image)
| Picture (im : Image)
| Csv (df : DataFrame).

Record world : Type := mkWorld {
  dirs : gset string;               (* the directories that exist *)
  files : gmap string content;      (* the files that exist *)
  requests : list (value * Z);      (* calls of requests.get: url, timeout *)
  log : list string                 (* records handed to self.log *)
}.

(** Constants of [core.util.constants]. *)
Record Constants : Type := mkConstants {
  IMGDIR_PATH : string;
  FEATURE_DIR_PATH : string;
  DATASET_PATH : string;
  DIRNAME_DELIM : string;
  PATH_SEP : string
}.

(** What the libraries answer.  Failures of the operating system and of
    the network are theirs to decide, and may depend on the world. *)
Record Externals : Type := mkExternals {
  (* Image.open(requests.get(url, stream=True, timeout=t).raw), given the
     calls made before *)
  http_image : list (value * Z) -> value -> Z -> result Image;
  (* the error, if any, of os.makedirs(p, exist_ok=True) *)
  makedirs_error : world -> string -> option exn;
  (* the error, if any, of creating or overwriting the file p *)
  write_error : world -> string -> option exn;
  (* img.save(p): the format follows the name; the image a reader gets
     back, or the error of the encoder *)
  save_format : string -> Image -> result Image;
  (* img.resize(size) *)
  resize : Image -> Z * Z -> Image;
  (* img.rotate(degree, expand=True) *)
  rotate_expand : Image -> Z -> Image;
  (* img.transpose(method=Image.Transpose.FLIP_LEFT_RIGHT) *)
  flip_left_right : Image -> Image;
  (* img.convert(mode) *)
  convert : Image -> string -> Image;
  (* the pixel that Image.new(mode, size, color) fills with: the colour as
     PIL reads it in the mode *)
  ink : string -> pixel -> pixel;
  (* skimage.feature.local_binary_pattern(img, n_points, radius, method),
     as a uint8 array *)
  local_binary_pattern : Image -> Z -> Z -> string -> Image;
  (* os.walk(top): (dirpath, dirnames, filenames) per directory *)
  os_walk : world -> string -> list (string * list string * list string);
  (* str(row), str(df) as the logger renders them *)
  repr_row : Series -> string;
  repr_df : DataFrame -> string
}.

(** [Image.new(mode, size, color)]: every pixel is the colour as the mode
    reads it (in mode RGB the default [(0, 0, 0, 0)] is [(0, 0, 0)]). *)
Definition new (X : Externals) (mode : string) (size : Z * Z)
    (color : pixel) : Image :=
  {| im_mode := mode; im_size := size;
     im_data := fun _ _ => ink X mode color |}.

(** The pixels that [canvas.paste(im, box)] lays into a canvas of mode
    [mode].  A source of that mode is taken as it is, any other is
    converted with [im.convert(mode)] first; only for an RGB canvas a
    source in mode LA, RGBA or RGBa goes to the core as it is, which
    copies the stored colour bands: the grey level three times for LA,
    the first three bands for RGBA and RGBa. *)
Definition paste_source (X : Externals) (mode : string) (im : Image)
  : Z -> Z -> pixel :=
  if String.eqb (im_mode im) mode then im_data im
  else if String.eqb mode "RGB" && String.eqb (im_mode im) "LA" then
    fun i j => match im_data im i j with
               | l :: _ => [l; l; l]
               | [] => []
               end
  else if String.eqb mode "RGB"
          && (String.eqb (im_mode im) "RGBA"
              || String.eqb (im_mode im) "RGBa") then
    fun i j => take 3 (im_data im i j)
  else im_data (convert X im mode).

(** [canvas.paste(im, (ox, oy))]: the box of [im]'s size whose upper left
    corner is [(ox, oy)] receives [im], in the mode of the canvas; the
    rest of the canvas stays. *)
Definition paste (X : Externals) (canvas im : Image) (box : Z * Z) : Image :=
  let '(ox, oy) := box in
  {| im_mode := im_mode canvas;
     im_size := im_size canvas;
     im_data := fun i j =>
       if ((ox <=? i) && (i <? ox + width im)
           && (oy <=? j) && (j <? oy + height im))%Z
       then paste_source X (im_mode canvas) im (i - ox) (j - oy)
       else im_data canvas i j |}.

(** Computations over the world that may raise.  The world is kept when
    an exception is raised: what was written stays written. *)
Definition M (A : Type) : Type := world -> result A * world.

#[global] Instance M_ret : MRet M := fun A a w => (Ok a, w).
#[global] Instance M_bind : MBind M := fun A B f m w =>
  match m w with
  | (Ok a, w') => f a w'
  | (Raise e, w') => (Raise e, w')
  end.

Definition raise {A} (e : exn) : M A := fun w => (Raise e, w).

Definition lift {A} (r : result A) : M A := fun w => (r, w).

(** [try: body except ...: handler]. *)
Definition try_except {A} (body : M A) (handler : exn -> M A) : M A :=
  fun w =>
    match body w with
    | (Ok a, w') => (Ok a, w')
    | (Raise e, w') => handler e w'
    end.

(** A cell used as a string: a method of [str] called on anything else is
    an [AttributeError]. *)
Definition as_str (v : value) : result string :=
  match v with VStr s => Ok s | _ => Raise AttributeError end.

(** [os.path.exists(p)]. *)
Definition path_exists (p : string) (w : world) : bool :=
  bool_decide (p ∈ dirs w) || bool_decide (is_Some (files w !! p)).

Definition exists_ (p : string) : M bool := fun w => (Ok (path_exists p w), w).

(** The proper prefixes of a path that end before a ["/"]: the
    directories above it. *)
Fixpoint parents_go (seen rest : string) : list string :=
  match rest with
  | EmptyString => []
  | String a rest' =>
      (if Ascii.eqb a "/" then [seen] else [])
        ++ parents_go (seen +:+ String a EmptyString) rest'
  end.

Definition parents (p : string) : list string := parents_go EmptyString p.

(** The four ways in which the world changes. *)
Definition add_dir (p : string) (w : world) : world :=
  {| dirs := {[p]} ∪ list_to_set (parents p) ∪ dirs w;
     files := files w; requests := requests w; log := log w |}.

Definition add_file (p : string) (c : content) (w : world) : world :=
  {| dirs := dirs w; files := <[p := c]> (files w);
     requests := requests w; log := log w |}.

Definition add_request (url : value) (timeout : Z) (w : world) : world :=
  {| dirs := dirs w; files := files w;
     requests := requests w ++ [(url, timeout)]; log := log w |}.

Definition add_log (msg : string) (w : world) : world :=
  {| dirs := dirs w; files := files w; requests := requests w;
     log := log w ++ [msg] |}.

(** [os.makedirs(p, exist_ok=True)]: the directory and those above it
    exist afterwards. *)
Definition makedirs (X : Externals) (p : string) : M unit := fun w =>
  match makedirs_error X w p with
  | Some e => (Raise e, w)
  | None => (Ok tt, add_dir p w)
  end.

(** Creating or overwriting one file. *)
Definition write_file (X : Externals) (p : string) (c : content) : M unit :=
  fun w =>
    match write_error X w p with
    | Some e => (Raise e, w)
    | None => (Ok tt, add_file p c w)
    end.

(** [self.log.debug(msg)], [self.log.info(msg)]. *)
Definition log_record (msg : string) : M unit := fun w =>
  (Ok tt, add_log msg w).

(** [Image.open(requests.get(url, stream=True, timeout=t).raw)]: the call
    is recorded, the library answers. *)
Definition requests_get_image (X : Externals) (url : value) (timeout : Z)
  : M Image := fun w =>
  (http_image X (requests w) url timeout, add_request url timeout w).

(** Nothing that existed on the disk has gone. *)
Definition disk_grows (w w' : world) : Prop :=
  dirs w ⊆ dirs w' ∧ dom (files w) ⊆ dom (files w').

(** The same directories and the same files with the same contents. *)
Definition same_disk (w w' : world) : Prop :=
  dirs w = dirs w' ∧ files w = files w'.

(** [s.endswith(suffix)]. *)
Fixpoint endswith (s suffix : string) : bool :=
  String.eqb s suffix
  || match s with
     | EmptyString => false
     | String _ s' => endswith s' suffix
     end.

(** [np.save(p, arr, allow_pickle=True)]: numpy appends [".npy"] to a
    name that does not end with it. *)
Definition np_save (X : Externals) (p : string) (arr : Image) : M unit :=
  write_file X (if endswith p ".npy" then p else p +:+ ".npy") (Npy arr).

(** [Image.open(p)] on the disk: only a picture file opens; a missing
    file, a directory or another kind of file is an [OSError]; a path that
    is not a string is an [AttributeError]. *)
Definition image_open (p : value) : M Image := fun w =>
  match p with
  | VStr s =>
      match files w !! s with
      | Some (Picture im) => (Ok im, w)
      | _ => (Raise OSError, w)
      end
  | _ => (Raise AttributeError, w)
  end.

(** [img.save(p)]. *)
Definition image_save (X : Externals) (img : Image) (p : string) : M unit :=
  stored ← lift (save_format X p img);
  write_file X p (Picture stored).

(** [df.to_csv(p, index=False)]. *)
Definition to_csv (X : Externals) (df : DataFrame) (p : string) : M unit :=
  write_file X p (Csv df).

(** A [for] loop that threads an accumulator and stops at the first
    exception. *)
Fixpoint for_each {A B} (body : B -> A -> M B) (acc : B) (items : list A)
  : M B :=
  match items with
  | [] => mret acc
  | x :: items' => acc' ← body acc x; for_each body acc' items'
  end.

End Sys.

(** ** [core/data/feature.py]: class [FeatureExtractor] *)

Module FeatureExtractor.
Import Py Pd Img Sys.

(** The attributes set by [__init__]. *)
Record FeatureExtractor : Type := mkFeatureExtractor {
  save_path : string;
  img_path : string
}.

Definition FTS : list string := ["sift"; "lbp"; "glcm"].

(** [Image.fromarray(arr)]: arrays and images are one type here. *)
Definition fromarray (arr : Image) : Image := arr.

(** The default arguments of [make_square_with_bb]. *)
Definition default_min_size : Z := 256.
Definition default_fill_color : pixel := [0; 0; 0; 0]%Z.
Definition default_mode : string := "RGB".

(** [dirpath_from_ft(self, feature)]; [feature] may be [None]. *)
Definition dirpath_from_ft (self : FeatureExtractor)
    (feature : option string) : string :=
  let out_ft :=
    match feature with
    | None => "db"
    | Some f => if String.eqb f "" then "db" else f
    end in
  save_path self +:+ "_" +:+ out_ft +:+ "/".

Section Methods.
Context (K : Constants) (X : Externals).

(** [make_square_with_bb(im, min_size=256, fill_color=(0, 0, 0, 0),
    mode="RGB")]. *)
Definition make_square_with_bb (im : Image) (min_size : Z)
    (fill_color : pixel) (mode : string) : Image :=
  let '(x, y) := im_size im in
  let size := max3 min_size x y in
  let new_im := new X mode (size, size) fill_color in
  paste X new_im im (int_truediv (size - x) 2, int_truediv (size - y) 2).

(** [l_dirpath_from_row(self, row, feature)]. *)
Definition l_dirpath_from_row (self : FeatureExtractor) (row : Series)
    (feature : option string) : M string :=
  p ← lift (getitem row "path");
  log_record ("path: " +:+ str p);;
  p ← lift (getitem row "path");
  parts ← lift (split (str p) (PATH_SEP K));
  l_name ← lift (index parts (-2));
  mret (dirpath_from_ft self feature +:+ l_name +:+ PATH_SEP K).

(** [path_from_row_ft(self, row, feature)]. *)
Definition path_from_row_ft (self : FeatureExtractor) (row : Series)
    (feature : option string) : M string :=
  p ← lift (getitem row "path");
  parts ← lift (split (str p) (PATH_SEP K));
  f_name ← lift (index parts (-1));
  l ← l_dirpath_from_row self row feature;
  mret (l +:+ f_name).

(** [_mk_ft_dirs(self)]; here [os.makedirs] is called without
    [exist_ok], behind the test that the directory is absent. *)
Definition _mk_ft_dirs (self : FeatureExtractor) : M unit :=
  for_each (fun _ feature =>
    let dir_new := dirpath_from_ft self (Some feature) in
    ex ← exists_ dir_new;
    if negb ex then makedirs X dir_new else mret tt) tt FTS.

(** [lbp(img, method="ror", radius=1)]. *)
Definition lbp (img : Image) (method : string) (radius : Z) : Image :=
  let n_points := (8 * radius)%Z in
  let img := if negb (String.eqb (im_mode img) "L")
             then convert X img "L" else img in
  local_binary_pattern X img n_points radius method.

(** [rotate_and_save_image(img_path, name, degree)]. *)
Definition rotate_and_save_image (img_path name : string) (degree : Z)
  : M unit :=
  try_except
    (image ← image_open (VStr (img_path +:+ "/" +:+ name));
     let rotated := rotate_expand X image degree in
     parts ← lift (split name ".");
     stem ← lift (index parts 0);
     image_save X rotated
       (img_path +:+ "/" +:+ stem +:+ "_" +:+ pretty degree +:+ ".jpg"))
    (fun e => match e with
              | OSError => mret tt   (* except IOError: print(...) *)
              | _ => raise e
              end).

(** [flip_and_save_image(img_path, name)]. *)
Definition flip_and_save_image (img_path name : string) : M unit :=
  try_except
    (image ← image_open (VStr (img_path +:+ "/" +:+ name));
     let flipped := flip_left_right X image in
     parts ← lift (split name ".");
     stem ← lift (index parts 0);
     image_save X flipped (img_path +:+ "/" +:+ stem +:+ "f.jpg"))
    (fun e => match e with
              | OSError => mret tt   (* except IOError: print(...) *)
              | _ => raise e
              end).

(** The body of the two loops of [create_augmented_images]: what is done
    for one [image_name] of one [sub_dir]; [range(4)] is spelled out. *)
Definition augment_file (degrees sub_dir0 image_name : string) : M unit :=
  if String.eqb "all" degrees then
    for_each (fun _ i =>
      rotate_and_save_image sub_dir0 image_name (i * 90);;
      parts ← lift (split image_name ".");
      stem ← lift (index parts 0);
      flip_and_save_image sub_dir0
        (stem +:+ "_" +:+ pretty (i * 90)%Z +:+ ".jpg"))
      tt [0; 1; 2; 3]%Z
  else if String.eqb "rotate" degrees then
    for_each (fun _ i =>
      rotate_and_save_image sub_dir0 image_name (i * 90))
      tt [0; 1; 2; 3]%Z
  else if String.eqb "flip" degrees then
    flip_and_save_image sub_dir0 image_name
  else mret tt.

(** [create_augmented_images(dir_path, degrees="all")].  Every file is
    written into the directory being listed, after its listing was
    taken, so the walk is the one of the starting disk. *)
Definition create_augmented_images (dir_path degrees : string) : M unit :=
  fun w =>
    for_each (fun _ (sub_dir : string * list string * list string) =>
      let '(sub_dir0, _, sub_dir2) := sub_dir in
      for_each (fun _ image_name =>
        augment_file degrees sub_dir0 image_name) tt sub_dir2)
      tt (os_walk X w dir_path) w.

(** The body of the loop of [pre_process] for one [(index, row)];
    [paths] is the list the loop fills.  [method] and [radius] are the
    two keyword arguments read with [kwargs.get]; [ft], the attribute of
    the extractor named by [feature], is called in the ["lbp"] branch only,
    where it is [lbp]. *)
Definition pre_process_row (self : FeatureExtractor) (feature : string)
    (should_bb should_resize : bool)
    (method : option string) (radius : option Z)
    (paths : list value) (ir : Z * Series) : M (list value) :=
  let '(index, row) := ir in
  log_record (repr_row X row);;
  p_new ← path_from_row_ft self row (Some feature);
  l_new ← l_dirpath_from_row self row (Some feature);
  ex ← exists_ p_new;
  if negb ex then
    src ← lift (getitem row "path");
    img ← image_open src;
    '(img, paths) ←
      (if String.eqb feature "lbp" then
         let lbp_arr := lbp img (default "ror" method) (default 1%Z radius) in
         paths' ← lift (setitem paths index (VStr p_new));
         mret (fromarray lbp_arr, paths')
       else if String.eqb feature "sift" then mret (img, paths)
       else if String.eqb feature "glcm" then mret (img, paths)
       else mret (img, paths));
    let img := if should_bb
               then make_square_with_bb img default_min_size
                      default_fill_color default_mode
               else img in
    let img := if should_resize then resize X img (416, 416)%Z else img in
    makedirs X l_new;;
    image_save X img p_new;;
    mret paths
  else
    lift (setitem paths index (VStr p_new)).

(** [pre_process(self, df, feature="", should_bb=True,
    should_resize=False, **kwargs)]. *)
Definition pre_process (self : FeatureExtractor) (df : DataFrame)
    (feature : string) (should_bb should_resize : bool)
    (method : option string) (radius : option Z) : M DataFrame :=
  paths ← for_each
            (pre_process_row self feature should_bb should_resize
               method radius)
            (full_nan (length df)) df;
  let df := setcolumn df feature paths in
  to_csv X df (DATASET_PATH K);;
  mret df.

End Methods.

(** [self.create_augmented_df]: the class binds no such name
    ([create_augmented_images] is the method it has for the augmentation),
    so reading the attribute raises [AttributeError], before the arguments
    of the call are used. *)
Definition create_augmented_df (self : FeatureExtractor) (df : DataFrame)
    (degrees : string) : M DataFrame :=
  raise AttributeError.

(** *** What mode ["all"] derives from an image, by name *)

(** What stands before the first dot of a file name:
    [name.split('.')[0]]. *)
Definition file_stem (name : string) : string :=
  match split name "." with
  | Ok (s :: _) => s
  | _ => name
  end.

(** The angles of mode ["all"] and ["rotate"]: [i * 90] for [i] in
    [range(4)]. *)
Definition angles : list Z := [0; 90; 180; 270]%Z.

(** The name under which the rotation by [d] of the image [name] of the
    directory [dir] is saved, and the name of the flip of that file. *)
Definition rotated_path (dir name : string) (d : Z) : string :=
  dir +:+ "/" +:+ file_stem name +:+ "_" +:+ pretty d +:+ ".jpg".

Definition flipped_path (dir name : string) (d : Z) : string :=
  dir +:+ "/" +:+ file_stem name +:+ "_" +:+ pretty d +:+ "f.jpg".

(** The eight names that mode ["all"] derives from one image. *)
Definition derived_paths (o : string * string) : list string :=
  d ← angles; [rotated_path (fst o) (snd o) d; flipped_path (fst o) (snd o) d].

(** The images that a walk lists, directory by directory, each with its
    directory. *)
Definition originals (walk : list (string * list string * list string))
  : list (string * string) :=
  sub_dir ← walk; (fun name => (fst (fst sub_dir), name)) <$> snd sub_dir.

(** The path of a listed image. *)
Definition original_path (o : string * string) : string :=
  fst o +:+ "/" +:+ snd o.

End FeatureExtractor.

(** ** [core/data/fetch.py]: class [Database] *)

Module Database.
Import Py Pd Img Sys.
Import FeatureExtractor.

(** The attributes of a [Database] that the methods below read; the
    dataset file names, [bfly] and [sort] are read by [setup_dataset]
    only. *)
Record Database : Type := mkDatabase {
  ft_extractor : FeatureExtractor;
  degrees : string;
  _num_rows : option Z
}.

(** [num_rows(self)]. *)
Definition num_rows (self : Database) : option Z :=
  match _num_rows self with
  | None => None
  | Some n =>
      if String.eqb (degrees self) "all" then Some (n * 8)%Z
      else if String.eqb (degrees self) "flip" then Some (n * 2)%Z
      else if String.eqb (degrees self) "rotate" then Some (n * 4)%Z
      else Some n
  end.

(** A future of the pool: pending, or done with a value or an
    exception. *)
Definition Future : Type := option (result value).

(** The order in which the pool completes the [n] submitted units.  The
    scheduler's choice is [sched]; whatever it lists that is no unit, or
    lists twice, is ignored, and the units it leaves out complete last:
    [wait(..., return_when=ALL_COMPLETED)] returns when every unit is
    done.  Every permutation of the units is the order of some [sched]. *)
Definition completion_order (sched : list nat) (n : nat) : list nat :=
  let chosen := remove_dups (List.filter (fun i => i <? n) sched) in
  chosen ++ list_difference (seq 0 n) chosen.

(** [enumerate(l)]. *)
Definition enumerate {A} (l : list A) : list (nat * A) :=
  imap (fun i x => (i, x)) l.

(** [ft.result()]; a pending future does not occur after the wait. *)
Definition future_result (ft : Future) : M value :=
  match ft with
  | Some r => lift r
  | None => raise OtherException
  end.

Section Methods.
Context (K : Constants) (X : Externals).

(** The attribute [create_augmented_df] of the extractor, which
    [fetch_images] calls with [df=...] and [degrees=...], is an argument
    of the methods that reach the call.  For an extractor of the class of
    [core/data/feature.py] it is [FeatureExtractor.create_augmented_df],
    the failing lookup. *)
Context (create_augmented_df :
           FeatureExtractor -> DataFrame -> string -> M DataFrame).

(** [img_path_from_row(row, index, column="identifier", extra=None)]. *)
Definition img_path_from_row (row : Series) (index : Z) (column : string)
    (extra : option string) : M string :=
  species ←
    try_except
      (c ← lift (getitem row "species"); lift (as_str c))
      (fun e => raise e);    (* except AttributeError: print; raise e *)
  let path := IMGDIR_PATH K +:+ replace " " (DIRNAME_DELIM K) species in
  ex ← exists_ path;
  (if negb ex then makedirs X path else mret tt);;
  c ← lift (getitem row column);
  s ← lift (as_str c);
  parts ← lift (split s ".");
  extension ← lift (Py.index parts (-1));
  let extension :=
    if (String.length extension <? 1)%nat then "jpg" else extension in
  c9 ← lift (getpos row 9);
  s9 ← lift (as_str c9);
  let out := IMGDIR_PATH K +:+ replace " " (DIRNAME_DELIM K) s9
               +:+ "/" +:+ pretty index in
  let out :=
    match extra with
    | Some e => if String.eqb e "" then out else out +:+ e
    | None => out
    end in
  mret (out +:+ "_0.npy").

(** The closure [save_img(row, index)] of [fetch_images]; it captures
    [col]. *)
Definition save_img (col : string) (row : Series) (index : Z) : M value :=
  path ← img_path_from_row row index "identifier" None;
  ex ← exists_ path;
  if negb ex then
    try_except
      (url ← lift (getitem row col);
       img ← requests_get_image X url 40%Z;
       let img := make_square_with_bb X img default_min_size
                    default_fill_color default_mode in
       let img := resize X img (416, 416)%Z in
       np_save X path img;;
       mret (VStr path))
      (fun e =>
         match e with
         | Timeout => mret VNaN
         | RequestException => mret VNaN
         | ValueError => mret VNaN
         | OSError => mret VNaN
         | _ => mret VNaN      (* except Exception *)
         end)
  else mret (VStr path).

(** One unit of the pool runs to its end and settles its future; an
    exception of the unit is kept in the future. *)
Definition run_unit (col : string) (df : DataFrame)
    (st : list Future * world) (pos : nat) : list Future * world :=
  let '(futures, w) := st in
  match df !! pos with
  | Some (index, row) =>
      let '(r, w') := save_img col row index w in
      (<[pos := Some r]> futures, w')
  | None => (futures, w)
  end.

(** [futures = [executor.submit(save_img, row, index) for index, row in
    df.iterrows()]] followed by [concurrent.futures.wait(futures,
    timeout=None, return_when=ALL_COMPLETED)]: one future per row, in
    row order; the units run one after the other in completion
    order.  (The pool has 100 workers; how many units are under way at a
    time is not part of the embedding.) *)
Definition submit_and_wait (col : string) (df : DataFrame)
    (sched : list nat) : M (list Future) := fun w =>
  let '(futures, w') :=
    fold_left (run_unit col df)
      (completion_order sched (length df))
      (repeat None (length df), w) in
  (Ok futures, w').

(** The statements of [fetch_images] up to the filling of [paths]. *)
Definition fetch_paths (df : DataFrame) (col : string) (sched : list nat)
  : M (list value) :=
  let paths := full_nan (length df) in
  futures ← submit_and_wait col df sched;
  for_each (fun paths '(i, ft) =>
              r ← future_result ft;
              lift (setitem paths (Z.of_nat i) r))
    paths (enumerate futures).

(** [fetch_images(self, df, col)]. *)
Definition fetch_images (self : Database) (df : DataFrame) (col : string)
    (sched : list nat) : M DataFrame :=
  paths ← fetch_paths df col sched;
  let df := setcolumn df "path" paths in
  let df := dropna df "path" in
  df ← create_augmented_df (ft_extractor self) df (degrees self);
  log_record (repr_df X df);;
  to_csv X df (DATASET_PATH K);;
  mret df.

End Methods.

End Database.

(** ** [core/data/feature.py]: the constructor and the check of shapes *)

Module FeatureTools.
Import Py Pd Img Sys.
Import FeatureExtractor.

(** [np.array(img).shape]: height, width and, for a mode of several
    bands, their number; [bands] is what [PIL] knows of a mode. *)
Definition array_shape (bands : string -> list Z) (img : Image) : list Z :=
  [height img; width img] ++ bands (im_mode img).

(** [df[label]]: the column as a series, each cell under the index label
    of its row; [KeyError] without the column. *)
Fixpoint getcolumn (df : DataFrame) (label : string)
  : result (list (Z * value)) :=
  match df with
  | [] => Ok []
  | (i, row) :: df' =>
      match getitem row label with
      | Ok v =>
          match getcolumn df' label with
          | Ok col => Ok ((i, v) :: col)
          | Raise e => Raise e
          end
      | Raise e => Raise e
      end
  end.

Section Methods.
Context (K : Constants) (X : Externals) (bands : string -> list Z).

(** [FeatureExtractor(img_dir_path=IMGDIR_PATH,
    feature_dir_path=FEATURE_DIR_PATH, log_level=logging.DEBUG)]; the set-up
    of the logger is outside the world. *)
Definition __init__ (img_dir_path feature_dir_path : option string)
  : M FeatureExtractor :=
  let self :=
    {| save_path := default (FEATURE_DIR_PATH K) feature_dir_path;
       img_path := default (IMGDIR_PATH K) img_dir_path |} in
  _mk_ft_dirs X self;;
  mret self.

(** [Image.open(paths[0])] on a series with integer labels: the cell
    under the label [0], a [KeyError] when no row has that label; when
    several rows have it the lookup gives a series, which is no file to
    open. *)
Definition open_at_label (paths : list (Z * value)) (label : Z) : M Image :=
  match List.filter (fun iv => (fst iv =? label)%Z) paths with
  | [] => raise KeyError
  | [(_, path)] => image_open path
  | _ => raise AttributeError
  end.

(** The loop of [feature_output_same_checker]: it returns at the first
    image of another shape. *)
Fixpoint same_shape_loop (shape : list Z) (paths : list (Z * value))
  : M (list Z * bool) :=
  match paths with
  | [] => mret (shape, true)
  | (_, path) :: paths' =>
      img ← image_open path;
      let arr_shape := array_shape bands img in
      if bool_decide (arr_shape ≠ shape) then mret (shape, false)
      else same_shape_loop shape paths'
  end.

(** [feature_output_same_checker(self, feature, df)]. *)
Definition feature_output_same_checker (self : FeatureExtractor)
    (feature : string) (df : DataFrame) : M (list Z * bool) :=
  paths ← lift (getcolumn df feature);
  img ← open_at_label paths 0;
  let shape := array_shape bands img in
  same_shape_loop shape paths.

End Methods.

End FeatureTools.

(** ** [core/data/fetch.py]: the constructor of [Database] and
    [setup_dataset] *)

Module DatabaseSetup.
Import Py Pd Img Sys.
Import FeatureExtractor Database.

#[global] Instance value_eq_dec : EqDecision value.
Proof. solve_decision. Defined.

(** Sequencing of code that may raise and touches nothing. *)
#[local] Instance result_ret : MRet result := fun A a => Ok a.
#[local] Instance result_bind : MBind result := fun A B f r =>
  match r with
  | Ok a => f a
  | Raise e => Raise e
  end.

(** A frame with its column index, as [read_csv], [merge] and the
    selections of [setup_dataset] see it: a column may be asked of a frame
    without rows. *)
Record Table : Type := mkTable {
  columns : list string;
  rows : DataFrame
}.

(** The further constants of [core.util.constants] that [fetch.py]
    reads. *)
Record SetupConstants : Type := mkSetupConstants {
  MERGE_COLS : list string;
  BFLY_FAMILY : list value;
  BFLY_LIFESTAGE : list value
}.

(** What [pandas] and [os] answer in [setup_dataset]. *)
Record Pandas : Type := mkPandas {
  (* pd.read_csv on the content of a file, with the separator *)
  read_table : content -> string -> result Table;
  (* left.merge(right, on=[key]) *)
  merge : Table -> Table -> string -> result Table;
  (* the rows after df.sort_values(by=[label], inplace=True) *)
  sort_values : DataFrame -> string -> DataFrame;
  (* the error, if any, of os.remove(p) on a file *)
  remove_error : world -> string -> option exn
}.

(** The attributes that [Database.__init__] sets; [num_rows_attr] is
    [self.num_rows] after [self.num_rows = self.num_rows()]. *)
Record Dataset : Type := mkDataset {
  base : Database;
  raw_dataset_path : string;
  raw_label_path : string;
  label_dataset_path : string;
  dataset_csv_filename : string;
  bfly : list string;
  num_rows_attr : option Z;
  sort : bool
}.

(** [Database(raw_dataset_path, raw_label_path, label_dataset_path,
    dataset_csv_filename, bfly, ft_extractor, degrees, num_rows=None,
    sort=False)]. *)
Definition __init__ (raw_dataset_path raw_label_path label_dataset_path
    dataset_csv_filename : string) (bfly : list string)
    (ft_extractor : FeatureExtractor) (degrees : string)
    (num_rows : option Z) (sort : bool) : Dataset :=
  let self := mkDatabase ft_extractor degrees num_rows in
  {| base := self;
     raw_dataset_path := raw_dataset_path;
     raw_label_path := raw_label_path;
     label_dataset_path := label_dataset_path;
     dataset_csv_filename := dataset_csv_filename;
     bfly := bfly;
     num_rows_attr := Database.num_rows self;
     sort := sort |}.

(** [len(df)]. *)
Definition len (df : Table) : Z := Z.of_nat (length (rows df)).

(** The cells of the rows under a label. *)
Fixpoint cells (df : DataFrame) (label : string) : result (list value) :=
  match df with
  | [] => Ok []
  | (_, row) :: df' =>
      match getitem row label with
      | Ok v =>
          match cells df' label with
          | Ok vs => Ok (v :: vs)
          | Raise e => Raise e
          end
      | Raise e => Raise e
      end
  end.

(** [df[label]]: [KeyError] without the column. *)
Definition column (df : Table) (label : string) : result (list value) :=
  if bool_decide (label ∈ columns df) then cells (rows df) label
  else Raise KeyError.

(** [s.isin(values)], cell by cell. *)
Definition isin (s allowed : list value) : list bool :=
  map (fun v => bool_decide (v ∈ allowed)) s.

(** [df[mask]], [df.loc[mask]]: the rows whose flag is set, with their
    index labels. *)
Definition loc (df : Table) (mask : list bool) : Table :=
  {| columns := columns df;
     rows := map fst (List.filter snd (zip (rows df) mask)) |}.

(** [df.dropna(subset=[label])]. *)
Definition dropna_subset (df : Table) (label : string) : result Table :=
  if bool_decide (label ∈ columns df)
  then Ok {| columns := columns df; rows := dropna (rows df) label |}
  else Raise KeyError.

(** [l[n:]]. *)
Definition slice_from {A} (l : list A) (n : Z) : list A :=
  let size := Z.of_nat (length l) in
  let start := (if n <? 0 then Z.max 0 (size + n) else Z.min n size)%Z in
  drop (Z.to_nat start) l.

(** [df.drop(df.index[n:], inplace=True)]: the rows go whose index label
    is the label of a row from position [n] on. *)
Definition drop_index_from (df : DataFrame) (n : Z) : DataFrame :=
  let labels := map fst (slice_from df n) in
  List.filter (fun r => negb (bool_decide (fst r ∈ labels))) df.

(** [df.reset_index(inplace=True, drop=True)]. *)
Definition reset_index (df : DataFrame) : DataFrame :=
  imap (fun i r => (Z.of_nat i, snd r)) df.

(** Truth of [self._num_rows] in a condition. *)
Definition truthy (n : option Z) : bool :=
  match n with
  | None => false
  | Some n => negb (n =? 0)%Z
  end.

(** [str] of [self.num_rows] in the log record. *)
Definition str_num_rows (n : option Z) : string :=
  match n with
  | None => "None"
  | Some n => pretty n
  end.

(** The tabulator, the separator of the raw files. *)
Definition tab : string := String "009"%char EmptyString.

Section Methods.
Context (K : Constants) (C : SetupConstants) (X : Externals) (P : Pandas).
Context (create_augmented_df :
           FeatureExtractor -> DataFrame -> string -> M DataFrame).

(** [drop_cols(dfs)]: every frame of the list loses, in place, the
    columns that are not merge columns; the result is the list of the
    frames as they are afterwards. *)
Definition drop_cols (dfs : list Table) : list Table :=
  map (fun df =>
         let dropped :=
           List.filter (fun col => negb (bool_decide (col ∈ MERGE_COLS C)))
             (columns df) in
         let keep (col : string) := negb (bool_decide (col ∈ dropped)) in
         {| columns := List.filter keep (columns df);
            rows := map (fun '(i, row) =>
                           (i, List.filter (fun cv => keep (fst cv)) row))
                      (rows df) |})
    dfs.

(** [pd.read_csv(p, sep=sep, low_memory=False)]. *)
Definition read_csv (p sep : string) : M Table := fun w =>
  match files w !! p with
  | Some c => (read_table P c sep, w)
  | None => (Raise OSError, w)
  end.

(** [os.remove(p)]: only a file can be removed. *)
Definition remove (p : string) : M unit := fun w =>
  match files w !! p with
  | Some _ =>
      match remove_error P w p with
      | Some e => (Raise e, w)
      | None =>
          (Ok tt,
           {| dirs := dirs w; files := delete p (files w);
              requests := requests w; log := log w |})
      end
  | None => (Raise OSError, w)
  end.

(** The first statements of [setup_dataset], up to [return df]: the
    image directory is made ([os.makedirs] without [exist_ok], behind the
    test that it is absent); the dataset file, when there is one, is read,
    and it is the result when a limit is set and the file has the expected
    number of rows. *)
Definition cached_dataset (self : Dataset) : M (option Table) :=
  ex ← exists_ (IMGDIR_PATH K);
  (if negb ex then makedirs X (IMGDIR_PATH K) else mret tt);;
  ex ← exists_ (dataset_csv_filename self);
  if ex : bool then
    df ← read_csv (dataset_csv_filename self) ",";
    log_record ("len(df): " +:+ pretty (len df) +:+ ", self.num_rows: "
                  +:+ str_num_rows (num_rows_attr self));;
    if truthy (_num_rows (base self))
       && bool_decide (Some (len df) = num_rows_attr self)
    then mret (Some df) else (mret None : M (option Table))
  else mret None.

(** The statements of [setup_dataset] from [drop_cols] to
    [reset_index], which touch neither disk nor network: the selection of
    the rows that are handed to [fetch_images].  The three [print]
    statements among them are left out; the column they read is there
    when they run. *)
Definition select_rows (self : Dataset) (df df_label : Table)
  : result DataFrame :=
  let dfs := drop_cols [df; df_label] in
  let df := default df (dfs !! 0%nat) in
  let df_label := default df_label (dfs !! 1%nat) in
  label_ids ← column df_label "gbifID";
  ids ← column df "gbifID";
  df ← merge P df (loc df_label (isin label_ids ids)) "gbifID";
  stages ← column df "lifeStage";
  let df := loc df (map negb (isin stages (BFLY_LIFESTAGE C))) in
  df ← dropna_subset df "species";
  df ←
    (match bfly self with
     | [] => mret df
     | _ =>
         if bool_decide ("all" ∈ bfly self) then
           families ← column df "family";
           mret (loc df (isin families (BFLY_FAMILY C)))
         else
           species ← column df "species";
           mret (loc df (isin species (map VStr (bfly self))))
     end);
  let df := if sort self then sort_values P (rows df) "species"
            else rows df in
  let df := match _num_rows (base self) with
            | Some n => if truthy (Some n) then drop_index_from df n else df
            | None => df
            end in
  mret (reset_index df).

(** The statements of [setup_dataset] from [os.remove] to
    [reset_index]: a dataset file that was not taken is removed, the raw
    tables are read, the rows are selected. *)
Definition assemble_dataset (self : Dataset) : M DataFrame :=
  ex ← exists_ (dataset_csv_filename self);
  (if ex : bool then remove (dataset_csv_filename self) else mret tt);;
  df ← read_csv (raw_dataset_path self) tab;
  ex ← exists_ (label_dataset_path self);
  df_label ←
    (if ex : bool then read_csv (label_dataset_path self) ","
     else
       df_label ← read_csv (raw_label_path self) tab;
       to_csv X (rows df_label) (label_dataset_path self);;
       mret df_label);
  lift (select_rows self df df_label).

(** [setup_dataset(self)]. *)
Definition setup_dataset (self : Dataset) (sched : list nat) : M DataFrame :=
  cached ← cached_dataset self;
  match cached with
  | Some df => mret (rows df)
  | None =>
      df ← assemble_dataset self;
      df ← fetch_images K X create_augmented_df (base self) df "identifier"
             sched;
      to_csv X df (dataset_csv_filename self);;
      mret df
  end.

End Methods.

End DatabaseSetup.

(** ** Sample data: a configuration, a disk and a few manifests *)

Module Samples.
Import Py Pd Img Sys.

Definition K0 : Constants :=
  {| IMGDIR_PATH := "image_db/";
     FEATURE_DIR_PATH := "image_db/feature";
     DATASET_PATH := "image_db/dataset.csv";
     DIRNAME_DELIM := "_";
     PATH_SEP := "/" |}.

(** A 3 x 2 picture in mode RGB whose pixel at [(i, j)] is
    [(i, j, 7)]. *)
Definition im32 : Image :=
  {| im_mode := "RGB"; im_size := (3, 2)%Z;
     im_data := fun i j => [i; j; 7%Z] |}.

(** Libraries that never fail: every URL that is a string answers
    [im32], every write succeeds, every format reads back what was
    saved; the geometric operations only change the size, and the pattern
    code of every pixel is the number of sampling points.  A grey level
    converts to RGB as three equal bands, RGB to a grey level by the
    luma weights, RGBA to RGB by its colour bands; a colour reads in mode
    RGB as its first three bands. *)
Definition X0 : Externals :=
  {| http_image := fun _ url _ =>
       match url with VStr _ => Ok im32 | _ => Raise RequestException end;
     makedirs_error := fun _ _ => None;
     write_error := fun _ _ => None;
     save_format := fun _ im => Ok im;
     resize := fun im size =>
       {| im_mode := im_mode im; im_size := size; im_data := im_data im |};
     rotate_expand := fun im _ => im;
     flip_left_right := fun im =>
       {| im_mode := im_mode im; im_size := im_size im;
          im_data := fun i j => im_data im (width im - 1 - i)%Z j |};
     convert := fun im mode =>
       {| im_mode := mode; im_size := im_size im;
          im_data := fun i j =>
            match im_data im i j with
            | [l] => if String.eqb mode "RGB" then [l; l; l] else [l]
            | [r; g; b] =>
                if String.eqb mode "L"
                then [Z.shiftr (r * 19595 + g * 38470 + b * 7471 + 32768)
                        16]%Z
                else [r; g; b]
            | [r; g; b; a] =>
                if String.eqb mode "RGB" then [r; g; b] else [r; g; b; a]
            | p => p
            end |};
     ink := fun mode color =>
       if String.eqb mode "RGB" then take 3 color else color;
     local_binary_pattern := fun im n_points _ _ =>
       {| im_mode := "L"; im_size := im_size im;
          im_data := fun _ _ => [n_points] |};
     os_walk := fun _ _ => [];
     repr_row := fun _ => "row";
     repr_df := fun _ => "df" |}.

(** The same libraries with a network on which the URL ["bad"] times
    out. *)
Definition X1 : Externals :=
  {| http_image := fun _ url _ =>
       match url with
       | VStr u => if String.eqb u "bad" then Raise Timeout else Ok im32
       | _ => Raise RequestException
       end;
     makedirs_error := makedirs_error X0;
     write_error := write_error X0;
     save_format := save_format X0;
     resize := resize X0;
     rotate_expand := rotate_expand X0;
     flip_left_right := flip_left_right X0;
     convert := convert X0;
     ink := ink X0;
     local_binary_pattern := local_binary_pattern X0;
     os_walk := os_walk X0;
     repr_row := repr_row X0;
     repr_df := repr_df X0 |}.

(** A 2 x 2 picture in mode L, every pixel the grey level 5, and the
    picture [im32] with an alpha band. *)
Definition grey22 : Image :=
  {| im_mode := "L"; im_size := (2, 2)%Z; im_data := fun _ _ => [5%Z] |}.

Definition rgba32 : Image :=
  {| im_mode := "RGBA"; im_size := (3, 2)%Z;
     im_data := fun i j => [i; j; 7%Z; 255%Z] |}.

(** [s] without its prefix [pre], when it starts with it. *)
Fixpoint strip_prefix (pre s : string) : option string :=
  match pre, s with
  | EmptyString, _ => Some s
  | String a pre', String b s' =>
      if Ascii.eqb a b then strip_prefix pre' s' else None
  | _, _ => None
  end.

(** The names of the files that lie in the directory [top] itself. *)
Definition listdir (w : world) (top : string) : list string :=
  omap (fun p =>
          match strip_prefix (top +:+ "/") p with
          | Some name => if contains name "/" then None else Some name
          | None => None
          end)
       (map fst (map_to_list (files w))).

(** The libraries of [X0] with a walk that lists the files of the top
    directory, and an encoder that refuses a picture with an alpha band,
    as the JPEG encoder does. *)
Definition X2 : Externals :=
  {| http_image := http_image X0;
     makedirs_error := makedirs_error X0;
     write_error := write_error X0;
     save_format := fun _ im =>
       if String.eqb (im_mode im) "RGBA" then Raise OSError else Ok im;
     resize := resize X0;
     rotate_expand := rotate_expand X0;
     flip_left_right := flip_left_right X0;
     convert := convert X0;
     ink := ink X0;
     local_binary_pattern := local_binary_pattern X0;
     os_walk := fun w top => [(top, [], listdir w top)];
     repr_row := repr_row X0;
     repr_df := repr_df X0 |}.

Definition empty_world : world :=
  {| dirs := ∅; files := ∅; requests := []; log := [] |}.

(** A disk with one picture file, and the manifest of one record that
    points to it. *)
Definition picture_world : world :=
  add_file "image_db/A/0_0.jpg" (Picture im32) empty_world.

Definition df_picture : DataFrame :=
  [(0%Z, [("species", VStr "A"); ("path", VStr "image_db/A/0_0.jpg")])].

(** A manifest row in the column order of the merged table: the species
    is the tenth column. *)
Definition row_of (species url : value) : Series :=
  [("gbifID", VInt 1); ("identifier", url); ("family", VStr "Papilionidae");
   ("genus", VStr "Papilio"); ("lifeStage", VNaN); ("c5", VNaN);
   ("c6", VNaN); ("c7", VNaN); ("c8", VNaN); ("species", species)].

Definition df3 : DataFrame :=
  [(0%Z, row_of (VStr "A") (VStr "http://h/a.jpg"));
   (1%Z, row_of (VStr "A") (VStr "bad"));
   (2%Z, row_of (VStr "B") (VStr "http://h/b.jpg"))].

(** An augmentation step that leaves manifest and disk as they are. *)
Definition no_augmentation (_ : FeatureExtractor.FeatureExtractor)
    (df : DataFrame) (_ : string) : M DataFrame := mret df.

Definition fe0 : FeatureExtractor.FeatureExtractor :=
  {| FeatureExtractor.save_path := FEATURE_DIR_PATH K0;
     FeatureExtractor.img_path := IMGDIR_PATH K0 |}.

Definition db0 : Database.Database :=
  {| Database.ft_extractor := fe0;
     Database.degrees := "all";
     Database._num_rows := Some 3%Z |}.

End Samples.

(** ** Sample data for [setup_dataset]: raw tables and a [pandas] that
    merges them *)

Module SetupSamples.
Import Py Pd Img Sys.
Import DatabaseSetup.

Definition C0 : SetupConstants :=
  {| MERGE_COLS := ["gbifID"; "identifier"; "species"; "family"; "lifeStage"];
     BFLY_FAMILY := [VStr "Papilionidae"];
     BFLY_LIFESTAGE := [VStr "Larva"; VStr "Pupa"] |}.

(** An inner join on one key: for every row of the left frame, in order,
    the rows of the right frame with the same key, the key taken once. *)
Definition join (left right : Table) (key : string) : result Table :=
  if bool_decide (key ∈ columns left) && bool_decide (key ∈ columns right)
  then
    Ok {| columns :=
            columns left
              ++ List.filter (fun c => negb (String.eqb c key))
                   (columns right);
          rows :=
            reset_index
              (flat_map (fun l : Z * Series =>
                 flat_map (fun r : Z * Series =>
                   match getitem (snd l) key, getitem (snd r) key with
                   | Ok a, Ok b =>
                       if bool_decide (a = b)
                       then [(fst l,
                              snd l
                                ++ List.filter
                                     (fun cv => negb (String.eqb (fst cv) key))
                                     (snd r))]
                       else []
                   | _, _ => []
                   end) (rows right)) (rows left)) |}
  else Raise KeyError.

(** A [pandas] that reads a table file as it was written, with the
    columns of its first row, joins as above, leaves the order when it
    sorts, and an [os] that removes every file it is asked to. *)
Definition P0 : Pandas :=
  {| read_table := fun c _ =>
       match c with
       | Csv df =>
           Ok {| columns := match df with
                            | [] => []
                            | (_, row) :: _ => map fst row
                            end;
                 rows := reset_index df |}
       | _ => Raise ValueError
       end;
     merge := join;
     sort_values := fun df _ => df;
     remove_error := fun _ _ => None |}.

(** Two occurrences with their media, one of them a caterpillar of
    another family and without a species. *)
Definition raw_occurrences : DataFrame :=
  [(0%Z, [("gbifID", VInt 1); ("species", VStr "Papilio machaon");
          ("family", VStr "Papilionidae"); ("lifeStage", VNaN);
          ("recordedBy", VStr "a")]);
   (1%Z, [("gbifID", VInt 2); ("species", VNaN);
          ("family", VStr "Noctuidae"); ("lifeStage", VStr "Larva");
          ("recordedBy", VStr "b")])].

Definition raw_media : DataFrame :=
  [(0%Z, [("gbifID", VInt 1); ("identifier", VStr "http://h/a.jpg");
          ("license", VStr "cc")]);
   (1%Z, [("gbifID", VInt 2); ("identifier", VStr "http://h/b.jpg");
          ("license", VStr "cc")])].

(** A disk with the image directory and the two raw files. *)
Definition raw_world : world :=
  add_file "raw/media.txt" (Csv raw_media)
    (add_file "raw/occurrence.txt" (Csv raw_occurrences)
       (add_dir "image_db/" Samples.empty_world)).

(** A database over these files, for butterflies only, limited to five
    rows. *)
Definition ds0 : Dataset :=
  __init__ "raw/occurrence.txt" "raw/media.txt" "image_db/labels.csv"
    "image_db/butterflies.csv" ["all"] Samples.fe0 "all" (Some 5%Z) false.

End SetupSamples.

(** * Properties *)

Import Py Pd Img Sys.
Import FeatureExtractor Database.

(** Unfolds the monad of the world in a hypothesis or in the goal. *)
Ltac unfold_monad :=
  unfold mbind, M_bind, mret, M_ret, try_except, lift, raise, exists_,
    log_record in *.

(** ** [Database.num_rows] *)

(** C10. [num_rows] multiplies the configured limit by the fan-out of the
    augmentation: 8 for ["all"], 4 for ["rotate"], 2 for ["flip"], 1 for any
    other value of [degrees]; without a limit it is [None], whatever
    [degrees] is. *)
Theorem num_rows_fan_out (fe : FeatureExtractor) (d : string) :
  num_rows (mkDatabase fe d None) = None
  ∧ ∀ n : Z,
      num_rows (mkDatabase fe d (Some n))
      = Some ((if bool_decide (d = "all") then 8
               else if bool_decide (d = "rotate") then 4
               else if bool_decide (d = "flip") then 2
               else 1) * n)%Z.
Proof.
  split; [reflexivity|]. intros n. unfold num_rows; simpl.
  destruct (String.eqb_spec d "all") as [->|Hall]; [f_equal; simpl; lia|].
  rewrite bool_decide_eq_false_2 by done.
  destruct (String.eqb_spec d "flip") as [->|Hflip]; [f_equal; simpl; lia|].
  destruct (String.eqb_spec d "rotate") as [->|Hrot]; [f_equal; simpl; lia|].
  rewrite !bool_decide_eq_false_2 by done. f_equal; lia.
Qed.

(** ** [FeatureExtractor.make_square_with_bb] *)

Section Square.
Context (X : Externals).
Local Open Scope Z_scope.

Lemma max3_spec (a b c : Z) :
  a ≤ max3 a b c ∧ b ≤ max3 a b c ∧ c ≤ max3 a b c
  ∧ (max3 a b c = a ∨ max3 a b c = b ∨ max3 a b c = c).
Proof. unfold max3. lia. Qed.

(** On a difference that is not negative, [int(d / 2)] is the floor. *)
Lemma int_truediv_floor (d : Z) : 0 ≤ d → int_truediv d 2 = d / 2.
Proof. intros Hd. unfold int_truediv. apply Z.quot_div_nonneg; lia. Qed.

Lemma make_square_with_bb_unfold (im : Image) (min_size : Z) (fill : pixel)
    (mode : string) :
  let size := max3 min_size (width im) (height im) in
  make_square_with_bb X im min_size fill mode
  = paste X (new X mode (size, size) fill) im
      ((size - width im) / 2, (size - height im) / 2).
Proof.
  unfold make_square_with_bb, width, height.
  destruct (im_size im) as [x y]; simpl.
  pose proof (max3_spec min_size x y) as (_ & Hx & Hy & _).
  rewrite !int_truediv_floor by lia. reflexivity.
Qed.

(** What [paste] lays down for a source that has the mode of the
    canvas: the source's own pixels. *)
Lemma paste_source_same_mode (mode : string) (im : Image) :
  im_mode im = mode → paste_source X mode im = im_data im.
Proof. intros <-. unfold paste_source. by rewrite String.eqb_refl. Qed.

(** The pixels of the result, inside and outside the box. *)
Lemma make_square_with_bb_pixels (im : Image) (min_size : Z) (fill : pixel)
    (mode : string) (i j : Z) :
  let x := width im in
  let y := height im in
  let size := max3 min_size x y in
  let ox := (size - x) / 2 in
  let oy := (size - y) / 2 in
  getpixel (make_square_with_bb X im min_size fill mode) i j
  = if (0 <=? i) && (i <? size) && (0 <=? j) && (j <? size)
    then Some (if (ox <=? i) && (i <? ox + x) && (oy <=? j) && (j <? oy + y)
               then paste_source X mode im (i - ox) (j - oy)
               else ink X mode fill)
    else None.
Proof. intros x y size ox oy. rewrite make_square_with_bb_unfold. reflexivity. Qed.

(** C5, as the code has it.  The canonical image is a square of side
    [max(min_size, width, height)] in the requested mode; the original
    sits in it at the floor-centred offsets, in the requested mode: pixel
    for pixel as it is when it has that mode already, and else as [paste]
    converts it (by [convert], or, for a picture with an alpha band in an
    RGB square, by dropping that band); every other pixel has the fill
    colour as the mode reads it. *)
Theorem make_square_with_bb_canonical (im : Image) (min_size : Z)
    (fill : pixel) (mode : string) :
  let x := width im in
  let y := height im in
  let size := max3 min_size x y in
  let ox := (size - x) / 2 in
  let oy := (size - y) / 2 in
  let out := make_square_with_bb X im min_size fill mode in
  im_size out = (size, size)
  ∧ im_mode out = mode
  ∧ (min_size ≤ size ∧ x ≤ size ∧ y ≤ size
     ∧ (size = min_size ∨ size = x ∨ size = y))
  ∧ (0 ≤ ox ∧ 0 ≤ (size - x) - 2 * ox ≤ 1)
  ∧ (0 ≤ oy ∧ 0 ≤ (size - y) - 2 * oy ≤ 1)
  ∧ (∀ i j, 0 ≤ i < x → 0 ≤ j < y →
       getpixel out (ox + i) (oy + j) = Some (paste_source X mode im i j))
  ∧ (im_mode im = mode →
     ∀ i j, 0 ≤ i < x → 0 ≤ j < y →
       getpixel out (ox + i) (oy + j) = Some (im_data im i j)
       ∧ getpixel im i j = Some (im_data im i j))
  ∧ (im_mode im ≠ mode →
     (mode = "RGB" → im_mode im ≠ "LA" ∧ im_mode im ≠ "RGBA"
                     ∧ im_mode im ≠ "RGBa") →
     ∀ i j, 0 ≤ i < x → 0 ≤ j < y →
       getpixel out (ox + i) (oy + j)
       = Some (im_data (convert X im mode) i j))
  ∧ (mode = "RGB" → im_mode im = "RGBA" ∨ im_mode im = "RGBa" →
     ∀ i j, 0 ≤ i < x → 0 ≤ j < y →
       getpixel out (ox + i) (oy + j) = Some (take 3 (im_data im i j)))
  ∧ (∀ i j, 0 ≤ i < size → 0 ≤ j < size →
       ¬ (ox ≤ i < ox + x ∧ oy ≤ j < oy + y) →
       getpixel out i j = Some (ink X mode fill)).
Proof.
  intros x y size ox oy out.
  pose proof (max3_spec min_size x y) as Hsize. fold size in Hsize.
  assert (Hox : 0 ≤ ox ∧ 0 ≤ (size - x) - 2 * ox ≤ 1).
  { pose proof (Z.div_mod (size - x) 2). pose proof (Z.mod_pos_bound (size - x) 2).
    assert (0 ≤ (size - x) / 2) by (apply Z.div_pos; lia).
    fold ox in H, H1. lia. }
  assert (Hoy : 0 ≤ oy ∧ 0 ≤ (size - y) - 2 * oy ≤ 1).
  { pose proof (Z.div_mod (size - y) 2). pose proof (Z.mod_pos_bound (size - y) 2).
    assert (0 ≤ (size - y) / 2) by (apply Z.div_pos; lia).
    fold oy in H, H1. lia. }
  pose proof (make_square_with_bb_pixels im min_size fill mode) as Hpx.
  cbv zeta in Hpx. fold x y size ox oy out in Hpx.
  assert (Him : ∀ i j, getpixel im i j =
            if (0 <=? i) && (i <? x) && (0 <=? j) && (j <? y)
            then Some (im_data im i j) else None) by reflexivity.
  assert (Hsz : im_size out = (size, size) ∧ im_mode out = mode).
  { subst out. rewrite make_square_with_bb_unfold. split; reflexivity. }
  assert (Hin : ∀ i j, 0 ≤ i < x → 0 ≤ j < y →
            getpixel out (ox + i) (oy + j)
            = Some (paste_source X mode im i j)).
  { intros i j Hi Hj. rewrite Hpx.
    replace (ox + i - ox) with i by lia.
    replace (oy + j - oy) with j by lia.
    repeat match goal with
           | |- context [(?a <=? ?b)] => destruct (Z.leb_spec a b); try lia
           | |- context [(?a <? ?b)] => destruct (Z.ltb_spec a b); try lia
           end; reflexivity. }
  clearbody out ox oy size x y.
  refine (conj (proj1 Hsz) (conj (proj2 Hsz)
           (conj _ (conj Hox (conj Hoy (conj Hin (conj _ (conj _
             (conj _ _)))))))));
    [tauto | | | | ].
  - intros Hmode i j Hi Hj. rewrite Hin, Him by done.
    rewrite paste_source_same_mode by done.
    repeat match goal with
           | |- context [(?a <=? ?b)] => destruct (Z.leb_spec a b); try lia
           | |- context [(?a <? ?b)] => destruct (Z.ltb_spec a b); try lia
           end; split; reflexivity.
  - intros Hmode Hrgb i j Hi Hj. rewrite Hin by done. unfold paste_source.
    destruct (String.eqb_spec (im_mode im) mode) as [|_]; [done|].
    destruct (String.eqb_spec mode "RGB") as [Heq|_]; [|reflexivity].
    destruct (Hrgb Heq) as (Hla & Hrgba & Hpre).
    destruct (String.eqb_spec (im_mode im) "LA") as [|_]; [done|].
    destruct (String.eqb_spec (im_mode im) "RGBA") as [|_]; [done|].
    destruct (String.eqb_spec (im_mode im) "RGBa") as [|_]; [done|].
    reflexivity.
  - intros -> Halpha i j Hi Hj. rewrite Hin by done. unfold paste_source.
    destruct Halpha as [Hm|Hm]; rewrite Hm; reflexivity.
  - intros i j Hi Hj Hout. rewrite Hpx.
    repeat match goal with
           | |- context [(?a <=? ?b)] => destruct (Z.leb_spec a b); try lia
           | |- context [(?a <? ?b)] => destruct (Z.ltb_spec a b); try lia
           end; simpl; try reflexivity; exfalso; apply Hout; lia.
Qed.

End Square.

(** The theorem at the sample picture, padded to side 4 in its own mode:
    the pixel [(1, 1)] of the picture is found at [(1, 2)] as it is, and
    the corner [(0, 0)] holds the default fill colour as mode RGB reads
    it. *)
Lemma make_square_with_bb_canonical_witness :
  getpixel (make_square_with_bb Samples.X0 Samples.im32 4
              default_fill_color "RGB") 1 2
  = Some [1; 1; 7]%Z
  ∧ getpixel (make_square_with_bb Samples.X0 Samples.im32 4
                default_fill_color "RGB") 0 0
    = Some [0; 0; 0]%Z.
Proof.
  pose proof (make_square_with_bb_canonical Samples.X0 Samples.im32 4
                default_fill_color "RGB")
    as (_ & _ & _ & _ & _ & _ & Hin & _ & _ & Hout).
  split.
  - exact (proj1 (Hin eq_refl 1%Z 1%Z ltac:(vm_compute; split; congruence)
                    ltac:(vm_compute; split; congruence))).
  - apply (Hout 0%Z 0%Z); vm_compute; try (split; congruence).
    intros [_ [H _]]. by apply H.
Defined.

(** C5, as stated, fails on a picture in another mode than the requested
    one: the grey level 5 of a picture in mode L is the triple (5, 5, 5) in
    the RGB square, and a pixel of a picture with an alpha band loses
    that band; the default fill colour (0, 0, 0, 0) is the pixel
    (0, 0, 0). *)
Lemma make_square_with_bb_converts :
  let grey := make_square_with_bb Samples.X0 Samples.grey22 2
                default_fill_color "RGB" in
  let alpha := make_square_with_bb Samples.X0 Samples.rgba32 3
                 default_fill_color "RGB" in
  let padded := make_square_with_bb Samples.X0 Samples.im32 4
                  default_fill_color "RGB" in
  (getpixel Samples.grey22 0 0 = Some [5]%Z
   ∧ getpixel grey 0 0 = Some [5; 5; 5]%Z
   ∧ getpixel grey 0 0 ≠ getpixel Samples.grey22 0 0)
  ∧ (getpixel Samples.rgba32 1 1 = Some [1; 1; 7; 255]%Z
     ∧ getpixel alpha 1 1 = Some [1; 1; 7]%Z
     ∧ getpixel alpha 1 1 ≠ getpixel Samples.rgba32 1 1)
  ∧ (getpixel padded 0 0 = Some [0; 0; 0]%Z
     ∧ getpixel padded 0 0 ≠ Some default_fill_color).
Proof. vm_compute. repeat split; congruence. Qed.

(** ** Strings *)

(** [simpl] may unfold the concatenation of strings in this development. *)
#[local] Arguments String.append !_ _ / : simpl nomatch.

Section StringFacts.

Lemma append_assoc (a b c : string) : (a +:+ b) +:+ c = a +:+ (b +:+ c).
Proof. induction a as [|x a IH]; simpl; congruence. Qed.

Lemma append_nil_r (a : string) : a +:+ "" = a.
Proof. induction a as [|x a IH]; simpl; congruence. Qed.

Lemma append_length (a b : string) :
  String.length (a +:+ b) = String.length a + String.length b.
Proof. induction a as [|x a IH]; simpl; congruence. Qed.

(** A common suffix cancels. *)
Lemma append_inv_tail (a b s : string) : a +:+ s = b +:+ s → a = b.
Proof.
  revert b. induction a as [|x a IH]; intros [|y b] H; simpl in H.
  - reflexivity.
  - apply (f_equal String.length) in H. simpl in H.
    rewrite append_length in H. lia.
  - apply (f_equal String.length) in H. simpl in H.
    rewrite append_length in H. lia.
  - injection H as -> H. f_equal. by apply IH.
Qed.

Lemma contains_append (a b : string) (c : ascii) :
  contains (a +:+ b) c = contains a c || contains b c.
Proof.
  induction a as [|x a IH]; simpl; [reflexivity|].
  rewrite IH. apply orb_assoc.
Qed.

(** A string is cut in one way only at its last occurrence of [c]. *)
Lemma cut_at_last (c : ascii) (a b t u : string) :
  contains t c = false → contains u c = false →
  a +:+ String c t = b +:+ String c u → a = b ∧ t = u.
Proof.
  intros Ht Hu. revert b.
  induction a as [|x a IH]; intros [|y b] H; simpl in H.
  - injection H as H. done.
  - injection H as -> H. subst t.
    rewrite contains_append in Ht. simpl in Ht.
    rewrite Ascii.eqb_refl, orb_true_r in Ht. done.
  - injection H as -> H. subst u.
    rewrite contains_append in Hu. simpl in Hu.
    rewrite Ascii.eqb_refl, orb_true_r in Hu. done.
  - injection H as -> H. destruct (IH _ H) as [-> ->]. done.
Qed.

Lemma shares_char_contains (d s : string) (c : ascii) :
  shares_char d s = false → contains d c = true → contains s c = false.
Proof.
  induction d as [|x d IH]; simpl; [done|].
  intros [Hx Hd]%orb_false_iff [Hc|Hc]%orb_true_iff.
  - apply Ascii.eqb_eq in Hc. by subst.
  - by apply IH.
Qed.

Lemma shares_char_tail (d : string) (x : ascii) (s : string) :
  shares_char d (String x s) = false →
  contains d x = false ∧ shares_char d s = false.
Proof.
  induction d as [|y d IH]; simpl; [done|].
  intros [[Hy Hs]%orb_false_iff Hd]%orb_false_iff.
  destruct (IH Hd) as [? ?]. split.
  - apply orb_false_iff. split; [|done]. by rewrite Ascii.eqb_sym.
  - apply orb_false_iff. done.
Qed.

(** [replace] by a delimiter that is not empty is one-to-one on the
    strings in which no character of the delimiter occurs. *)
Lemma replace_inj (old : ascii) (d : string) (s s' : string) :
  d ≠ "" → shares_char d s = false → shares_char d s' = false →
  replace old d s = replace old d s' → s = s'.
Proof.
  intros Hd. revert s'.
  induction s as [|x s IH]; intros [|y s'] Hs Hs' H; simpl in H.
  - reflexivity.
  - destruct (Ascii.eqb_spec y old) as [->|Hy]; [|done].
    destruct d; [done|]. done.
  - destruct (Ascii.eqb_spec x old) as [->|Hx]; [|done].
    destruct d; [done|]. done.
  - destruct (shares_char_tail _ _ _ Hs) as [Hdx Hs1].
    destruct (shares_char_tail _ _ _ Hs') as [Hdy Hs1'].
    destruct (Ascii.eqb_spec x old) as [->|Hx],
             (Ascii.eqb_spec y old) as [->|Hy].
    + apply String.app_inj in H. f_equal. by apply IH.
    + destruct d as [|c d]; [done|]. simpl in H. injection H as -> H.
      simpl in Hdy. rewrite Ascii.eqb_refl in Hdy. done.
    + destruct d as [|c d]; [done|]. simpl in H. injection H as -> H.
      simpl in Hdx. rewrite Ascii.eqb_refl in Hdx. done.
    + injection H as -> H. f_equal. by apply IH.
Qed.

Lemma replace_contains (old : ascii) (d s : string) (c : ascii) :
  contains d c = false → contains s c = false →
  contains (replace old d s) c = false.
Proof.
  intros Hd. induction s as [|x s IH]; simpl; [done|].
  intros [Hx Hs]%orb_false_iff.
  destruct (Ascii.eqb x old).
  - rewrite contains_append, Hd. simpl. by apply IH.
  - simpl. rewrite Hx. simpl. by apply IH.
Qed.

(** The decimal rendering of an integer is made of digits and a sign. *)
Lemma pretty_N_go_contains (c : ascii) (x : N) (s : string) :
  (∀ n, pretty_N_char n ≠ c) → contains s c = false →
  contains (pretty_N_go x s) c = false.
Proof.
  intros Hc. revert s.
  induction (N.lt_wf_0 x) as [x _ IH]; intros s Hs.
  assert (x = 0 ∨ 0 < x)%N as [->|Hx] by lia.
  - by rewrite pretty_N_go_0.
  - rewrite pretty_N_go_step by done. apply IH.
    + by apply N.div_lt.
    + simpl. rewrite Hs, orb_false_r. apply Ascii.eqb_neq, Hc.
Qed.

Lemma pretty_Z_contains (c : ascii) (z : Z) :
  (∀ n, pretty_N_char n ≠ c) → c ≠ "-"%char →
  contains (pretty z) c = false.
Proof.
  intros Hc Hdash.
  assert (HN : ∀ p : positive, contains (pretty p) c = false).
  { intros p. unfold pretty, pretty_positive, pretty, pretty_N.
    case_decide; [done|]. by apply pretty_N_go_contains. }
  destruct z as [|p|p]; unfold pretty, pretty_Z.
  - change (Ascii.eqb "0" c || false = false).
    rewrite orb_false_r. apply Ascii.eqb_neq.
    intros <-. by apply (Hc 0%N).
  - apply HN.
  - change (Ascii.eqb "-" c || contains (pretty p) c = false).
    rewrite HN, orb_false_r. apply Ascii.eqb_neq. done.
Qed.

Lemma digit_not_slash (n : N) : pretty_N_char n ≠ "/"%char.
Proof. unfold pretty_N_char. repeat case_match; done. Qed.

Lemma digit_not_dot (n : N) : pretty_N_char n ≠ "."%char.
Proof. unfold pretty_N_char. repeat case_match; done. Qed.

End StringFacts.

(** ** [split] at a one-character separator, and Python's indices *)

Section SplitFacts.
Variable c : ascii.
Abbreviation sep := (String c EmptyString).

Lemma split_go_sep (s cur : string) :
  split_go sep (String c s) cur 0 = cur :: split_go sep s "" 0.
Proof. simpl. destruct (ascii_dec c c); [|done]. by destruct s. Qed.

Lemma split_go_other (a : ascii) (s cur : string) :
  a ≠ c → split_go sep (String a s) cur 0
          = split_go sep s (cur +:+ String a "") 0.
Proof. intros Ha. simpl. destruct (ascii_dec c a); [by subst|done]. Qed.

(** Without a separator there is one piece. *)
Lemma split_go_whole (s cur : string) :
  contains s c = false → split_go sep s cur 0 = [cur +:+ s].
Proof.
  revert cur. induction s as [|a s IH]; intros cur H.
  - by rewrite append_nil_r.
  - simpl in H. apply orb_false_iff in H as [Ha Hs].
    apply Ascii.eqb_neq in Ha.
    rewrite split_go_other, IH, append_assoc by done. done.
Qed.

(** At an occurrence of the separator the pieces of both sides are put
    together. *)
Lemma split_go_at_sep (a b cur : string) :
  split_go sep (a +:+ String c b) cur 0
  = split_go sep a cur 0 ++ split_go sep b "" 0.
Proof.
  revert cur. induction a as [|x a IH]; intros cur.
  - simpl String.append. by rewrite split_go_sep.
  - simpl String.append. destruct (decide (x = c)) as [->|Hx].
    + rewrite !split_go_sep, IH. done.
    + rewrite !split_go_other, IH by done. done.
Qed.

(** The last piece, and what is appended to the string when it has no
    separator, stay one piece. *)
Lemma split_go_last (a cur : string) :
  ∃ (init : list string) (lp : string),
    split_go sep a cur 0 = init ++ [lp]
    ∧ (contains cur c = false → contains lp c = false)
    ∧ ∀ r, contains r c = false →
           split_go sep (a +:+ r) cur 0 = init ++ [lp +:+ r].
Proof.
  revert cur. induction a as [|x a IH]; intros cur.
  - exists [], cur. split; [done|]. split; [done|].
    intros r Hr. simpl String.append. by rewrite split_go_whole.
  - destruct (decide (x = c)) as [->|Hx].
    + destruct (IH "") as (init & lp & E & Hlp & Happ).
      exists (cur :: init), lp. rewrite split_go_sep, E.
      split; [done|]. split; [intros _; by apply Hlp|].
      intros r Hr. simpl String.append. rewrite split_go_sep, Happ by done.
      done.
    + destruct (IH (cur +:+ String x "")) as (init & lp & E & Hlp & Happ).
      exists init, lp. rewrite split_go_other, E by done.
      split; [done|]. split.
      * intros Hcur. apply Hlp. rewrite contains_append, Hcur. simpl.
        rewrite orb_false_r. by apply Ascii.eqb_neq.
      * intros r Hr. simpl String.append.
        rewrite split_go_other, Happ by done. done.
Qed.

(** The first piece has no separator, and the string goes on after it
    with a separator or not at all. *)
Lemma split_go_first (s cur : string) :
  contains cur c = false →
  ∃ (stem : string) (rest : list string),
    split_go sep s cur 0 = stem :: rest
    ∧ contains stem c = false
    ∧ (cur +:+ s = stem ∨ ∃ t, cur +:+ s = stem +:+ String c t).
Proof.
  revert cur. induction s as [|x s IH]; intros cur Hcur.
  - exists cur, []. rewrite append_nil_r. auto.
  - destruct (decide (x = c)) as [->|Hx].
    + exists cur, (split_go sep s "" 0). rewrite split_go_sep. eauto.
    + destruct (IH (cur +:+ String x "")) as (stem & rest & E & Hs & Hcut).
      { rewrite contains_append, Hcur. simpl. rewrite orb_false_r.
        by apply Ascii.eqb_neq. }
      exists stem, rest. rewrite split_go_other, E by done.
      rewrite append_assoc in Hcut. auto.
Qed.

End SplitFacts.

Section IndexFacts.
Context {A : Type}.

Lemma index_first (x : A) (l : list A) : Py.index (x :: l) 0 = Ok x.
Proof.
  unfold Py.index. simpl length.
  destruct (Z.leb_spec 0 0); [|lia].
  destruct (Z.ltb_spec 0 (Z.of_nat (S (length l)))); [|lia]. done.
Qed.

Lemma index_last (l : list A) (x : A) : Py.index (l ++ [x]) (-1) = Ok x.
Proof.
  unfold Py.index. rewrite length_app. simpl length.
  change (-1 <? 0)%Z with true. cbv iota.
  destruct (Z.leb_spec 0 (-1 + Z.of_nat (length l + 1))); [|lia].
  destruct (Z.ltb_spec (-1 + Z.of_nat (length l + 1))
              (Z.of_nat (length l + 1))); [|lia].
  simpl andb. cbv iota.
  replace (Z.to_nat (-1 + Z.of_nat (length l + 1))) with (length l) by lia.
  rewrite lookup_app_r by lia. by rewrite Nat.sub_diag.
Qed.

Lemma index_penultimate (l : list A) (x y : A) :
  Py.index (l ++ [x; y]) (-2) = Ok x.
Proof.
  unfold Py.index. rewrite length_app. simpl length.
  change (-2 <? 0)%Z with true. cbv iota.
  destruct (Z.leb_spec 0 (-2 + Z.of_nat (length l + 2))); [|lia].
  destruct (Z.ltb_spec (-2 + Z.of_nat (length l + 2))
              (Z.of_nat (length l + 2))); [|lia].
  simpl andb. cbv iota.
  replace (Z.to_nat (-2 + Z.of_nat (length l + 2))) with (length l) by lia.
  rewrite lookup_app_r by lia. by rewrite Nat.sub_diag.
Qed.

End IndexFacts.

(** ** The world only grows *)

Section WorldFacts.

Lemma disk_grows_refl (w : world) : disk_grows w w.
Proof. split; reflexivity. Qed.

Lemma disk_grows_trans (w1 w2 w3 : world) :
  disk_grows w1 w2 → disk_grows w2 w3 → disk_grows w1 w3.
Proof. intros [? ?] [? ?]. split; set_solver. Qed.

Lemma disk_grows_add_dir (p : string) (w : world) : disk_grows w (add_dir p w).
Proof. split; simpl; set_solver. Qed.

Lemma disk_grows_add_file (p : string) (c : content) (w : world) :
  disk_grows w (add_file p c w).
Proof. split; simpl; [done|]. rewrite dom_insert_L. set_solver. Qed.

Lemma disk_grows_add_request (u : value) (t : Z) (w : world) :
  disk_grows w (add_request u t w).
Proof. split; reflexivity. Qed.

Lemma disk_grows_add_log (msg : string) (w : world) :
  disk_grows w (add_log msg w).
Proof. split; reflexivity. Qed.

Lemma path_exists_true (p : string) (w : world) :
  path_exists p w = true ↔ p ∈ dirs w ∨ p ∈ dom (files w).
Proof.
  unfold path_exists. rewrite orb_true_iff, !bool_decide_eq_true.
  by rewrite elem_of_dom.
Qed.

Lemma path_exists_grows (p : string) (w w' : world) :
  disk_grows w w' → path_exists p w = true → path_exists p w' = true.
Proof.
  intros [Hd Hf]. rewrite !path_exists_true. intros [?|?]; set_solver.
Qed.

Lemma path_exists_add_file (p : string) (c : content) (w : world) :
  path_exists p (add_file p c w) = true.
Proof.
  apply path_exists_true. right. simpl. rewrite dom_insert_L. set_solver.
Qed.

Lemma path_exists_add_dir (p : string) (w : world) :
  path_exists p (add_dir p w) = true.
Proof. apply path_exists_true. left. simpl. set_solver. Qed.

Lemma endswith_append (a suffix : string) : endswith (a +:+ suffix) suffix = true.
Proof.
  induction a as [|x a IH].
  - destruct suffix; simpl; [done|].
    by rewrite Ascii.eqb_refl, String.eqb_refl.
  - simpl String.append. simpl endswith. rewrite IH. apply orb_true_r.
Qed.

End WorldFacts.

(** ** The path of a record *)

Section PathFacts.
Context (K : Constants) (X : Externals).

Lemma split_index_last_ok (s : string) :
  ∃ x, Py.index (split_go "." s "" 0) (-1) = Ok x.
Proof.
  destruct (split_go_last "." s "") as (init & lp & -> & _).
  exists lp. apply index_last.
Qed.

(** What [img_path_from_row] returns, and the world it leaves, when it
    returns. *)
Lemma img_path_from_row_ok (row : Series) (i : Z) (col : string)
    (extra : option string) (w w' : world) (p : string) :
  img_path_from_row K X row i col extra w = (Ok p, w') →
  ∃ sp c s9 : string,
    getitem row "species" = Ok (VStr sp)
    ∧ getitem row col = Ok (VStr c)
    ∧ getpos row 9 = Ok (VStr s9)
    ∧ p = match extra with
          | Some e =>
              if String.eqb e "" then
                IMGDIR_PATH K +:+ replace " " (DIRNAME_DELIM K) s9
                  +:+ "/" +:+ pretty i
              else
                (IMGDIR_PATH K +:+ replace " " (DIRNAME_DELIM K) s9
                   +:+ "/" +:+ pretty i) +:+ e
          | None =>
              IMGDIR_PATH K +:+ replace " " (DIRNAME_DELIM K) s9
                +:+ "/" +:+ pretty i
          end +:+ "_0.npy"
    ∧ let d := IMGDIR_PATH K +:+ replace " " (DIRNAME_DELIM K) sp in
      (path_exists d w = true ∧ w' = w)
      ∨ (path_exists d w = false ∧ makedirs_error X w d = None
         ∧ w' = add_dir d w).
Proof.
  unfold img_path_from_row. unfold_monad. intros H.
  destruct (getitem row "species") as [[sp| |n]|e]; simpl in H; try done.
  exists sp.
  destruct (path_exists _ w) eqn:Hex; simpl in H.
  - destruct (getitem row col) as [[c| |n]|e]; simpl in H; try done.
    destruct (Py.index _ _); simpl in H; try done.
    destruct (getpos row 9) as [[s9| |n]|e]; simpl in H; try done.
    injection H as <- <-. exists c, s9. auto 10.
  - unfold makedirs in H. destruct (makedirs_error X w _) eqn:Herr; [done|].
    destruct (getitem row col) as [[c| |n]|e]; simpl in H; try done.
    destruct (Py.index _ _); simpl in H; try done.
    destruct (getpos row 9) as [[s9| |n]|e]; simpl in H; try done.
    injection H as <- <-. exists c, s9. auto 10.
Qed.

(** It returns whenever the three cells it reads are strings and the
    directory of the species exists or can be made. *)
Lemma img_path_from_row_run (row : Series) (i : Z) (col : string)
    (w : world) (sp c s9 : string) :
  getitem row "species" = Ok (VStr sp) →
  getitem row col = Ok (VStr c) →
  getpos row 9 = Ok (VStr s9) →
  let d := IMGDIR_PATH K +:+ replace " " (DIRNAME_DELIM K) sp in
  let p := (IMGDIR_PATH K +:+ replace " " (DIRNAME_DELIM K) s9
              +:+ "/" +:+ pretty i) +:+ "_0.npy" in
  (path_exists d w = true →
   img_path_from_row K X row i col None w = (Ok p, w))
  ∧ (path_exists d w = false → makedirs_error X w d = None →
     img_path_from_row K X row i col None w = (Ok p, add_dir d w)).
Proof.
  intros Hsp Hc H9 d p. destruct (split_index_last_ok c) as [x Hx].
  unfold img_path_from_row. unfold_monad. rewrite Hsp. simpl.
  fold d. split.
  - intros ->. simpl. rewrite Hc. simpl. rewrite Hx, H9. done.
  - intros -> Herr. simpl. unfold makedirs. rewrite Herr.
    rewrite Hc. simpl. rewrite Hx, H9. done.
Qed.

(** Whatever it does, [img_path_from_row] writes no file, calls no
    network and logs nothing; it adds the directory of the species when
    that is missing, and nothing else. *)
Lemma img_path_from_row_world (row : Series) (i : Z) (col : string)
    (extra : option string) (w : world) :
  let w' := snd (img_path_from_row K X row i col extra w) in
  w' = w
  ∨ ∃ sp : string,
      getitem row "species" = Ok (VStr sp)
      ∧ path_exists (IMGDIR_PATH K +:+ replace " " (DIRNAME_DELIM K) sp) w
        = false
      ∧ w' = add_dir (IMGDIR_PATH K +:+ replace " " (DIRNAME_DELIM K) sp) w.
Proof.
  unfold img_path_from_row. unfold_monad.
  destruct (getitem row "species") as [[sp| |n]|e]; simpl; auto.
  destruct (path_exists _ w) eqn:Hex; simpl.
  - left. repeat (case_match; simpl; try done).
  - unfold makedirs. destruct (makedirs_error X w _); [by left|].
    right. exists sp. split; [done|]. split; [done|].
    repeat (case_match; simpl; try done).
Qed.

End PathFacts.

Section FeaturePathFacts.
Context (K : Constants).

Lemma l_dirpath_from_row_ok (self : FeatureExtractor) (row : Series)
    (feature : option string) (w w' : world) (l : string) :
  l_dirpath_from_row K self row feature w = (Ok l, w') →
  ∃ (v : value) (parts : list string) (l_name : string),
    getitem row "path" = Ok v
    ∧ split (str v) (PATH_SEP K) = Ok parts
    ∧ Py.index parts (-2) = Ok l_name
    ∧ l = dirpath_from_ft self feature +:+ l_name +:+ PATH_SEP K
    ∧ w' = add_log ("path: " +:+ str v) w.
Proof.
  unfold l_dirpath_from_row. unfold_monad. intros H.
  destruct (getitem row "path") as [v|e] eqn:Hv; simpl in H; [|done].
  destruct (split (str v) (PATH_SEP K)) as [parts|e] eqn:Hp; simpl in H;
    [|done].
  destruct (Py.index parts (-2)) as [l_name|e] eqn:Hl; simpl in H; [|done].
  injection H as <- <-. exists v, parts, l_name. by repeat split.
Qed.

Lemma path_from_row_ft_ok (self : FeatureExtractor) (row : Series)
    (feature : option string) (w w' : world) (q : string) :
  path_from_row_ft K self row feature w = (Ok q, w') →
  ∃ (v : value) (parts : list string) (l_name f_name : string),
    getitem row "path" = Ok v
    ∧ split (str v) (PATH_SEP K) = Ok parts
    ∧ Py.index parts (-2) = Ok l_name
    ∧ Py.index parts (-1) = Ok f_name
    ∧ q = (dirpath_from_ft self feature +:+ l_name +:+ PATH_SEP K) +:+ f_name
    ∧ w' = add_log ("path: " +:+ str v) w.
Proof.
  unfold path_from_row_ft. unfold_monad. intros H.
  destruct (getitem row "path") as [v|e] eqn:Hv; simpl in H; [|done].
  destruct (split (str v) (PATH_SEP K)) as [parts|e] eqn:Hp; simpl in H;
    [|done].
  destruct (Py.index parts (-1)) as [f_name|e] eqn:Hf; simpl in H; [|done].
  destruct (l_dirpath_from_row K self row feature w) as [[l|e] w1] eqn:Hl;
    [|done].
  injection H as <- <-.
  apply l_dirpath_from_row_ok in Hl
    as (v' & parts' & l_name & Hv' & Hp' & Hl' & -> & ->).
  rewrite Hv in Hv'. injection Hv' as <-.
  rewrite Hp in Hp'. injection Hp' as <-.
  exists v, parts, l_name, f_name. by repeat split.
Qed.

(** The two path functions of the extractor add at most one record to the
    log. *)
Lemma l_dirpath_from_row_world (self : FeatureExtractor) (row : Series)
    (feature : option string) (w : world) :
  let w' := snd (l_dirpath_from_row K self row feature w) in
  w' = w ∨ ∃ msg, w' = add_log msg w.
Proof.
  unfold l_dirpath_from_row. unfold_monad.
  destruct (getitem row "path") as [v|e]; simpl; [|by left].
  right. exists ("path: " +:+ str v).
  repeat (case_match; simpl; try done).
Qed.

Lemma path_from_row_ft_world (self : FeatureExtractor) (row : Series)
    (feature : option string) (w : world) :
  let w' := snd (path_from_row_ft K self row feature w) in
  w' = w ∨ ∃ msg, w' = add_log msg w.
Proof.
  unfold path_from_row_ft. unfold_monad.
  destruct (getitem row "path") as [v|e]; simpl; [|by left].
  destruct (split (str v) (PATH_SEP K)) as [parts|e]; simpl; [|by left].
  destruct (Py.index parts (-1)) as [f_name|e]; simpl; [|by left].
  pose proof (l_dirpath_from_row_world self row feature w) as Hw.
  simpl in Hw.
  destruct (l_dirpath_from_row K self row feature w) as [[l|e] w1]; done.
Qed.

End FeaturePathFacts.

(** ** Side effects of computing a path *)

Section PathEffects.
Context (K : Constants) (X : Externals).


End PathEffects.


(** ** The path scheme: one record, one path *)

Section PathScheme.
Context (K : Constants) (X : Externals).

(** The file name of a record: digits, a sign, and ["_0.npy"]. *)
Lemma file_name_no_slash (i : Z) : contains (pretty i +:+ "_0.npy") "/" = false.
Proof.
  rewrite contains_append, pretty_Z_contains; [done|apply digit_not_slash|done].
Qed.

(** The pieces of the path of a fetched record, cut at ["/"]: the last one
    is the file name, the one before ends with the directory name of the
    category. *)
Lemma fetch_path_pieces :
  ∃ (init : list string) (lp : string),
    contains lp "/" = false
    ∧ ∀ (dir : string) (i : Z),
        contains dir "/" = false →
        split_go "/" ((IMGDIR_PATH K +:+ dir +:+ "/" +:+ pretty i) +:+ "_0.npy")
          "" 0
        = init ++ [lp +:+ dir; pretty i +:+ "_0.npy"].
Proof.
  destruct (split_go_last "/" (IMGDIR_PATH K) "") as (init & lp & _ & Hlp & Happ).
  exists init, lp. split; [by apply Hlp|]. intros dir i Hdir.
  replace ((IMGDIR_PATH K +:+ dir +:+ "/" +:+ pretty i) +:+ "_0.npy")
    with ((IMGDIR_PATH K +:+ dir) +:+ String "/" (pretty i +:+ "_0.npy")).
  2:{ rewrite !append_assoc. reflexivity. }
  rewrite split_go_at_sep, Happ by done.
  rewrite split_go_whole by apply file_name_no_slash.
  rewrite <- app_assoc. reflexivity.
Qed.

(** C4, as the code has it.  The path of a record does not depend on the
    state of the world.  With ["/"] as the path separator and a delimiter
    that is not empty and has no ["/"], the scheme is one-to-one on the
    triples whose category has no ["/"] and no character of the delimiter
    and whose feature identifier is not empty: equal paths of fetched
    images come from the same category and index, and equal feature paths
    from the same category, index and feature identifier. *)
Theorem path_scheme_deterministic_injective (self : FeatureExtractor) :
  PATH_SEP K = "/" →
  DIRNAME_DELIM K ≠ "" →
  contains (DIRNAME_DELIM K) "/" = false →
  (∀ row i col extra w1 w2 p1 p2,
     fst (img_path_from_row K X row i col extra w1) = Ok p1 →
     fst (img_path_from_row K X row i col extra w2) = Ok p2 →
     p1 = p2)
  ∧ (∀ row feature w1 w2 q1 q2,
       fst (path_from_row_ft K self row feature w1) = Ok q1 →
       fst (path_from_row_ft K self row feature w2) = Ok q2 →
       q1 = q2)
  ∧ (∀ (row1 row2 r1 r2 : Series) (c1 c2 : string) (i1 i2 : Z)
       (f1 f2 : string) (w1 w2 u1 u2 : world) (p1 p2 q1 q2 : string),
       getpos row1 9 = Ok (VStr c1) →
       getpos row2 9 = Ok (VStr c2) →
       shares_char (DIRNAME_DELIM K) c1 = false →
       shares_char (DIRNAME_DELIM K) c2 = false →
       contains c1 "/" = false →
       contains c2 "/" = false →
       f1 ≠ "" → f2 ≠ "" →
       fst (img_path_from_row K X row1 i1 "identifier" None w1) = Ok p1 →
       fst (img_path_from_row K X row2 i2 "identifier" None w2) = Ok p2 →
       getitem r1 "path" = Ok (VStr p1) →
       getitem r2 "path" = Ok (VStr p2) →
       fst (path_from_row_ft K self r1 (Some f1) u1) = Ok q1 →
       fst (path_from_row_ft K self r2 (Some f2) u2) = Ok q2 →
       (p1 = p2 → c1 = c2 ∧ i1 = i2)
       ∧ (q1 = q2 → c1 = c2 ∧ i1 = i2 ∧ f1 = f2)).
Proof.
  intros Hsep Hdelim Hdslash. split; [|split].
  - intros row i col extra w1 w2 p1 p2 H1 H2.
    destruct (img_path_from_row K X row i col extra w1) as [r1 w1'] eqn:E1.
    destruct (img_path_from_row K X row i col extra w2) as [r2 w2'] eqn:E2.
    simpl in H1, H2. subst r1 r2.
    apply img_path_from_row_ok in E1 as (sp & c & s9 & _ & _ & H9 & -> & _).
    apply img_path_from_row_ok in E2 as (sp' & c' & s9' & _ & _ & H9' & -> & _).
    rewrite H9 in H9'. injection H9' as <-. done.
  - intros row feature w1 w2 q1 q2 H1 H2.
    destruct (path_from_row_ft K self row feature w1) as [r1 w1'] eqn:E1.
    destruct (path_from_row_ft K self row feature w2) as [r2 w2'] eqn:E2.
    simpl in H1, H2. subst r1 r2.
    apply path_from_row_ft_ok in E1
      as (v & parts & l_name & f_name & Hv & Hp & Hl & Hf & -> & _).
    apply path_from_row_ft_ok in E2
      as (v' & parts' & l_name' & f_name' & Hv' & Hp' & Hl' & Hf' & -> & _).
    rewrite Hv in Hv'. injection Hv' as <-.
    rewrite Hp in Hp'. injection Hp' as <-.
    rewrite Hl in Hl'. injection Hl' as <-.
    rewrite Hf in Hf'. injection Hf' as <-. done.
  - intros row1 row2 r1 r2 c1 c2 i1 i2 f1 f2 w1 w2 u1 u2 p1 p2 q1 q2
      H91 H92 Hs1 Hs2 Hc1 Hc2 Hf1 Hf2 Hp1 Hp2 Hr1 Hr2 Hq1 Hq2.
    destruct (img_path_from_row K X row1 i1 "identifier" None w1)
      as [x1 w1'] eqn:E1.
    destruct (img_path_from_row K X row2 i2 "identifier" None w2)
      as [x2 w2'] eqn:E2.
    simpl in Hp1, Hp2. subst x1 x2.
    apply img_path_from_row_ok in E1 as (sp & c & s9 & _ & _ & H9 & Ep1 & _).
    apply img_path_from_row_ok in E2 as (sp' & c' & s9' & _ & _ & H9' & Ep2 & _).
    rewrite H91 in H9. injection H9 as <-.
    rewrite H92 in H9'. injection H9' as <-.
    assert (Hd1 : contains (replace " " (DIRNAME_DELIM K) c1) "/" = false)
      by (by apply replace_contains).
    assert (Hd2 : contains (replace " " (DIRNAME_DELIM K) c2) "/" = false)
      by (by apply replace_contains).
    assert (Hinj : replace " " (DIRNAME_DELIM K) c1
                   = replace " " (DIRNAME_DELIM K) c2 → c1 = c2)
      by (by apply replace_inj).
    assert (Hidx : pretty i1 +:+ "_0.npy" = pretty i2 +:+ "_0.npy" → i1 = i2).
    { intros E. apply append_inv_tail in E. by apply (inj pretty). }
    split.
    + intros Epp. subst p1 p2.
      apply append_inv_tail, String.app_inj in Epp.
      apply cut_at_last in Epp as [E1 E2].
      * split; [by apply Hinj|]. by apply (inj pretty).
      * apply pretty_Z_contains; [apply digit_not_slash|done].
      * apply pretty_Z_contains; [apply digit_not_slash|done].
    + intros Eqq.
      destruct (path_from_row_ft K self r1 (Some f1) u1) as [y1 u1'] eqn:F1.
      destruct (path_from_row_ft K self r2 (Some f2) u2) as [y2 u2'] eqn:F2.
      simpl in Hq1, Hq2. subst y1 y2.
      apply path_from_row_ft_ok in F1
        as (v1 & parts1 & l1 & n1 & Hv1 & Hparts1 & Hl1 & Hn1 & Eq1 & _).
      apply path_from_row_ft_ok in F2
        as (v2 & parts2 & l2 & n2 & Hv2 & Hparts2 & Hl2 & Hn2 & Eq2 & _).
      rewrite Hr1 in Hv1. injection Hv1 as <-.
      rewrite Hr2 in Hv2. injection Hv2 as <-.
      destruct fetch_path_pieces as (init & lp & Hlp & Hpieces).
      rewrite Hsep in *. simpl in Hparts1, Hparts2.
      injection Hparts1 as <-. injection Hparts2 as <-.
      rewrite Ep1, Hpieces in Hl1, Hn1 by done.
      rewrite Ep2, Hpieces in Hl2, Hn2 by done.
      rewrite index_penultimate in Hl1, Hl2.
      change [?a; ?b] with ([a] ++ [b]) in Hn1, Hn2.
      rewrite app_assoc, index_last in Hn1, Hn2.
      injection Hl1 as <-. injection Hl2 as <-.
      injection Hn1 as <-. injection Hn2 as <-.
      assert (Hout1 : (if String.eqb f1 "" then "db" else f1) = f1)
        by (by destruct (String.eqb_spec f1 "")).
      assert (Hout2 : (if String.eqb f2 "" then "db" else f2) = f2)
        by (by destruct (String.eqb_spec f2 "")).
      unfold dirpath_from_ft in Eq1, Eq2. rewrite Hout1 in Eq1.
      rewrite Hout2 in Eq2.
      assert (E : (save_path self +:+ "_" +:+ f1 +:+ "/"
                     +:+ lp +:+ replace " " (DIRNAME_DELIM K) c1)
                    +:+ String "/" (pretty i1 +:+ "_0.npy")
                  = (save_path self +:+ "_" +:+ f2 +:+ "/"
                       +:+ lp +:+ replace " " (DIRNAME_DELIM K) c2)
                      +:+ String "/" (pretty i2 +:+ "_0.npy")).
      { rewrite Eq1, Eq2 in Eqq. rewrite !append_assoc in Eqq.
        rewrite !append_assoc. exact Eqq. }
      apply cut_at_last in E as [E En]; [|apply file_name_no_slash..].
      assert (E' : (save_path self +:+ "_" +:+ f1)
                     +:+ String "/" (lp +:+ replace " " (DIRNAME_DELIM K) c1)
                   = (save_path self +:+ "_" +:+ f2)
                       +:+ String "/" (lp +:+ replace " " (DIRNAME_DELIM K) c2)).
      { rewrite !append_assoc. exact E. }
      apply cut_at_last in E' as [Ef El];
        [|rewrite contains_append, Hlp; simpl; done..].
      apply String.app_inj in Ef. simpl in Ef. injection Ef as Ef.
      apply String.app_inj in El.
      split; [by apply Hinj|]. split; [by apply Hidx|done].
Qed.

End PathScheme.

(** C4, as the specification has it, fails: the record of category ["A"]
    and index [0] has the path ["image_db/A/0_0.npy"], and for this record
    the feature identifiers [""] and ["db"], which differ, are given one
    and the same feature path.  Categories collide as well: with the
    delimiter ["_"] of the sample configuration the categories ["A B"] and
    ["A_B"] share the path of their fetched image, and the categories
    ["x/A"] and ["y/A"] share their feature path. *)
Lemma path_scheme_collision :
  let row := Samples.row_of (VStr "A") (VStr "http://h/a.jpg") in
  let fetched := setcell row "path" (VStr "image_db/A/0_0.npy") in
  let path_of := fun category : string =>
    fst (img_path_from_row Samples.K0 Samples.X0
           (Samples.row_of (VStr category) (VStr "http://h/a.jpg"))
           0 "identifier" None Samples.empty_world) in
  let feature_path_of := fun (p feature : string) =>
    fst (path_from_row_ft Samples.K0 Samples.fe0 [("path", VStr p)]
           (Some feature) Samples.empty_world) in
  path_of "A" = Ok "image_db/A/0_0.npy"
  ∧ ("A", 0%Z, "") ≠ ("A", 0%Z, "db")
  ∧ fst (path_from_row_ft Samples.K0 Samples.fe0 fetched (Some "")
           Samples.empty_world) = Ok "image_db/feature_db/A/0_0.npy"
  ∧ fst (path_from_row_ft Samples.K0 Samples.fe0 fetched (Some "db")
           Samples.empty_world) = Ok "image_db/feature_db/A/0_0.npy"
  ∧ "A B" ≠ "A_B"
  ∧ path_of "A B" = Ok "image_db/A_B/0_0.npy"
  ∧ path_of "A_B" = Ok "image_db/A_B/0_0.npy"
  ∧ "x/A" ≠ "y/A"
  ∧ path_of "x/A" = Ok "image_db/x/A/0_0.npy"
  ∧ path_of "y/A" = Ok "image_db/y/A/0_0.npy"
  ∧ feature_path_of "image_db/x/A/0_0.npy" "lbp"
    = Ok "image_db/feature_lbp/A/0_0.npy"
  ∧ feature_path_of "image_db/y/A/0_0.npy" "lbp"
    = Ok "image_db/feature_lbp/A/0_0.npy".
Proof. vm_compute. repeat split; congruence. Qed.

(** The theorem at the records [("A", 0)] and [("B", 2)] with the features
    ["lbp"] and ["glcm"]. *)
Lemma path_scheme_deterministic_injective_witness :
  ("image_db/A/0_0.npy" = "image_db/B/2_0.npy" → "A" = "B" ∧ 0%Z = 2%Z)
  ∧ ("image_db/feature_lbp/A/0_0.npy" = "image_db/feature_glcm/B/2_0.npy" →
     "A" = "B" ∧ 0%Z = 2%Z ∧ "lbp" = "glcm").
Proof.
  apply (proj2 (proj2 (path_scheme_deterministic_injective
                         Samples.K0 Samples.X0 Samples.fe0
                         eq_refl ltac:(discriminate) eq_refl))
           (Samples.row_of (VStr "A") (VStr "http://h/a.jpg"))
           (Samples.row_of (VStr "B") (VStr "http://h/b.jpg"))
           [("path", VStr "image_db/A/0_0.npy")]
           [("path", VStr "image_db/B/2_0.npy")]
           "A" "B" 0%Z 2%Z "lbp" "glcm"
           Samples.empty_world Samples.empty_world
           Samples.empty_world Samples.empty_world);
    first [ reflexivity | discriminate | vm_compute; reflexivity ].
Defined.


(** ** One fetch unit *)

Section FetchUnit.
Context (K : Constants) (X : Externals).

(** The path of a record ends with [".npy"], so [np.save] writes it at
    that very path. *)
Lemma img_path_endswith_npy (row : Series) (i : Z) (col : string)
    (extra : option string) (w w' : world) (p : string) :
  img_path_from_row K X row i col extra w = (Ok p, w') →
  endswith p ".npy" = true.
Proof.
  intros H. apply img_path_from_row_ok in H as (_ & _ & s9 & _ & _ & _ & -> & _).
  change "_0.npy" with ("_0" +:+ ".npy"). rewrite <- append_assoc.
  apply endswith_append.
Qed.

Lemma img_path_from_row_grows (row : Series) (i : Z) (col : string)
    (extra : option string) (w : world) :
  disk_grows w (snd (img_path_from_row K X row i col extra w)).
Proof.
  destruct (img_path_from_row_world K X row i col extra w)
    as [->|(sp & _ & _ & ->)].
  - apply disk_grows_refl.
  - apply disk_grows_add_dir.
Qed.

(** The guarded part of [save_img]: it never raises; it answers the path,
    which then exists, or the missing value. *)
Lemma guarded_fetch (col : string) (row : Series) (path : string)
    (w : world) :
  endswith path ".npy" = true →
  ∃ v w',
    try_except
      (url ← lift (getitem row col);
       img ← requests_get_image X url 40;
       let img := make_square_with_bb X img default_min_size
                    default_fill_color default_mode in
       let img := resize X img (416, 416)%Z in
       np_save X path img;;
       mret (VStr path))
      (fun e =>
         match e with
         | Timeout => mret VNaN
         | RequestException => mret VNaN
         | ValueError => mret VNaN
         | OSError => mret VNaN
         | _ => mret VNaN
         end) w = (Ok v, w')
    ∧ disk_grows w w'
    ∧ (v = VNaN ∨ (v = VStr path ∧ path_exists path w' = true)).
Proof.
  intros Hnpy. unfold_monad.
  destruct (getitem row col) as [url|e]; simpl.
  2:{ exists VNaN, w. split; [by destruct e|].
      split; [apply disk_grows_refl|by left]. }
  unfold requests_get_image.
  destruct (http_image X (requests w) url 40) as [img|e]; simpl.
  2:{ exists VNaN, (add_request url 40 w). split; [by destruct e|].
      split; [apply disk_grows_add_request|by left]. }
  unfold np_save, write_file. rewrite Hnpy.
  destruct (write_error X (add_request url 40 w) path) as [e|]; simpl.
  { exists VNaN, (add_request url 40 w). split; [by destruct e|].
    split; [apply disk_grows_add_request|by left]. }
  eexists _, _. split; [reflexivity|]. split.
  - eapply disk_grows_trans;
      [apply disk_grows_add_request|apply disk_grows_add_file].
  - right. split; [done|]. apply path_exists_add_file.
Qed.

(** What a unit returns: the exception of the computation of its path; or
    the path, which exists when the unit ends; or the missing value. *)
Lemma save_img_spec (col : string) (row : Series) (i : Z) (w w' : world)
    (r : result value) :
  save_img K X col row i w = (r, w') →
  disk_grows w w'
  ∧ match r with
    | Raise e => fst (img_path_from_row K X row i "identifier" None w) = Raise e
    | Ok v =>
        ∃ p w1,
          img_path_from_row K X row i "identifier" None w = (Ok p, w1)
          ∧ disk_grows w1 w'
          ∧ (v = VNaN ∨ (v = VStr p ∧ path_exists p w' = true))
    end.
Proof.
  unfold save_img. intros H.
  pose proof (img_path_from_row_grows row i "identifier" None w) as Hg.
  unfold mbind at 1 in H. unfold M_bind at 1 in H.
  destruct (img_path_from_row K X row i "identifier" None w)
    as [[p|e] w1] eqn:Hp; simpl in Hg.
  2:{ injection H as <- <-. done. }
  unfold mbind at 1 in H. unfold M_bind at 1 in H. unfold exists_ in H.
  destruct (path_exists p w1) eqn:Hex; cbn [negb] in H; cbv beta iota in H.
  - injection H as <- <-. split; [done|].
    exists p, w1. split; [done|]. split; [apply disk_grows_refl|]. auto.
  - destruct (guarded_fetch col row p w1) as (v & w2 & Hrun & Hg2 & Hv).
    { by eapply img_path_endswith_npy. }
    cbv zeta in Hrun, H. rewrite Hrun in H. injection H as <- <-.
    split; [by eapply disk_grows_trans|]. exists p, w1. auto.
Qed.

(** A unit whose path exists returns it and leaves the world as the
    computation of the path left it. *)
Lemma save_img_cached (col : string) (row : Series) (i : Z) (w w1 : world)
    (p : string) :
  img_path_from_row K X row i "identifier" None w = (Ok p, w1) →
  path_exists p w1 = true →
  save_img K X col row i w = (Ok (VStr p), w1).
Proof.
  intros Hp Hex. unfold save_img.
  unfold mbind at 1. unfold M_bind at 1. rewrite Hp.
  unfold mbind at 1. unfold M_bind at 1. unfold exists_. rewrite Hex. done.
Qed.

(** The world after the guarded part of a unit whose file is absent, by
    the answers of the libraries. *)
Lemma save_img_absent (col : string) (row : Series) (i : Z) (w w1 : world)
    (p : string) :
  img_path_from_row K X row i "identifier" None w = (Ok p, w1) →
  path_exists p w1 = false →
  save_img K X col row i w
  = match getitem row col with
    | Raise _ => (Ok VNaN, w1)
    | Ok url =>
        match http_image X (requests w1) url 40 with
        | Raise _ => (Ok VNaN, add_request url 40 w1)
        | Ok img =>
            match write_error X (add_request url 40 w1) p with
            | Some _ => (Ok VNaN, add_request url 40 w1)
            | None =>
                (Ok (VStr p),
                 add_file p
                   (Npy (resize X
                           (make_square_with_bb X img default_min_size
                              default_fill_color default_mode)
                           (416, 416)%Z))
                   (add_request url 40 w1))
            end
        end
    end.
Proof.
  intros Hp Hex. pose proof (img_path_endswith_npy _ _ _ _ _ _ _ Hp) as Hnpy.
  unfold save_img.
  unfold mbind at 1. unfold M_bind at 1. rewrite Hp.
  unfold mbind at 1. unfold M_bind at 1. unfold exists_. rewrite Hex.
  cbn [negb]. cbv beta iota zeta. unfold_monad.
  destruct (getitem row col) as [url|e]; [|by destruct e].
  unfold requests_get_image.
  destruct (http_image X (requests w1) url 40) as [img|e]; [|by destruct e].
  unfold np_save, write_file. rewrite Hnpy.
  destruct (write_error X (add_request url 40 w1) p) as [e|]; [by destruct e|].
  done.
Qed.

(** What a unit returns when the path of its record can be computed,
    by the answers of the libraries. *)
Lemma save_img_value (col : string) (row : Series) (i : Z) (w w1 : world)
    (p : string) :
  img_path_from_row K X row i "identifier" None w = (Ok p, w1) →
  fst (save_img K X col row i w)
  = Ok (if path_exists p w1 then VStr p
        else match getitem row col with
             | Raise _ => VNaN
             | Ok url =>
                 match http_image X (requests w1) url 40 with
                 | Raise _ => VNaN
                 | Ok _ =>
                     match write_error X (add_request url 40 w1) p with
                     | Some _ => VNaN
                     | None => VStr p
                     end
                 end
             end).
Proof.
  intros Hp. destruct (path_exists p w1) eqn:Hex.
  - by rewrite (save_img_cached col row i w w1 p Hp Hex).
  - rewrite (save_img_absent col row i w w1 p Hp Hex).
    destruct (getitem row col) as [url|e]; [|done].
    destruct (http_image X (requests w1) url 40) as [img|e]; [|done].
    by destruct (write_error X (add_request url 40 w1) p).
Qed.

(** A unit that has returned its path returns it again, and changes
    nothing, on every later disk. *)
Lemma save_img_again (col : string) (row : Series) (i : Z) (w w' w2 : world)
    (p : string) :
  save_img K X col row i w = (Ok (VStr p), w') →
  disk_grows w' w2 →
  save_img K X col row i w2 = (Ok (VStr p), w2).
Proof.
  intros H Hg. apply save_img_spec in H as (_ & q & w1 & Hq & Hg1 & Hv).
  destruct Hv as [?|[[= <-] Hex]]; [done|].
  pose proof Hq as Hok.
  apply img_path_from_row_ok in Hok as (sp & c & s9 & Hsp & Hc & H9 & Ep & Hd).
  cbv zeta in Hd.
  assert (Hdir : path_exists
                   (IMGDIR_PATH K +:+ replace " " (DIRNAME_DELIM K) sp) w2
                 = true).
  { apply (path_exists_grows _ w1); [by eapply disk_grows_trans|].
    destruct Hd as [[Hd ->]|(_ & _ & ->)]; [done|apply path_exists_add_dir]. }
  destruct (img_path_from_row_run K X row i "identifier" w2 sp c s9 Hsp Hc H9)
    as [Hrun _].
  specialize (Hrun Hdir). rewrite <- Ep in Hrun.
  apply save_img_cached; [done|]. by apply (path_exists_grows _ w').
Qed.

End FetchUnit.

(** ** The pool: every unit runs once, and its future is its own *)

Section Pool.
Context (K : Constants) (X : Externals).

Lemma completion_order_NoDup (sched : list nat) (n : nat) :
  NoDup (completion_order sched n).
Proof.
  unfold completion_order. apply NoDup_app. split; [apply NoDup_remove_dups|].
  split.
  - intros pos Hin Hin'. apply list_elem_of_difference in Hin' as [_ Hn]. done.
  - apply NoDup_list_difference, NoDup_seq.
Qed.

Lemma completion_order_elem (sched : list nat) (n pos : nat) :
  pos ∈ completion_order sched n ↔ pos < n.
Proof.
  unfold completion_order.
  rewrite elem_of_app, list_elem_of_difference, elem_of_remove_dups,
    elem_of_seq, list_elem_of_In, filter_In, Nat.ltb_lt, <- list_elem_of_In.
  split; [intros [[_ ?]|[? _]]; lia|]. intros Hlt.
  destruct (decide (pos ∈ sched)); [left; done|right].
  split; [lia|]. tauto.
Qed.

Lemma filter_all {A} (f : A → bool) (l : list A) :
  (∀ x, x ∈ l → f x = true) → List.filter f l = l.
Proof.
  induction l as [|x l IH]; intros H; [done|]. simpl.
  rewrite (H x) by left. f_equal. apply IH. intros y Hy. apply H. by right.
Qed.

Lemma remove_dups_NoDup {A} `{EqDecision A} (l : list A) :
  NoDup l → remove_dups l = l.
Proof.
  induction 1 as [|x l Hx Hl IH]; [done|]. simpl.
  case_decide; [done|]. by rewrite IH.
Qed.

Lemma list_difference_all {A} `{EqDecision A} (l k : list A) :
  (∀ x, x ∈ l → x ∈ k) → list_difference l k = [].
Proof.
  induction l as [|x l IH]; intros H; [done|]. simpl.
  case_decide as Hx; [|destruct Hx; apply H; left].
  apply IH. intros y Hy. apply H. by right.
Qed.

(** Every order of the units is the completion order of some schedule:
    of itself. *)
Lemma completion_order_any (sched : list nat) (n : nat) :
  sched ≡ₚ seq 0 n → completion_order sched n = sched.
Proof.
  intros Hperm. unfold completion_order.
  assert (Hall : ∀ i, i ∈ sched ↔ i < n).
  { intros i. rewrite Hperm, elem_of_seq. lia. }
  assert (Hnd : NoDup sched) by (rewrite Hperm; apply NoDup_seq).
  rewrite filter_all by (intros i Hi; apply Nat.ltb_lt, Hall, Hi).
  rewrite remove_dups_NoDup by done.
  rewrite list_difference_all; [apply app_nil_r|].
  intros i Hi. apply Hall. apply elem_of_seq in Hi. lia.
Qed.

(** The units of a list of positions without repetition, run one after
    the other: the disk grows, the futures of the other positions are
    untouched, and the future of each position holds what [save_img]
    returned for the row at that position. *)
Lemma run_units_spec (col : string) (df : DataFrame) (ord : list nat) :
  ∀ (futs : list Future) (w : world) (futs' : list Future) (w' : world),
    fold_left (run_unit K X col df) ord (futs, w) = (futs', w') →
    NoDup ord →
    (∀ pos, pos ∈ ord → pos < length futs) →
    disk_grows w w'
    ∧ length futs' = length futs
    ∧ (∀ pos, pos ∉ ord → futs' !! pos = futs !! pos)
    ∧ (∀ pos i row, pos ∈ ord → df !! pos = Some (i, row) →
         ∃ wb wa r,
           save_img K X col row i wb = (r, wa)
           ∧ disk_grows w wb ∧ disk_grows wa w'
           ∧ futs' !! pos = Some (Some r)).
Proof.
  induction ord as [|pos0 ord IH]; intros futs w futs' w' Hrun Hnd Hlt.
  - simpl in Hrun. injection Hrun as <- <-.
    split; [apply disk_grows_refl|]. split; [done|]. split; [done|].
    intros pos i row Hin. by apply elem_of_nil in Hin.
  - apply NoDup_cons in Hnd as [Hpos0 Hnd]. cbn [fold_left] in Hrun.
    destruct (run_unit K X col df (futs, w) pos0) as [futs1 w1] eqn:Hstep.
    assert (Hlt1 : length futs1 = length futs
                   ∧ disk_grows w w1
                   ∧ (∀ pos, pos ≠ pos0 → futs1 !! pos = futs !! pos)
                   ∧ (∀ i row, df !! pos0 = Some (i, row) →
                        ∃ r, save_img K X col row i w = (r, w1)
                             ∧ futs1 !! pos0 = Some (Some r))).
    { unfold run_unit in Hstep. destruct (df !! pos0) as [[i row]|] eqn:Hdf.
      - destruct (save_img K X col row i w) as [r wa] eqn:Hs.
        injection Hstep as <- <-. split; [apply length_insert|].
        split; [by apply (save_img_spec K X col row i w wa r)|].
        split; [intros pos Hne; by apply list_lookup_insert_ne|].
        intros i' row' [= <- <-]. exists r. split; [done|].
        apply list_lookup_insert_eq. apply Hlt. left.
      - injection Hstep as <- <-. split; [done|].
        split; [apply disk_grows_refl|]. split; [done|]. done. }
    destruct Hlt1 as (Hlen1 & Hg1 & Hother1 & Hown1).
    destruct (IH futs1 w1 futs' w' Hrun Hnd) as (Hg & Hlen & Hother & Hown).
    { intros pos Hin. rewrite Hlen1. apply Hlt. by right. }
    split; [by eapply disk_grows_trans|]. split; [congruence|]. split.
    + intros pos Hnot. apply not_elem_of_cons in Hnot as [Hne Hnot].
      rewrite Hother by done. by apply Hother1.
    + intros pos i row Hin Hdf. apply elem_of_cons in Hin as [->|Hin].
      * destruct (Hown1 i row Hdf) as (r & Hs & Hf).
        exists w, w1, r. split; [done|]. split; [apply disk_grows_refl|].
        split; [done|]. rewrite Hother by done. done.
      * destruct (Hown pos i row Hin Hdf) as (wb & wa & r & Hs & Hgb & Hga & Hf).
        exists wb, wa, r. split; [done|].
        split; [by eapply disk_grows_trans|]. done.
Qed.

(** After the wait every row has its settled future. *)
Lemma submit_and_wait_spec (col : string) (df : DataFrame) (sched : list nat)
    (w : world) :
  ∃ (futs : list Future) (w' : world),
    submit_and_wait K X col df sched w = (Ok futs, w')
    ∧ disk_grows w w'
    ∧ length futs = length df
    ∧ ∀ pos i row, df !! pos = Some (i, row) →
        ∃ wb wa r,
          save_img K X col row i wb = (r, wa)
          ∧ disk_grows w wb ∧ disk_grows wa w'
          ∧ futs !! pos = Some (Some r).
Proof.
  unfold submit_and_wait.
  destruct (fold_left (run_unit K X col df)
              (completion_order sched (length df))
              (repeat None (length df), w)) as [futs w'] eqn:Hrun.
  exists futs, w'. split; [done|].
  apply run_units_spec in Hrun as (Hg & Hlen & _ & Hown).
  - rewrite repeat_length in Hlen. split; [done|]. split; [done|].
    intros pos i row Hdf. apply (Hown pos i row); [|done].
    apply completion_order_elem. by eapply lookup_lt_Some.
  - apply completion_order_NoDup.
  - intros pos Hin. rewrite repeat_length. by apply completion_order_elem in Hin.
Qed.

(** The future of a unit holds what [save_img] returned for its row in
    the world that the units completed before it had left. *)
Lemma run_units_at (col : string) (df : DataFrame) (pre post : list nat)
    (pos : nat) (i : Z) (row : Series) (futs : list Future) (w : world) :
  NoDup (pre ++ pos :: post) →
  (∀ q, q ∈ pre ++ pos :: post → q < length futs) →
  df !! pos = Some (i, row) →
  fst (fold_left (run_unit K X col df) (pre ++ pos :: post) (futs, w)) !! pos
  = Some (Some (fst (save_img K X col row i
                       (snd (fold_left (run_unit K X col df) pre
                               (futs, w)))))).
Proof.
  intros Hnd Hlt Hdf. rewrite fold_left_app.
  destruct (fold_left (run_unit K X col df) pre (futs, w)) as [futs1 wb]
    eqn:Hpre.
  apply NoDup_app in Hnd as (Hndpre & _ & Hnd2).
  apply NoDup_cons in Hnd2 as [Hpos Hndpost].
  apply run_units_spec in Hpre as (_ & Hlen1 & _ & _);
    [|done|intros q Hq; apply Hlt; set_solver].
  cbn [fold_left snd].
  destruct (run_unit K X col df (futs1, wb) pos) as [futs2 wa] eqn:Hstep.
  unfold run_unit in Hstep. rewrite Hdf in Hstep.
  destruct (save_img K X col row i wb) as [r wa'] eqn:Hs.
  injection Hstep as <- <-.
  destruct (fold_left (run_unit K X col df) post
              (<[pos := Some r]> futs1, wa')) as [futs' w'] eqn:Hpost.
  apply run_units_spec in Hpost as (_ & _ & Hother & _); [|done|].
  - simpl. rewrite Hother by done. apply list_lookup_insert_eq.
    pose proof (Hlt pos ltac:(set_solver)). unfold Future in *. lia.
  - intros q Hq. rewrite length_insert.
    pose proof (Hlt q ltac:(set_solver)). unfold Future in *. lia.
Qed.

(** After the wait the future of a row holds what its unit returned in
    the world that the units completed before it had left. *)
Lemma submit_and_wait_at (col : string) (df : DataFrame) (sched : list nat)
    (w : world) :
  ∃ (futs : list Future) (w1 : world),
    submit_and_wait K X col df sched w = (Ok futs, w1)
    ∧ length futs = length df
    ∧ ∀ pos i row, df !! pos = Some (i, row) →
        ∃ pre post,
          completion_order sched (length df) = pre ++ pos :: post
          ∧ futs !! pos
            = Some (Some (fst (save_img K X col row i
                                 (snd (fold_left (run_unit K X col df) pre
                                         (repeat None (length df), w)))))).
Proof.
  destruct (submit_and_wait_spec col df sched w)
    as (futs & w1 & Hrun & _ & Hlen & _).
  exists futs, w1. split; [done|]. split; [done|].
  intros pos i row Hdf.
  assert (Hin : pos ∈ completion_order sched (length df)).
  { apply completion_order_elem. by eapply lookup_lt_Some. }
  apply list_elem_of_split in Hin as (pre & post & Hord).
  exists pre, post. split; [done|].
  assert (futs = fst (fold_left (run_unit K X col df)
                        (completion_order sched (length df))
                        (repeat None (length df), w))) as ->.
  { unfold submit_and_wait in Hrun.
    destruct (fold_left _ _ _) as [f w']. by injection Hrun as <- _. }
  rewrite Hord. apply run_units_at; [| |done].
  - rewrite <- Hord. apply completion_order_NoDup.
  - intros q Hq. rewrite <- Hord in Hq. rewrite repeat_length.
    by apply completion_order_elem in Hq.
Qed.

End Pool.

(** ** Reading the futures in submission order *)

Section Collect.
Context (K : Constants) (X : Externals).

Lemma setitem_middle {A} (done rest : list A) (old x : A) :
  setitem (done ++ old :: rest) (Z.of_nat (length done)) x
  = Ok (done ++ x :: rest).
Proof.
  unfold setitem. rewrite length_app. simpl length.
  destruct (Z.ltb_spec (Z.of_nat (length done)) 0); [lia|].
  destruct (Z.leb_spec 0 (Z.of_nat (length done))); [|lia].
  destruct (Z.ltb_spec (Z.of_nat (length done))
              (Z.of_nat (length done + S (length rest)))); [|lia].
  simpl. rewrite Nat2Z.id. f_equal.
  rewrite insert_app_r_alt by lia. by rewrite Nat.sub_diag.
Qed.

(** The loop [for i, ft in enumerate(futures): paths[i] = ft.result()],
    started at position [k] with [done] already written. *)
Lemma collect_inv (futs : list Future) :
  ∀ (k : nat) (done rest : list value) (w w' : world) (paths : list value),
    length done = k → length rest = length futs →
    for_each (fun paths '(i, ft) =>
                r ← future_result ft;
                lift (setitem paths (Z.of_nat i) r))
      (done ++ rest) (imap (fun i x => (k + i, x)) futs) w = (Ok paths, w') →
    w' = w
    ∧ ∃ vs, Forall2 (fun ft v => ft = Some (Ok v)) futs vs
            ∧ paths = done ++ vs.
Proof.
  induction futs as [|ft futs IH]; intros k done rest w w' paths Hk Hrest H.
  - destruct rest; [|done]. simpl in H. injection H as <- <-.
    split; [done|]. exists []. split; [constructor|done].
  - destruct rest as [|old rest]; [done|]. simpl in Hrest.
    simpl in H. unfold_monad.
    destruct ft as [[v|e]|]; simpl in H; try done.
    rewrite Nat.add_0_r, <- Hk, setitem_middle in H.
    replace (done ++ v :: rest) with ((done ++ [v]) ++ rest) in H
      by (by rewrite <- app_assoc).
    rewrite (imap_ext _ (fun i x => (S k + i, x))) in H.
    2:{ intros i x _. simpl. f_equal. lia. }
    apply IH in H as (-> & vs & Hvs & ->).
    + split; [done|]. exists (v :: vs). split; [by constructor|].
      by rewrite <- app_assoc.
    + rewrite length_app. simpl. lia.
    + lia.
Qed.

Lemma collect_ok (futs : list Future) (vs : list value) :
  Forall2 (fun ft v => ft = Some (Ok v)) futs vs →
  ∀ (k : nat) (done rest : list value) (w : world),
    length done = k → length rest = length futs →
    for_each (fun paths '(i, ft) =>
                r ← future_result ft;
                lift (setitem paths (Z.of_nat i) r))
      (done ++ rest) (imap (fun i x => (k + i, x)) futs) w
    = (Ok (done ++ vs), w).
Proof.
  induction 1 as [|ft v futs vs -> _ IH]; intros k done rest w Hk Hrest.
  - destruct rest; [|done]. done.
  - destruct rest as [|old rest]; [done|]. simpl in Hrest.
    simpl. unfold_monad. simpl.
    rewrite Nat.add_0_r, <- Hk, setitem_middle.
    replace (done ++ v :: rest) with ((done ++ [v]) ++ rest)
      by (by rewrite <- app_assoc).
    rewrite (imap_ext _ (fun i x => (S (length done) + i, x))).
    2:{ intros i x _. simpl. f_equal. lia. }
    rewrite IH; [by rewrite <- app_assoc| |lia].
    rewrite length_app. simpl. lia.
Qed.

(** The loop that reads the futures stops at the first one that holds an
    exception, and raises it. *)
Lemma collect_raise (futs : list Future) :
  ∀ (k : nat) (done rest : list value) (w w' : world) (e : exn),
    length done = k → length rest = length futs →
    for_each (fun paths '(i, ft) =>
                r ← future_result ft;
                lift (setitem paths (Z.of_nat i) r))
      (done ++ rest) (imap (fun i x => (k + i, x)) futs) w = (Raise e, w') →
    w' = w
    ∧ ∃ pos, futs !! pos = Some (Some (Raise e))
             ∨ (futs !! pos = Some None ∧ e = OtherException).
Proof.
  induction futs as [|ft futs IH]; intros k done rest w w' e Hk Hrest H.
  - destruct rest; [|done]. simpl in H. done.
  - destruct rest as [|old rest]; [done|]. simpl in Hrest.
    simpl in H. unfold_monad.
    destruct ft as [[v|e']|]; simpl in H.
    + rewrite Nat.add_0_r, <- Hk, setitem_middle in H.
      replace (done ++ v :: rest) with ((done ++ [v]) ++ rest) in H
        by (by rewrite <- app_assoc).
      rewrite (imap_ext _ (fun i x => (S k + i, x))) in H.
      2:{ intros i x _. simpl. f_equal. lia. }
      apply IH in H as (-> & pos & Hpos).
      * split; [done|]. by exists (S pos).
      * rewrite length_app. simpl. lia.
      * lia.
    + injection H as <- <-. split; [done|]. exists 0. by left.
    + injection H as <- <-. split; [done|]. exists 0. by right.
Qed.

(** When [fetch_paths] returns, the entry of [paths] at a position is what
    the unit of the row at that position returned. *)
Lemma fetch_paths_ok (col : string) (df : DataFrame) (sched : list nat)
    (w w' : world) (paths : list value) :
  fetch_paths K X df col sched w = (Ok paths, w') →
  disk_grows w w'
  ∧ length paths = length df
  ∧ ∀ pos i row, df !! pos = Some (i, row) →
      ∃ wb wa v,
        save_img K X col row i wb = (Ok v, wa)
        ∧ disk_grows w wb ∧ disk_grows wa w'
        ∧ paths !! pos = Some v.
Proof.
  unfold fetch_paths. intros H.
  unfold mbind at 1 in H. unfold M_bind at 1 in H.
  destruct (submit_and_wait_spec K X col df sched w)
    as (futs & w1 & Hrun & Hg & Hlen & Hown).
  rewrite Hrun in H.
  apply (collect_inv futs 0 [] (full_nan (length df))) in H
    as (-> & vs & Hvs & ->);
    [|done|unfold full_nan; rewrite repeat_length; congruence].
  change ([] ++ vs) with vs. split; [done|]. split.
  { apply Forall2_length in Hvs. exact (eq_trans (eq_sym Hvs) Hlen). }
  intros pos i row Hdf.
  destruct (Hown pos i row Hdf) as (wb & wa & r & Hs & Hgb & Hga & Hf).
  destruct (Forall2_lookup_l _ _ _ _ _ Hvs Hf) as (v & Hv & [= ->]).
  exists wb, wa, v. done.
Qed.

(** [fetch_paths] returns when no unit raises. *)
Lemma fetch_paths_returns (col : string) (df : DataFrame) (sched : list nat)
    (w : world) :
  (∀ pos i row wb, df !! pos = Some (i, row) →
     ∃ v, fst (save_img K X col row i wb) = Ok v) →
  ∃ paths w', fetch_paths K X df col sched w = (Ok paths, w').
Proof.
  intros Hall. unfold fetch_paths.
  unfold mbind at 1. unfold M_bind at 1.
  destruct (submit_and_wait_spec K X col df sched w)
    as (futs & w1 & Hrun & Hg & Hlen & Hown).
  rewrite Hrun.
  assert (Hvs : ∃ vs, Forall2 (fun ft v => ft = Some (Ok v)) futs vs).
  { assert (Hf : Forall (fun ft => ∃ v, ft = Some (Ok v)) futs).
    { apply Forall_lookup. intros pos ft Hft.
      destruct (df !! pos) as [[i row]|] eqn:Hdf.
      - destruct (Hown pos i row Hdf) as (wb & wa & r & Hs & _ & _ & Hf).
        destruct (Hall pos i row wb Hdf) as [v Hv].
        rewrite Hs in Hv. simpl in Hv. subst r.
        exists v. pose proof (eq_trans (eq_sym Hft) Hf) as [= ->]. done.
      - apply lookup_lt_Some in Hft. apply lookup_ge_None in Hdf.
        unfold Future in *. lia. }
    clear -Hf. induction Hf as [|ft futs [v ->] _ [vs IH]].
    - exists []. constructor.
    - exists (v :: vs). by constructor. }
  destruct Hvs as [vs Hvs]. exists vs, w1.
  apply (collect_ok futs vs Hvs 0 [] (full_nan (length df)));
    [done|unfold full_nan; rewrite repeat_length; congruence].
Qed.

End Collect.

(** ** Writing a column and dropping the rows without a value *)

Section Frames.

Lemma getitem_setcell (row : Series) (label : string) (v : value) :
  getitem (setcell row label v) label = Ok v.
Proof.
  induction row as [|[k x] row IH]; simpl.
  - by rewrite String.eqb_refl.
  - destruct (String.eqb k label) eqn:E; simpl; rewrite E; done.
Qed.

Lemma getitem_setcell_ne (row : Series) (label other : string) (v : value) :
  other ≠ label → getitem (setcell row label v) other = getitem row other.
Proof.
  intros Hne. induction row as [|[k x] row IH]; simpl.
  - by rewrite (proj2 (String.eqb_neq label other)).
  - destruct (String.eqb_spec k label) as [->|Hk]; simpl.
    + by rewrite (proj2 (String.eqb_neq label other)).
    + by rewrite IH.
Qed.

Lemma setcolumn_lookup (df : DataFrame) (label : string) (vs : list value)
    (pos : nat) (i : Z) (row : Series) (v : value) :
  df !! pos = Some (i, row) → vs !! pos = Some v →
  setcolumn df label vs !! pos = Some (i, setcell row label v).
Proof.
  revert vs pos. induction df as [|[j r] df IH]; intros [|x vs] [|pos] Hdf Hv;
    simpl in *; try done.
  - by injection Hdf as -> ->; injection Hv as ->.
  - by apply IH.
Qed.

Lemma setcolumn_labels (df : DataFrame) (label : string) (vs : list value) :
  length vs = length df → map fst (setcolumn df label vs) = map fst df.
Proof.
  revert vs. induction df as [|[j r] df IH]; intros [|x vs] Hlen;
    simpl in *; try done.
  f_equal. apply IH. lia.
Qed.

(** Dropping after writing the column keeps, in order, the rows whose
    value is not missing, each with its own value written. *)
Lemma dropna_setcolumn (df : DataFrame) (label : string) (vs : list value) :
  length vs = length df →
  dropna (setcolumn df label vs) label
  = omap (fun '(ir, v) =>
            if isna v then None else Some (fst ir, setcell (snd ir) label v))
      (zip df vs).
Proof.
  revert vs. induction df as [|[j r] df IH]; intros [|x vs] Hlen;
    simpl in *; try done.
  unfold dropna in *. simpl. unfold notna_at at 1. simpl.
  rewrite getitem_setcell. destruct (isna x); simpl.
  - apply IH. lia.
  - f_equal. apply IH. lia.
Qed.

Lemma dropna_sublist (df : DataFrame) (label : string) :
  map fst (dropna df label) `sublist_of` map fst df.
Proof.
  unfold dropna. induction df as [|ir df IH]; simpl; [constructor|].
  destruct (notna_at label ir); simpl; by constructor.
Qed.

End Frames.

(** ** Results are written back by submission index *)

Section WriteBack.
Context (K : Constants) (X : Externals).

(** [fetch_images] after the pool phase. *)
Lemma fetch_images_unfold
    (create_augmented_df : FeatureExtractor → DataFrame → string → M DataFrame)
    (self : Database) (df : DataFrame) (col : string) (sched : list nat)
    (w : world) :
  fetch_images K X create_augmented_df self df col sched w
  = match fetch_paths K X df col sched w with
    | (Ok paths, w1) =>
        (df2 ← create_augmented_df (ft_extractor self)
                 (dropna (setcolumn df "path" paths) "path") (degrees self);
         log_record (repr_df X df2);;
         to_csv X df2 (DATASET_PATH K);;
         mret df2) w1
    | (Raise e, w1) => (Raise e, w1)
    end.
Proof.
  unfold fetch_images. unfold mbind at 1. unfold M_bind at 1.
  by destruct (fetch_paths K X df col sched w) as [[paths|e] w1].
Qed.

(** The rows that stay after the drop have a path that exists on disk. *)
Lemma accepted_paths_exist (col : string) (df : DataFrame) (sched : list nat)
    (w w1 : world) (paths : list value) :
  fetch_paths K X df col sched w = (Ok paths, w1) →
  Forall (fun ir : Z * Series =>
            ∃ p, getitem (snd ir) "path" = Ok (VStr p)
                 ∧ path_exists p w1 = true)
    (dropna (setcolumn df "path" paths) "path").
Proof.
  intros Hrun. apply fetch_paths_ok in Hrun as (_ & Hlen & Hown).
  rewrite dropna_setcolumn by done.
  apply Forall_forall. intros ir Hir.
  apply list_elem_of_omap in Hir as ([[i row] v] & Hin & Hsome).
  apply list_elem_of_lookup in Hin as [pos Hpos].
  apply lookup_zip_with_Some in Hpos as (ir0 & v0 & [= <- <-] & Hdf & Hv).
  destruct (Hown pos i row Hdf) as (wb & wa & v' & Hs & _ & Hga & Hv').
  rewrite Hv in Hv'. injection Hv' as <-.
  apply save_img_spec in Hs as (_ & p & w2 & _ & _ & [->|[-> Hex]]); [done|].
  simpl in Hsome. injection Hsome as <-. exists p. simpl.
  rewrite getitem_setcell. split; [done|]. by apply (path_exists_grows _ wa).
Qed.


End WriteBack.


(** ** Fetching again *)

Section Idempotence.
Context (K : Constants) (X : Externals).

(** Units that return without changing the world: the pool leaves the
    world as it is and every future holds the value of its row. *)
Lemma run_units_fixed (col : string) (df : DataFrame) (w : world)
    (vs : list value) (ord : list nat) :
  (∀ pos i row, df !! pos = Some (i, row) →
     ∃ v, save_img K X col row i w = (Ok v, w) ∧ vs !! pos = Some v) →
  ∀ futs : list Future,
    NoDup ord →
    (∀ pos, pos ∈ ord → pos < length futs) →
    ∃ futs',
      fold_left (run_unit K X col df) ord (futs, w) = (futs', w)
      ∧ length futs' = length futs
      ∧ (∀ pos, pos ∉ ord → futs' !! pos = futs !! pos)
      ∧ (∀ pos i row, pos ∈ ord → df !! pos = Some (i, row) →
           ∃ v, vs !! pos = Some v ∧ futs' !! pos = Some (Some (Ok v))).
Proof.
  intros Hfix. induction ord as [|pos0 ord IH]; intros futs Hnd Hlt.
  - exists futs. split; [done|]. split; [done|]. split; [done|].
    intros pos i row Hin. by apply elem_of_nil in Hin.
  - apply NoDup_cons in Hnd as [Hpos0 Hnd]. cbn [fold_left].
    assert (Hstep : ∃ futs1,
              run_unit K X col df (futs, w) pos0 = (futs1, w)
              ∧ length futs1 = length futs
              ∧ (∀ pos, pos ≠ pos0 → futs1 !! pos = futs !! pos)
              ∧ (∀ i row, df !! pos0 = Some (i, row) →
                   ∃ v, vs !! pos0 = Some v
                        ∧ futs1 !! pos0 = Some (Some (Ok v)))).
    { unfold run_unit. destruct (df !! pos0) as [[i row]|] eqn:Hdf.
      - destruct (Hfix pos0 i row Hdf) as (v & -> & Hv).
        eexists. split; [reflexivity|]. split; [apply length_insert|].
        split; [intros pos Hne; by apply list_lookup_insert_ne|].
        intros i' row' _. exists v. split; [done|].
        apply list_lookup_insert_eq. apply Hlt. left.
      - exists futs. done. }
    destruct Hstep as (futs1 & -> & Hlen1 & Hother1 & Hown1).
    destruct (IH futs1 Hnd) as (futs' & Hrun & Hlen & Hother & Hown).
    { intros pos Hin. rewrite Hlen1. apply Hlt. by right. }
    exists futs'. split; [done|]. split; [congruence|]. split.
    + intros pos Hnot. apply not_elem_of_cons in Hnot as [Hne Hnot].
      rewrite Hother by done. by apply Hother1.
    + intros pos i row Hin Hdf. apply elem_of_cons in Hin as [->|Hin].
      * destruct (Hown1 i row Hdf) as (v & Hv & Hf). exists v.
        split; [done|]. by rewrite Hother.
      * by apply (Hown pos i row).
Qed.

Lemma fetch_paths_fixed (col : string) (df : DataFrame) (sched : list nat)
    (w : world) (vs : list value) :
  length vs = length df →
  (∀ pos i row, df !! pos = Some (i, row) →
     ∃ v, save_img K X col row i w = (Ok v, w) ∧ vs !! pos = Some v) →
  fetch_paths K X df col sched w = (Ok vs, w).
Proof.
  intros Hlen Hfix. unfold fetch_paths.
  unfold mbind at 1. unfold M_bind at 1. unfold submit_and_wait.
  destruct (run_units_fixed col df w vs
              (completion_order sched (length df)) Hfix
              (repeat None (length df)))
    as (futs & Hfold & Hlenf & _ & Hown).
  { apply completion_order_NoDup. }
  { intros pos Hin. rewrite repeat_length.
    by apply completion_order_elem in Hin. }
  unfold Future in *. rewrite Hfold.
  rewrite repeat_length in Hlenf.
  assert (Hvs : Forall2 (fun ft v => ft = Some (Ok v)) futs vs).
  { apply Forall2_same_length_lookup_2; [congruence|].
    intros pos ft v Hft Hv.
    destruct (df !! pos) as [[i row]|] eqn:Hdf.
    - destruct (Hown pos i row) as (v' & Hv' & Hf'); [|done|].
      + apply completion_order_elem. by eapply lookup_lt_Some.
      + pose proof (eq_trans (eq_sym Hft) Hf') as [= ->]. congruence.
    - apply lookup_lt_Some in Hv. apply lookup_ge_None in Hdf. lia. }
  apply (collect_ok futs vs Hvs 0 [] (full_nan (length df)) w); [done|].
  unfold full_nan. rewrite repeat_length. symmetry. exact Hlenf.
Qed.

(** A unit that raises while it computes its path leaves the world as
    that computation left it. *)
Lemma save_img_path_raise (col : string) (row : Series) (i : Z)
    (w w1 : world) (e : exn) :
  img_path_from_row K X row i "identifier" None w = (Raise e, w1) →
  save_img K X col row i w = (Raise e, w1).
Proof.
  intros Hp. unfold save_img. unfold mbind at 1. unfold M_bind at 1.
  by rewrite Hp.
Qed.

(** A property of the world that every unit keeps is kept by the pool. *)
Lemma run_units_keep (P : world → Prop) (col : string) (df : DataFrame)
    (ord : list nat) :
  (∀ pos i row w, df !! pos = Some (i, row) → P w →
     P (snd (save_img K X col row i w))) →
  ∀ (futs : list Future) (w : world),
    P w → P (snd (fold_left (run_unit K X col df) ord (futs, w))).
Proof.
  intros Hkeep. induction ord as [|pos ord IH]; intros futs w Hw; [done|].
  cbn [fold_left].
  destruct (run_unit K X col df (futs, w) pos) as [futs1 w1] eqn:Hstep.
  apply IH. unfold run_unit in Hstep.
  destruct (df !! pos) as [[i row]|] eqn:Hdf.
  - specialize (Hkeep pos i row w Hdf Hw).
    destruct (save_img K X col row i w) as [r wa].
    injection Hstep as <- <-. done.
  - injection Hstep as <- <-. done.
Qed.

(** Reading the futures does not touch the world. *)
Lemma collect_world (items : list (nat * Future)) :
  ∀ (acc : list value) (w : world),
    snd (for_each (fun paths '(i, ft) =>
                     r ← future_result ft;
                     lift (setitem paths (Z.of_nat i) r))
           acc items w) = w.
Proof.
  induction items as [|[i ft] items IH]; intros acc w; [done|].
  cbn [for_each]. unfold mbind at 1. unfold M_bind at 1.
  unfold_monad. destruct ft as [[v|e]|]; simpl; try done.
  destruct (setitem acc (Z.of_nat i) v) as [acc'|e]; [|done]. apply IH.
Qed.

Lemma fetch_paths_world (col : string) (df : DataFrame) (sched : list nat)
    (w : world) :
  snd (fetch_paths K X df col sched w)
  = snd (fold_left (run_unit K X col df) (completion_order sched (length df))
           (repeat None (length df), w)).
Proof.
  unfold fetch_paths, submit_and_wait.
  unfold mbind at 1. unfold M_bind at 1.
  destruct (fold_left _ _ _) as [futs w1]. cbv beta iota.
  apply collect_world.
Qed.

(** C1. A unit whose path exists on disk makes no network call, writes no
    file and returns that path.  Hence, after a run of [fetch_paths] that
    returned a path for every record, a second run on the same manifest,
    in any completion order, returns the same values and leaves the world,
    and with it the record of network calls, untouched.  More generally, a
    run on a disk where the path of every record exists makes no network
    call and writes no file, however it ends, and what it returns are
    these paths. *)
Theorem fetch_is_idempotent (col : string) :
  (∀ row i w p w1,
     img_path_from_row K X row i "identifier" None w = (Ok p, w1) →
     path_exists p w = true →
     save_img K X col row i w = (Ok (VStr p), w1)
     ∧ requests w1 = requests w ∧ files w1 = files w)
  ∧ (∀ df sched1 sched2 w0 w1 paths,
       fetch_paths K X df col sched1 w0 = (Ok paths, w1) →
       Forall (fun v => isna v = false) paths →
       fetch_paths K X df col sched2 w1 = (Ok paths, w1)
       ∧ requests (snd (fetch_paths K X df col sched2 w1)) = requests w1)
  ∧ (∀ df sched w,
       (∀ pos i row w0 p,
          df !! pos = Some (i, row) →
          fst (img_path_from_row K X row i "identifier" None w0) = Ok p →
          path_exists p w = true) →
       requests (snd (fetch_paths K X df col sched w)) = requests w
       ∧ files (snd (fetch_paths K X df col sched w)) = files w
       ∧ ∀ paths w',
           fetch_paths K X df col sched w = (Ok paths, w') →
           ∀ pos i row, df !! pos = Some (i, row) →
             ∃ p w0,
               fst (img_path_from_row K X row i "identifier" None w0) = Ok p
               ∧ paths !! pos = Some (VStr p)).
Proof.
  assert (Hunit : ∀ row i w p w1,
            img_path_from_row K X row i "identifier" None w = (Ok p, w1) →
            path_exists p w = true →
            save_img K X col row i w = (Ok (VStr p), w1)
            ∧ requests w1 = requests w ∧ files w1 = files w).
  { intros row i w p w1 Hp Hex.
    pose proof (img_path_from_row_grows K X row i "identifier" None w) as Hg.
    pose proof (img_path_from_row_world K X row i "identifier" None w) as Hw.
    rewrite Hp in Hg, Hw. simpl in Hg, Hw. split.
    + apply save_img_cached; [done|]. by apply (path_exists_grows _ w).
    + destruct Hw as [->|(sp & _ & _ & ->)]; done. }
  split; [exact Hunit|]. split.
  - intros df sched1 sched2 w0 w1 paths Hrun Hall.
    assert (Hagain : fetch_paths K X df col sched2 w1 = (Ok paths, w1)).
    { apply fetch_paths_ok in Hrun as (_ & Hlen & Hown).
      apply fetch_paths_fixed; [done|]. intros pos i row Hdf.
      destruct (Hown pos i row Hdf) as (wb & wa & v & Hs & _ & Hga & Hv).
      exists v. split; [|done].
      assert (Hna : isna v = false).
      { rewrite Forall_lookup in Hall. by apply (Hall pos). }
      pose proof Hs as Hs'.
      apply save_img_spec in Hs' as (_ & p & w' & _ & _ & [->|[-> _]]);
        [done|].
      by apply (save_img_again K X col row i wb wa). }
    split; [done|]. by rewrite Hagain.
  - intros df sched w Hall.
    assert (Hkeep : let w' := snd (fetch_paths K X df col sched w) in
                    disk_grows w w' ∧ requests w' = requests w
                    ∧ files w' = files w).
    { cbv zeta. rewrite fetch_paths_world.
      apply (run_units_keep
               (fun w' => disk_grows w w' ∧ requests w' = requests w
                          ∧ files w' = files w)).
      - intros pos i row wc Hdf (Hg & Hreq & Hfiles).
        destruct (img_path_from_row K X row i "identifier" None wc)
          as [[p|e] w1] eqn:Hp.
        + assert (Hex : path_exists p wc = true).
          { apply (path_exists_grows _ w); [done|].
            apply (Hall pos i row wc p Hdf). by rewrite Hp. }
          destruct (Hunit row i wc p w1 Hp Hex) as (-> & Hreq1 & Hfiles1).
          simpl. split; [|split; congruence].
          eapply disk_grows_trans; [exact Hg|].
          pose proof (img_path_from_row_grows K X row i "identifier" None wc)
            as Hg1.
          by rewrite Hp in Hg1.
        + rewrite (save_img_path_raise col row i wc w1 e Hp). simpl.
          pose proof (img_path_from_row_grows K X row i "identifier" None wc)
            as Hg1.
          pose proof (img_path_from_row_world K X row i "identifier" None wc)
            as Hw1.
          rewrite Hp in Hg1, Hw1. simpl in Hg1, Hw1.
          split; [by eapply disk_grows_trans|].
          destruct Hw1 as [->|(sp & _ & _ & ->)]; done.
      - split; [apply disk_grows_refl|done]. }
    cbv zeta in Hkeep. destruct Hkeep as (_ & Hreq & Hfiles).
    split; [done|]. split; [done|].
    intros paths w' Hrun pos i row Hdf.
    apply fetch_paths_ok in Hrun as (_ & _ & Hown).
    destruct (Hown pos i row Hdf) as (wb & wa & v & Hs & Hgb & _ & Hv).
    pose proof Hs as Hs'.
    apply save_img_spec in Hs' as (_ & p & w1 & Hp & _ & _).
    assert (Hex : path_exists p wb = true).
    { apply (path_exists_grows _ w); [done|].
      apply (Hall pos i row wb p Hdf). by rewrite Hp. }
    destruct (Hunit row i wb p w1 Hp Hex) as (Hs2 & _).
    rewrite Hs2 in Hs. injection Hs as <- <-.
    exists p, wb. split; [by rewrite Hp|done].
Qed.

End Idempotence.

(** The theorem at the sample manifest with a network that always
    answers: the second run, in another completion order, returns the
    paths of the first and makes no call. *)
Lemma fetch_is_idempotent_witness :
  let w1 := snd (fetch_paths Samples.K0 Samples.X0 Samples.df3 "identifier"
                   [2; 0] Samples.empty_world) in
  let paths := [VStr "image_db/A/0_0.npy"; VStr "image_db/A/1_0.npy";
                VStr "image_db/B/2_0.npy"] in
  fetch_paths Samples.K0 Samples.X0 Samples.df3 "identifier" [1] w1
  = (Ok paths, w1)
  ∧ requests (snd (fetch_paths Samples.K0 Samples.X0 Samples.df3
                     "identifier" [1] w1)) = requests w1.
Proof.
  intros w1 paths.
  apply (proj1 (proj2 (fetch_is_idempotent Samples.K0 Samples.X0
                         "identifier"))
           Samples.df3 [2; 0] [1] Samples.empty_world w1 paths).
  - vm_compute. reflexivity.
  - repeat constructor.
Defined.

(** ** Failures of single units *)

Section Isolation.
Context (K : Constants) (X : Externals).

(** When [fetch_paths] returns, the entry of [paths] at a position is
    the value of the unit of the row at that position, run after the units
    that completed before it. *)
Lemma fetch_paths_at (col : string) (df : DataFrame) (sched : list nat)
    (w w' : world) (paths : list value) :
  fetch_paths K X df col sched w = (Ok paths, w') →
  ∀ pos i row, df !! pos = Some (i, row) →
    ∃ pre post v,
      completion_order sched (length df) = pre ++ pos :: post
      ∧ fst (save_img K X col row i
               (snd (fold_left (run_unit K X col df) pre
                       (repeat None (length df), w)))) = Ok v
      ∧ paths !! pos = Some v.
Proof.
  intros H pos i row Hdf.
  destruct (submit_and_wait_at K X col df sched w)
    as (futs & w1 & Hrun & Hlen & Hat).
  unfold fetch_paths in H. unfold mbind at 1 in H. unfold M_bind at 1 in H.
  rewrite Hrun in H.
  apply (collect_inv futs 0 [] (full_nan (length df))) in H
    as (-> & vs & Hvs & ->);
    [|done|unfold full_nan; rewrite repeat_length; congruence].
  destruct (Hat pos i row Hdf) as (pre & post & Hord & Hf).
  destruct (Forall2_lookup_l _ _ _ _ _ Hvs Hf) as (v & Hv & [= Hr]).
  exists pre, post, v. done.
Qed.

(** The path of a record can be computed in every world when its three
    cells are strings and the directory of its species can be made. *)
Lemma img_path_from_row_always (row : Series) (i : Z) (w : world)
    (sp c s9 : string) :
  getitem row "species" = Ok (VStr sp) →
  getitem row "identifier" = Ok (VStr c) →
  getpos row 9 = Ok (VStr s9) →
  (∀ w0, makedirs_error X w0
           (IMGDIR_PATH K +:+ replace " " (DIRNAME_DELIM K) sp) = None) →
  ∃ w1, img_path_from_row K X row i "identifier" None w
        = (Ok ((IMGDIR_PATH K +:+ replace " " (DIRNAME_DELIM K) s9
                  +:+ "/" +:+ pretty i) +:+ "_0.npy"), w1).
Proof.
  intros Hsp Hc H9 Hmk.
  destruct (img_path_from_row_run K X row i "identifier" w sp c s9 Hsp Hc H9)
    as [Hex Hnew].
  destruct (path_exists (IMGDIR_PATH K +:+ replace " " (DIRNAME_DELIM K) sp) w)
    eqn:E.
  - eexists. by apply Hex.
  - eexists. by apply Hnew.
Qed.

(** C2, as the code has it.  When the path of every record can be
    computed (the species, the reference and the tenth cell of every row
    are strings, and the directory of its species can be made), the batch
    completes whatever the network and the disk answer inside the units.
    Every record gets the value of its own unit, run in the world that the
    units completed before it had left: its path when the file is there
    already, or when its reference is read, the download returns and the
    write is accepted; the missing value exactly when the file is absent
    and one of these three raises.  A path that is returned exists on disk
    when the batch ends.  The rows with a missing value, and only they,
    are dropped before the augmentation step; the rows that stay keep
    their order, their index labels and their cells, the path of each of
    them exists on disk, and they are what the augmentation step is called
    with. *)
Theorem fetch_failures_are_isolated (col : string) (df : DataFrame)
    (sched : list nat) (w : world) :
  Forall (fun ir : Z * Series =>
            ∃ sp c s9 : string,
              getitem (snd ir) "species" = Ok (VStr sp)
              ∧ getitem (snd ir) "identifier" = Ok (VStr c)
              ∧ getpos (snd ir) 9 = Ok (VStr s9)
              ∧ ∀ w0, makedirs_error X w0
                        (IMGDIR_PATH K +:+ replace " " (DIRNAME_DELIM K) sp)
                      = None) df →
  ∃ paths w',
    fetch_paths K X df col sched w = (Ok paths, w')
    ∧ length paths = length df
    ∧ (∀ pos i row, df !! pos = Some (i, row) →
         ∃ pre post p wb1,
           completion_order sched (length df) = pre ++ pos :: post
           ∧ img_path_from_row K X row i "identifier" None
               (snd (fold_left (run_unit K X col df) pre
                       (repeat None (length df), w))) = (Ok p, wb1)
           ∧ paths !! pos
             = Some (if path_exists p wb1 then VStr p
                     else match getitem row col with
                          | Raise _ => VNaN
                          | Ok url =>
                              match http_image X (requests wb1) url 40 with
                              | Raise _ => VNaN
                              | Ok _ =>
                                  match write_error X
                                          (add_request url 40 wb1) p with
                                  | Some _ => VNaN
                                  | None => VStr p
                                  end
                              end
                          end)
           ∧ (paths !! pos = Some (VStr p) → path_exists p w' = true))
    ∧ let accepted := dropna (setcolumn df "path" paths) "path" in
      accepted
      = omap (fun '(ir, v) =>
                if isna v then None
                else Some (fst ir, setcell (snd ir) "path" v))
          (zip df paths)
      ∧ map fst accepted `sublist_of` map fst df
      ∧ Forall (fun ir : Z * Series =>
                  ∃ p, getitem (snd ir) "path" = Ok (VStr p)
                       ∧ path_exists p w' = true) accepted
      ∧ ∀ create_augmented_df self,
          fetch_images K X create_augmented_df self df col sched w
          = (df2 ← create_augmented_df (ft_extractor self) accepted
                     (degrees self);
             log_record (repr_df X df2);;
             to_csv X df2 (DATASET_PATH K);;
             mret df2) w'.
Proof.
  intros Hrows. rewrite Forall_lookup in Hrows.
  destruct (fetch_paths_returns K X col df sched w) as (paths & w' & Hrun).
  { intros pos i row wb Hdf.
    destruct (Hrows pos (i, row) Hdf) as (sp & c & s9 & Hsp & Hc & H9 & Hmk).
    destruct (img_path_from_row_always row i wb sp c s9 Hsp Hc H9 Hmk)
      as [w1 Hp].
    eexists. by apply (save_img_value K X col row i wb w1). }
  exists paths, w'. split; [done|].
  pose proof (fetch_paths_ok K X col df sched w w' paths Hrun)
    as (_ & Hlen & Hown).
  split; [done|]. split.
  { intros pos i row Hdf.
    destruct (Hrows pos (i, row) Hdf) as (sp & c & s9 & Hsp & Hc & H9 & Hmk).
    destruct (fetch_paths_at col df sched w w' paths Hrun pos i row Hdf)
      as (pre & post & v & Hord & Hv & Hpos).
    destruct (img_path_from_row_always row i
                (snd (fold_left (run_unit K X col df) pre
                        (repeat None (length df), w))) sp c s9 Hsp Hc H9 Hmk)
      as [wb1 Hp].
    eexists pre, post, _, wb1. split; [done|]. split; [exact Hp|].
    rewrite (save_img_value K X col row i _ wb1 _ Hp) in Hv.
    split; [rewrite Hpos; congruence|].
    intros Hstr.
    destruct (Hown pos i row Hdf) as (wb' & wa & v' & Hs & _ & Hga & Hv').
    rewrite Hstr in Hv'. injection Hv' as <-.
    apply save_img_spec in Hs as (_ & q & w2 & Hq & _ & Hcase).
    destruct (img_path_from_row_always row i wb' sp c s9 Hsp Hc H9 Hmk)
      as [w3 Hq'].
    rewrite Hq in Hq'. injection Hq' as -> _.
    destruct Hcase as [?|[_ Hex]]; [done|].
    by apply (path_exists_grows _ wa). }
  cbv zeta. split; [by apply dropna_setcolumn|]. split.
  { pose proof (dropna_sublist (setcolumn df "path" paths) "path") as Hs.
    by rewrite setcolumn_labels in Hs. }
  split; [by eapply accepted_paths_exist|].
  intros aug self. by rewrite fetch_images_unfold, Hrun.
Qed.

End Isolation.

(** The theorem at the sample manifest, whose second reference times
    out: the first and the third record keep their paths, the second is
    dropped. *)
Lemma fetch_failures_are_isolated_witness :
  ∃ paths w',
    fetch_paths Samples.K0 Samples.X1 Samples.df3 "identifier" [2; 0]
      Samples.empty_world = (Ok paths, w')
    ∧ paths = [VStr "image_db/A/0_0.npy"; VNaN; VStr "image_db/B/2_0.npy"]
    ∧ map fst (dropna (setcolumn Samples.df3 "path" paths) "path")
      = [0; 2]%Z
    ∧ Forall (fun ir : Z * Series =>
                ∃ p, getitem (snd ir) "path" = Ok (VStr p)
                     ∧ path_exists p w' = true)
        (dropna (setcolumn Samples.df3 "path" paths) "path").
Proof.
  destruct (fetch_failures_are_isolated Samples.K0 Samples.X1 "identifier"
              Samples.df3 [2; 0] Samples.empty_world)
    as (paths & w' & Hrun & _ & _ & Hacc).
  { repeat (apply Forall_cons; split;
              [eexists _, _, _;
               split; [reflexivity|];
               split; [reflexivity|];
               split; [reflexivity|intros w0; reflexivity]|]).
    apply Forall_nil. done. }
  assert (Hp : paths = [VStr "image_db/A/0_0.npy"; VNaN;
                        VStr "image_db/B/2_0.npy"])
    by (vm_compute in Hrun; congruence).
  exists paths, w'. split; [exact Hrun|]. split; [exact Hp|].
  cbv zeta in Hacc. destruct Hacc as (_ & _ & Hex & _).
  split; [|exact Hex]. rewrite Hp. vm_compute. reflexivity.
Defined.

(** C2, as the specification has it, fails: a unit whose record has no
    species, or no reference, raises while it computes its path, outside
    the guarded part; the exception leaves the unit, and the batch is
    aborted with the two good records lost. *)
Lemma fetch_aborts_on_path_error :
  let good0 := (0%Z, Samples.row_of (VStr "A") (VStr "http://h/a.jpg")) in
  let good2 := (2%Z, Samples.row_of (VStr "B") (VStr "http://h/b.jpg")) in
  let no_species := (1%Z, Samples.row_of VNaN (VStr "http://h/x.jpg")) in
  let no_reference := (1%Z, Samples.row_of (VStr "A") VNaN) in
  fst (save_img Samples.K0 Samples.X0 "identifier" (snd no_species) 1
         Samples.empty_world) = Raise AttributeError
  ∧ fst (fetch_paths Samples.K0 Samples.X0 [good0; no_species; good2]
           "identifier" [] Samples.empty_world) = Raise AttributeError
  ∧ fst (fetch_images Samples.K0 Samples.X0 Samples.no_augmentation
           Samples.db0 [good0; no_species; good2] "identifier" []
           Samples.empty_world) = Raise AttributeError
  ∧ fst (save_img Samples.K0 Samples.X0 "identifier" (snd no_reference) 1
           Samples.empty_world) = Raise AttributeError
  ∧ fst (fetch_images Samples.K0 Samples.X0 Samples.no_augmentation
           Samples.db0 [good0; no_reference; good2] "identifier" []
           Samples.empty_world) = Raise AttributeError.
Proof. vm_compute. repeat split; reflexivity. Qed.

(** ** After the barrier: the call of the augmentation *)

Section Augmentation.
Context (K : Constants) (X : Externals).

(** What a unit leaves on the disk and in the log: the log as it was,
    and no new file but an array. *)
Lemma save_img_effects (col : string) (row : Series) (i : Z) (w : world) :
  let w' := snd (save_img K X col row i w) in
  log w' = log w
  ∧ ∀ q c, files w' !! q = Some c →
      files w !! q = Some c ∨ ∃ arr, c = Npy arr.
Proof.
  pose proof (img_path_from_row_world K X row i "identifier" None w) as Hw.
  destruct (img_path_from_row K X row i "identifier" None w) as [[p|e] w1]
    eqn:Hp; simpl in Hw.
  2:{ rewrite (save_img_path_raise K X col row i w w1 e Hp). simpl.
      destruct Hw as [->|(? & _ & _ & ->)]; simpl; auto. }
  assert (files w1 = files w ∧ log w1 = log w) as [Hf Hl]
    by (by destruct Hw as [->|(? & _ & _ & ->)]).
  destruct (path_exists p w1) eqn:Hex.
  { rewrite (save_img_cached K X col row i w w1 p Hp Hex). simpl.
    rewrite Hf, Hl. auto. }
  rewrite (save_img_absent K X col row i w w1 p Hp Hex).
  destruct (getitem row col) as [url|e]; simpl; [|rewrite Hf, Hl; auto].
  destruct (http_image X (requests w1) url 40) as [img|e]; simpl;
    [|rewrite Hf, Hl; auto].
  destruct (write_error X (add_request url 40 w1) p) as [e|]; simpl;
    rewrite Hf, Hl; [auto|].
  split; [done|]. intros q c. destruct (decide (p = q)) as [->|Hne].
  - rewrite lookup_insert_eq. intros [= <-]. right. eauto.
  - rewrite lookup_insert_ne by done. auto.
Qed.

(** C7.  In the code as it is the call after the barrier fails: the class
    [FeatureExtractor] has no attribute [create_augmented_df], so
    [fetch_images] never returns a manifest.  When the pool phase has
    returned, [fetch_images] raises [AttributeError] in the world that the
    pool phase left: no augmentation has run, nothing is logged, and no
    manifest is written, the only new files being the arrays of the
    units. *)
Theorem fetch_images_stops_before_augmentation (self : Database)
    (df : DataFrame) (col : string) (sched : list nat) (w : world) :
  let run := fetch_images K X FeatureExtractor.create_augmented_df self df
               col sched w in
  (∀ out, fst run ≠ Ok out)
  ∧ (∀ paths, fst (fetch_paths K X df col sched w) = Ok paths →
       fst run = Raise AttributeError)
  ∧ snd run = snd (fetch_paths K X df col sched w)
  ∧ log (snd run) = log w
  ∧ ∀ q c, files (snd run) !! q = Some c →
      files w !! q = Some c ∨ ∃ arr, c = Npy arr.
Proof.
  intros run.
  assert (Hrun : run = (match fst (fetch_paths K X df col sched w) with
                        | Ok _ => Raise AttributeError
                        | Raise e => Raise e
                        end, snd (fetch_paths K X df col sched w))).
  { unfold run. rewrite fetch_images_unfold.
    by destruct (fetch_paths K X df col sched w) as [[paths|e] w1]. }
  rewrite Hrun. cbn [fst snd].
  split; [intros out; by destruct (fst (fetch_paths K X df col sched w))|].
  split; [by intros paths ->|]. split; [done|].
  rewrite fetch_paths_world.
  apply (run_units_keep K X
           (fun w' => log w' = log w
                      ∧ ∀ q c, files w' !! q = Some c →
                          files w !! q = Some c ∨ ∃ arr, c = Npy arr));
    [|auto].
  intros pos i row wc _ [Hl Hf].
  destruct (save_img_effects col row i wc) as [Hl' Hf'].
  split; [congruence|]. intros q c Hq.
  destruct (Hf' q c Hq) as [Hq'|?]; [by apply Hf|by right].
Qed.

End Augmentation.

(** On the sample manifest, whose second reference times out, the two
    arrays are on disk after the run, the run has ended with the
    [AttributeError], the log is empty and there is no manifest file. *)
Example fetch_images_sample_run :
  let run := fetch_images Samples.K0 Samples.X1
               FeatureExtractor.create_augmented_df Samples.db0 Samples.df3
               "identifier" [2; 0] Samples.empty_world in
  fst run = Raise AttributeError
  ∧ map fst (map_to_list (files (snd run)))
    ≡ₚ ["image_db/A/0_0.npy"; "image_db/B/2_0.npy"]
  ∧ log (snd run) = []
  ∧ files (snd run) !! DATASET_PATH Samples.K0 = None.
Proof. vm_compute. repeat split; reflexivity. Qed.

(** ** Augmentation in mode ["all"] *)

Section AugmentAll.
Context (X : Externals).

(** The stem of a file name: what stands before its first dot. *)
Lemma stem_of_name (name : string) :
  ∃ (stem : string) (rest : list string),
    split name "." = Ok (stem :: rest)
    ∧ contains stem "." = false
    ∧ (name = stem ∨ ∃ t, name = stem +:+ String "." t).
Proof.
  destruct (split_go_first "." name "" eq_refl)
    as (stem & rest & E & Hs & Hcut).
  exists stem, rest. simpl. rewrite E. done.
Qed.

(** The stem of the name of a rotated image is that name without
    [".jpg"]. *)
Lemma stem_of_rotated (stem : string) (d : Z) :
  contains stem "." = false →
  ∃ rest, split (stem +:+ "_" +:+ pretty d +:+ ".jpg") "."
          = Ok ((stem +:+ "_" +:+ pretty d) :: rest).
Proof.
  intros Hs. exists ["jpg"]. simpl.
  replace (stem +:+ String "_" (pretty d +:+ ".jpg"))
    with ((stem +:+ "_" +:+ pretty d) +:+ String "." "jpg")
    by (rewrite !append_assoc; reflexivity).
  rewrite split_go_at_sep, split_go_whole.
  - reflexivity.
  - rewrite contains_append, Hs. simpl.
    apply pretty_Z_contains; [apply digit_not_dot|done].
Qed.

(** No derived file takes the place of the original. *)
Lemma original_is_kept (dir name stem sfx : string) :
  contains stem "." = false →
  (name = stem ∨ ∃ t, name = stem +:+ String "." t) →
  dir +:+ "/" +:+ name ≠ dir +:+ "/" +:+ stem +:+ String "_" sfx.
Proof.
  intros Hs Hcut E. apply String.app_inj in E. simpl in E. injection E as E.
  destruct Hcut as [->|[t ->]].
  - apply (f_equal String.length) in E. rewrite append_length in E.
    simpl in E. lia.
  - apply String.app_inj in E. done.
Qed.

Lemma rotate_and_save_image_ok (dir name stem : string) (rest : list string)
    (degree : Z) (im stored : Image) (w : world) :
  files w !! (dir +:+ "/" +:+ name) = Some (Picture im) →
  split name "." = Ok (stem :: rest) →
  let p := dir +:+ "/" +:+ stem +:+ "_" +:+ pretty degree +:+ ".jpg" in
  save_format X p (rotate_expand X im degree) = Ok stored →
  write_error X w p = None →
  rotate_and_save_image X dir name degree w
  = (Ok tt, add_file p (Picture stored) w).
Proof.
  intros Hfile Hsplit p Hfmt Hw.
  unfold rotate_and_save_image, image_open, image_save, write_file.
  unfold_monad. rewrite Hfile, Hsplit, index_first. fold p.
  rewrite Hfmt, Hw. done.
Qed.

Lemma flip_and_save_image_ok (dir name stem : string) (rest : list string)
    (im stored : Image) (w : world) :
  files w !! (dir +:+ "/" +:+ name) = Some (Picture im) →
  split name "." = Ok (stem :: rest) →
  let p := dir +:+ "/" +:+ stem +:+ "f.jpg" in
  save_format X p (flip_left_right X im) = Ok stored →
  write_error X w p = None →
  flip_and_save_image X dir name w = (Ok tt, add_file p (Picture stored) w).
Proof.
  intros Hfile Hsplit p Hfmt Hw.
  unfold flip_and_save_image, image_open, image_save, write_file.
  unfold_monad. rewrite Hfile, Hsplit, index_first. fold p.
  rewrite Hfmt, Hw. done.
Qed.

End AugmentAll.

Section AugmentAllLocal.
Context (X : Externals).

Lemma stem_split (name : string) :
  ∃ rest, split name "." = Ok (file_stem name :: rest)
          ∧ contains (file_stem name) "." = false
          ∧ (name = file_stem name ∨ ∃ t, name = file_stem name +:+ String "." t).
Proof.
  destruct (stem_of_name name) as (s & rest & Hsplit & Hs & Hcut).
  unfold file_stem. rewrite Hsplit. by exists rest.
Qed.

(** One turn of the loop over the four angles: the rotation is written,
    then read back and flipped. *)
Lemma augment_all_turn (dir name : string) (d : Z) (im r f : Image)
    (w : world) :
  files w !! (dir +:+ "/" +:+ name) = Some (Picture im) →
  save_format X (rotated_path dir name d) (rotate_expand X im d) = Ok r →
  save_format X (flipped_path dir name d) (flip_left_right X r) = Ok f →
  (∀ w0, write_error X w0 (rotated_path dir name d) = None) →
  (∀ w0, write_error X w0 (flipped_path dir name d) = None) →
  (rotate_and_save_image X dir name d;;
   parts ← lift (split name ".");
   stem ← lift (Py.index parts 0);
   flip_and_save_image X dir (stem +:+ "_" +:+ pretty d +:+ ".jpg")) w
  = (Ok tt,
     add_file (flipped_path dir name d) (Picture f)
       (add_file (rotated_path dir name d) (Picture r) w)).
Proof.
  intros Hfile Hr Hf Hwr Hwf.
  destruct (stem_split name) as (rest & Hsplit & Hs & Hcut).
  unfold mbind at 1. unfold M_bind at 1.
  rewrite (rotate_and_save_image_ok X dir name (file_stem name) rest d im r w
             Hfile Hsplit) by (exact Hr || apply Hwr).
  unfold_monad. rewrite Hsplit. cbv beta iota.
  rewrite index_first. cbv beta iota.
  destruct (stem_of_rotated (file_stem name) d Hs) as [rest' Hsplit'].
  assert (Epf : dir +:+ "/" +:+ (file_stem name +:+ "_" +:+ pretty d) +:+ "f.jpg"
                = flipped_path dir name d).
  { unfold flipped_path. rewrite !append_assoc. reflexivity. }
  rewrite (flip_and_save_image_ok X dir
             (file_stem name +:+ "_" +:+ pretty d +:+ ".jpg")
             (file_stem name +:+ "_" +:+ pretty d) rest' r f
             (add_file (rotated_path dir name d) (Picture r) w)).
  - by rewrite Epf.
  - simpl. apply lookup_insert_eq.
  - exact Hsplit'.
  - rewrite Epf. exact Hf.
  - rewrite Epf. apply Hwf.
Qed.

(** No derived name is the name of the image it is derived from. *)
Lemma original_not_derived (dir name : string) :
  dir +:+ "/" +:+ name ∉ derived_paths (dir, name).
Proof.
  destruct (stem_split name) as (rest & _ & Hs & Hcut).
  intros Hin. unfold derived_paths, angles in Hin. simpl in Hin.
  repeat (apply elem_of_cons in Hin as [Hin|Hin];
          [revert Hin; by apply original_is_kept|]).
  by apply elem_of_nil in Hin.
Qed.

End AugmentAllLocal.

Section AugmentAllStored.
Context (X : Externals).

(** The disk after the eight files of one image are stored. *)
Local Abbreviation stored o rot flp w :=
  (foldl (fun (w0 : world) (d : Z) =>
            add_file (flipped_path (fst o) (snd o) d) (Picture (flp d))
              (add_file (rotated_path (fst o) (snd o) d) (Picture (rot d))
                 w0))
     w angles).

Lemma derived_paths_suffixes (o : string * string) :
  derived_paths o
  = (fun sfx => fst o +:+ "/" +:+ file_stem (snd o) +:+ sfx)
      <$> ["_0.jpg"; "_0f.jpg"; "_90.jpg"; "_90f.jpg";
           "_180.jpg"; "_180f.jpg"; "_270.jpg"; "_270f.jpg"].
Proof. reflexivity. Qed.

Lemma derived_paths_NoDup (o : string * string) :
  NoDup (derived_paths o) ∧ length (derived_paths o) = 8.
Proof.
  split; [|reflexivity]. rewrite derived_paths_suffixes.
  apply NoDup_fmap_2.
  - intros a b E. by do 3 apply String.app_inj in E.
  - apply NoDup_ListNoDup.
    repeat (constructor; [simpl; intuition discriminate|]). constructor.
Qed.

Lemma derived_paths_elem (o : string * string) (d : Z) :
  d ∈ angles →
  rotated_path (fst o) (snd o) d ∈ derived_paths o
  ∧ flipped_path (fst o) (snd o) d ∈ derived_paths o.
Proof.
  intros Hd. unfold derived_paths. split.
  - apply list_elem_of_bind. exists d. split; [left|done].
  - apply list_elem_of_bind. exists d. split; [right; left|done].
Qed.

Lemma stored_world (o : string * string) (rot flp : Z → Image) (w : world) :
  dirs (stored o rot flp w) = dirs w
  ∧ requests (stored o rot flp w) = requests w
  ∧ log (stored o rot flp w) = log w
  ∧ dom (files (stored o rot flp w))
    = list_to_set (derived_paths o) ∪ dom (files w).
Proof.
  split; [done|]. split; [done|]. split; [done|].
  simpl. rewrite !dom_insert_L.
  apply set_eq. intros x. rewrite !elem_of_union, !elem_of_singleton,
    elem_of_empty. tauto.
Qed.

Lemma stored_other (o : string * string) (rot flp : Z → Image) (w : world)
    (p : string) :
  p ∉ derived_paths o → files (stored o rot flp w) !! p = files w !! p.
Proof.
  intros Hp. unfold derived_paths, angles in Hp. simpl in Hp.
  rewrite !not_elem_of_cons in Hp. simpl.
  rewrite !lookup_insert_ne; [done|..]; intros E; symmetry in E; tauto.
Qed.

Lemma stored_derived (o : string * string) (rot flp : Z → Image) (w : world)
    (d : Z) :
  d ∈ angles →
  files (stored o rot flp w) !! rotated_path (fst o) (snd o) d
  = Some (Picture (rot d))
  ∧ files (stored o rot flp w) !! flipped_path (fst o) (snd o) d
    = Some (Picture (flp d)).
Proof.
  intros Hd. unfold angles in Hd.
  assert (Hne : ∀ a b : string,
            a ≠ b →
            fst o +:+ "/" +:+ file_stem (snd o) +:+ a
            ≠ fst o +:+ "/" +:+ file_stem (snd o) +:+ b).
  { intros a b Hab E. by do 3 apply String.app_inj in E. }
  repeat (apply elem_of_cons in Hd as [->|Hd]);
    [..|by apply elem_of_nil in Hd];
    (split; simpl;
     rewrite ?lookup_insert_ne by (apply Hne; discriminate);
     apply lookup_insert_eq).
Qed.

End AugmentAllStored.

Section AugmentAllBatch.
Context (X : Externals).

Local Abbreviation stored o rot flp w :=
  (foldl (fun (w0 : world) (d : Z) =>
            add_file (flipped_path (fst o) (snd o) d) (Picture (flp d))
              (add_file (rotated_path (fst o) (snd o) d) (Picture (rot d))
                 w0))
     w angles).

Lemma for_each_unit_app {A} (body : unit → A → M unit) (l1 l2 : list A)
    (w : world) :
  for_each body tt (l1 ++ l2) w
  = match for_each body tt l1 w with
    | (Ok _, w1) => for_each body tt l2 w1
    | (Raise e, w1) => (Raise e, w1)
    end.
Proof.
  revert w. induction l1 as [|x l1 IH]; intros w; [done|].
  cbn [app for_each]. unfold mbind, M_bind.
  destruct (body tt x w) as [[[]|e] w1]; [apply IH|done].
Qed.

Lemma for_each_unit_fmap {A B} (f : A → B) (body : unit → B → M unit)
    (l : list A) (w : world) :
  for_each body tt (f <$> l) w = for_each (fun u x => body u (f x)) tt l w.
Proof.
  revert w. induction l as [|x l IH]; intros w; [done|].
  cbn [fmap list_fmap for_each]. unfold mbind, M_bind.
  destruct (body tt (f x) w) as [[[]|e] w1]; [apply IH|done].
Qed.

(** The two loops of [create_augmented_images] visit the listed images one
    after the other. *)
Lemma create_augmented_images_flat (top degrees : string) (w : world) :
  create_augmented_images X top degrees w
  = for_each (fun _ o => augment_file X degrees (fst o) (snd o)) tt
      (originals (os_walk X w top)) w.
Proof.
  unfold create_augmented_images.
  generalize (os_walk X w top) as walk. intros walk. revert w.
  induction walk as [|[[d ds] names] walk IH]; intros w0; [done|].
  cbn [for_each]. unfold originals. rewrite bind_cons. fold (originals walk).
  rewrite for_each_unit_app. cbn [fst snd].
  rewrite for_each_unit_fmap. cbn [fst snd].
  unfold mbind at 1. unfold M_bind at 1.
  destruct (for_each _ tt names w0) as [[[]|e] w1]; [apply IH|done].
Qed.

(** The eight files of one image, when the encoder accepts them and the
    disk takes them. *)
Lemma augment_file_all (o : string * string) (im : Image)
    (rot flp : Z → Image) (w : world) :
  files w !! original_path o = Some (Picture im) →
  (∀ d, d ∈ angles →
     save_format X (rotated_path (fst o) (snd o) d) (rotate_expand X im d)
     = Ok (rot d)
     ∧ save_format X (flipped_path (fst o) (snd o) d)
         (flip_left_right X (rot d)) = Ok (flp d)
     ∧ (∀ w0, write_error X w0 (rotated_path (fst o) (snd o) d) = None)
     ∧ (∀ w0, write_error X w0 (flipped_path (fst o) (snd o) d) = None)) →
  augment_file X "all" (fst o) (snd o) w = (Ok tt, stored o rot flp w).
Proof.
  destruct o as [dir name]. unfold original_path. cbn [fst snd].
  intros Hfile Hacc.
  assert (Hkeep : ∀ (w0 : world) (d : Z) c c',
            files w0 !! (dir +:+ "/" +:+ name) = Some (Picture im) →
            files (add_file (flipped_path dir name d) c
                     (add_file (rotated_path dir name d) c' w0))
              !! (dir +:+ "/" +:+ name) = Some (Picture im)).
  { intros w0 d c c' H0. simpl.
    destruct (stem_split name) as (rest & _ & Hs & Hcut).
    rewrite !lookup_insert_ne; [done|..];
      intros E; symmetry in E; revert E; by apply original_is_kept. }
  assert (Hturn : ∀ (w0 : world) (d : Z),
            d ∈ angles →
            files w0 !! (dir +:+ "/" +:+ name) = Some (Picture im) →
            (rotate_and_save_image X dir name d;;
             parts ← lift (split name ".");
             stem ← lift (Py.index parts 0);
             flip_and_save_image X dir (stem +:+ "_" +:+ pretty d +:+ ".jpg"))
              w0
            = (Ok tt,
               add_file (flipped_path dir name d) (Picture (flp d))
                 (add_file (rotated_path dir name d) (Picture (rot d)) w0))).
  { intros w0 d Hd H0. destruct (Hacc d Hd) as (Hr & Hf & Hwr & Hwf).
    by apply (augment_all_turn X dir name d im). }
  unfold augment_file. change (String.eqb "all" "all") with true. cbv iota.
  cbn [for_each]. change (0 * 90)%Z with 0%Z. change (1 * 90)%Z with 90%Z.
  change (2 * 90)%Z with 180%Z. change (3 * 90)%Z with 270%Z.
  unfold mbind at 1. unfold M_bind at 1.
  rewrite (Hturn w 0%Z) by (done || (repeat constructor)).
  unfold mbind at 1. unfold M_bind at 1.
  rewrite (Hturn _ 90%Z) by ((by apply Hkeep) || (repeat constructor)).
  unfold mbind at 1. unfold M_bind at 1.
  rewrite (Hturn _ 180%Z) by ((by do 2 apply Hkeep) || (repeat constructor)).
  unfold mbind at 1. unfold M_bind at 1.
  rewrite (Hturn _ 270%Z) by ((by do 3 apply Hkeep) || (repeat constructor)).
  reflexivity.
Qed.

End AugmentAllBatch.

Section AugmentAllTree.
Context (X : Externals).

Local Abbreviation stored o rot flp w :=
  (foldl (fun (w0 : world) (d : Z) =>
            add_file (flipped_path (fst o) (snd o) d) (Picture (flp d))
              (add_file (rotated_path (fst o) (snd o) d) (Picture (rot d))
                 w0))
     w angles).

(** The encoder accepts the rotation by [d] of the image [im] of [o] and
    the flip of what is read back, [r] and [f] being what a reader
    decodes from the two files, and the disk takes both files. *)
Local Abbreviation accepts o im d r f :=
  (save_format X (rotated_path (fst o) (snd o) d) (rotate_expand X im d)
   = Ok r
   ∧ save_format X (flipped_path (fst o) (snd o) d) (flip_left_right X r)
     = Ok f
   ∧ (∀ w0, write_error X w0 (rotated_path (fst o) (snd o) d) = None)
   ∧ (∀ w0, write_error X w0 (flipped_path (fst o) (snd o) d) = None)).

Lemma augment_batch (os : list (string * string))
    (pic : string * string → Image) (rot flp : string * string → Z → Image) :
  (∀ o o', o ∈ os → o' ∈ os → original_path o' ∉ derived_paths o) →
  (∀ o d, o ∈ os → d ∈ angles → accepts o (pic o) d (rot o d) (flp o d)) →
  ∀ w, (∀ o, o ∈ os → files w !! original_path o = Some (Picture (pic o))) →
    for_each (fun _ o => augment_file X "all" (fst o) (snd o)) tt os w
    = (Ok tt, foldl (fun w0 o => stored o (rot o) (flp o) w0) w os).
Proof.
  induction os as [|o0 os IH]; intros Hsep Hacc w Hpic; [done|].
  cbn [for_each foldl]. unfold mbind at 1. unfold M_bind at 1.
  rewrite (augment_file_all X o0 (pic o0) (rot o0) (flp o0) w).
  - apply IH.
    + intros o o' Ho Ho'. apply Hsep; by right.
    + intros o d Ho Hd. apply Hacc; [by right|done].
    + intros o Ho. rewrite stored_other; [apply Hpic; by right|].
      apply Hsep; [left|by right].
  - apply Hpic. left.
  - intros d Hd. apply Hacc; [left|done].
Qed.

Lemma stored_all_spec (os : list (string * string))
    (rot flp : string * string → Z → Image) :
  ∀ w,
    let w' := foldl (fun w0 o => stored o (rot o) (flp o) w0) w os in
    dirs w' = dirs w ∧ requests w' = requests w ∧ log w' = log w
    ∧ dom (files w') = list_to_set (os ≫= derived_paths) ∪ dom (files w)
    ∧ ∀ p, p ∉ os ≫= derived_paths → files w' !! p = files w !! p.
Proof.
  induction os as [|o0 os IH]; intros w.
  { cbn [foldl]. split; [done|]. split; [done|]. split; [done|].
    split; [|done]. simpl. apply set_eq. intros x.
    rewrite elem_of_union, elem_of_empty. tauto. }
  cbn [foldl]. cbv zeta.
  destruct (IH (stored o0 (rot o0) (flp o0) w)) as (Hd & Hr & Hl & Hdom & Hoth).
  destruct (stored_world o0 (rot o0) (flp o0) w) as (Hd0 & Hr0 & Hl0 & Hdom0).
  split; [by rewrite Hd|]. split; [by rewrite Hr|]. split; [by rewrite Hl|].
  rewrite bind_cons. split.
  - rewrite Hdom, Hdom0, list_to_set_app_L. apply set_eq. intros x.
    rewrite !elem_of_union. tauto.
  - intros p Hp. apply not_elem_of_app in Hp as [Hp0 Hp].
    rewrite Hoth by done. by apply stored_other.
Qed.

Lemma stored_all_derived (os : list (string * string))
    (rot flp : string * string → Z → Image) :
  NoDup (os ≫= derived_paths) →
  ∀ w o d, o ∈ os → d ∈ angles →
    let w' := foldl (fun w0 o => stored o (rot o) (flp o) w0) w os in
    files w' !! rotated_path (fst o) (snd o) d = Some (Picture (rot o d))
    ∧ files w' !! flipped_path (fst o) (snd o) d = Some (Picture (flp o d)).
Proof.
  induction os as [|o0 os IH]; intros Hnd w o d Ho Hd.
  { by apply elem_of_nil in Ho. }
  rewrite bind_cons in Hnd. apply NoDup_app in Hnd as (_ & Hdisj & Hnd).
  cbn [foldl]. cbv zeta.
  destruct (decide (o ∈ os)) as [Hin|Hnot]; [by apply IH|].
  apply elem_of_cons in Ho as [->|Ho]; [|done].
  destruct (derived_paths_elem o0 d Hd) as [Hr Hf].
  destruct (stored_all_spec os rot flp (stored o0 (rot o0) (flp o0) w))
    as (_ & _ & _ & _ & Hoth).
  rewrite !Hoth by (by apply Hdisj).
  by apply stored_derived.
Qed.

Lemma suffix_shape (s : string) :
  s ∈ ["_0.jpg"; "_0f.jpg"; "_90.jpg"; "_90f.jpg";
       "_180.jpg"; "_180f.jpg"; "_270.jpg"; "_270f.jpg"] →
  ∃ t, s = String "_" t ∧ contains t "_" = false.
Proof.
  intros Hs.
  repeat (apply elem_of_cons in Hs as [->|Hs]; [by eexists|]).
  by apply elem_of_nil in Hs.
Qed.

(** A derived name tells the directory and the stem it is derived
    from. *)
Lemma derived_paths_base (o1 o2 : string * string) (p : string) :
  p ∈ derived_paths o1 → p ∈ derived_paths o2 →
  fst o1 +:+ "/" +:+ file_stem (snd o1) = fst o2 +:+ "/" +:+ file_stem (snd o2).
Proof.
  rewrite !derived_paths_suffixes.
  intros (s1 & E1 & H1)%list_elem_of_fmap (s2 & E2 & H2)%list_elem_of_fmap.
  apply suffix_shape in H1 as (t1 & -> & Ht1).
  apply suffix_shape in H2 as (t2 & -> & Ht2).
  assert (E : (fst o1 +:+ "/" +:+ file_stem (snd o1)) +:+ String "_" t1
              = (fst o2 +:+ "/" +:+ file_stem (snd o2)) +:+ String "_" t2).
  { rewrite !append_assoc. simpl. simpl in E1, E2. congruence. }
  by apply cut_at_last in E as [E _].
Qed.

Lemma NoDup_fmap_elem {A B} (f : A → B) (l : list A) (x y : A) :
  NoDup (f <$> l) → x ∈ l → y ∈ l → f x = f y → x = y.
Proof.
  induction l as [|a l IH]; intros Hnd Hx Hy E; [by apply elem_of_nil in Hx|].
  rewrite fmap_cons in Hnd. apply NoDup_cons in Hnd as [Ha Hnd].
  apply elem_of_cons in Hx as [->|Hx]; apply elem_of_cons in Hy as [->|Hy].
  - done.
  - destruct Ha. rewrite E. by apply list_elem_of_fmap_2.
  - destruct Ha. rewrite <- E. by apply list_elem_of_fmap_2.
  - by apply IH.
Qed.

Lemma derived_all_NoDup (os : list (string * string)) :
  NoDup ((fun o => fst o +:+ "/" +:+ file_stem (snd o)) <$> os) →
  NoDup (os ≫= derived_paths)
  ∧ length (os ≫= derived_paths) = 8 * length os.
Proof.
  intros Hnd. split.
  - apply NoDup_bind.
    + intros o1 o2 p H1 H2 Hp1 Hp2.
      apply (NoDup_fmap_elem _ os o1 o2 Hnd H1 H2).
      by apply (derived_paths_base o1 o2 p).
    + intros o _. apply derived_paths_NoDup.
    + by apply NoDup_fmap_1 in Hnd.
  - clear Hnd. induction os as [|o os IH]; [done|].
    rewrite bind_cons, length_app, IH.
    rewrite (proj2 (derived_paths_NoDup o)). simpl. lia.
Qed.

End AugmentAllTree.

Section AugmentAllRefused.
Context (X : Externals).

(** One turn of the loop over the four angles for an image whose
    rotation the encoder refuses: nothing is written, and the flip finds
    no rotated file to read. *)
Lemma augment_all_turn_refused (dir name : string) (d : Z) (im : Image)
    (w : world) :
  files w !! (dir +:+ "/" +:+ name) = Some (Picture im) →
  save_format X (rotated_path dir name d) (rotate_expand X im d)
  = Raise OSError →
  (∀ pic, files w !! rotated_path dir name d ≠ Some (Picture pic)) →
  (rotate_and_save_image X dir name d;;
   parts ← lift (split name ".");
   stem ← lift (Py.index parts 0);
   flip_and_save_image X dir (stem +:+ "_" +:+ pretty d +:+ ".jpg")) w
  = (Ok tt, w).
Proof.
  intros Hfile Hfmt Hno.
  destruct (stem_split name) as (rest & Hsplit & Hs & Hcut).
  assert (rotate_and_save_image X dir name d w = (Ok tt, w)) as Hrot.
  { unfold rotate_and_save_image, image_open, image_save. unfold_monad.
    rewrite Hfile, Hsplit, index_first.
    fold (rotated_path dir name d) in Hfmt.
    unfold rotated_path in Hfmt. by rewrite Hfmt. }
  unfold mbind at 1. unfold M_bind at 1. rewrite Hrot.
  unfold_monad. rewrite Hsplit. cbv beta iota.
  rewrite index_first. cbv beta iota.
  unfold flip_and_save_image, image_open. unfold_monad.
  change (dir +:+ "/" +:+ file_stem name +:+ "_" +:+ pretty d +:+ ".jpg")
    with (rotated_path dir name d).
  destruct (files w !! rotated_path dir name d) as [[arr|pic|t]|] eqn:E;
    try done.
  by destruct (Hno pic).
Qed.

Lemma augment_file_all_refused (o : string * string) (im : Image) (w : world) :
  files w !! original_path o = Some (Picture im) →
  (∀ d, d ∈ angles →
     save_format X (rotated_path (fst o) (snd o) d) (rotate_expand X im d)
     = Raise OSError
     ∧ ∀ pic, files w !! rotated_path (fst o) (snd o) d
              ≠ Some (Picture pic)) →
  augment_file X "all" (fst o) (snd o) w = (Ok tt, w).
Proof.
  destruct o as [dir name]. unfold original_path. cbn [fst snd].
  intros Hfile Href.
  assert (Hturn : ∀ d, d ∈ angles →
            (rotate_and_save_image X dir name d;;
             parts ← lift (split name ".");
             stem ← lift (Py.index parts 0);
             flip_and_save_image X dir (stem +:+ "_" +:+ pretty d +:+ ".jpg"))
              w = (Ok tt, w)).
  { intros d Hd. destruct (Href d Hd) as [Hfmt Hno].
    by apply (augment_all_turn_refused dir name d im). }
  unfold augment_file. change (String.eqb "all" "all") with true. cbv iota.
  cbn [for_each]. change (0 * 90)%Z with 0%Z. change (1 * 90)%Z with 90%Z.
  change (2 * 90)%Z with 180%Z. change (3 * 90)%Z with 270%Z.
  unfold mbind at 1. unfold M_bind at 1.
  rewrite (Hturn 0%Z) by (repeat constructor).
  unfold mbind at 1. unfold M_bind at 1.
  rewrite (Hturn 90%Z) by (repeat constructor).
  unfold mbind at 1. unfold M_bind at 1.
  rewrite (Hturn 180%Z) by (repeat constructor).
  unfold mbind at 1. unfold M_bind at 1.
  rewrite (Hturn 270%Z) by (repeat constructor).
  reflexivity.
Qed.

End AugmentAllRefused.

Section AugmentAllTheorem.
Context (X : Externals).

Local Abbreviation accepts o im d r f :=
  (save_format X (rotated_path (fst o) (snd o) d) (rotate_expand X im d)
   = Ok r
   ∧ save_format X (flipped_path (fst o) (snd o) d) (flip_left_right X r)
     = Ok f
   ∧ (∀ w0, write_error X w0 (rotated_path (fst o) (snd o) d) = None)
   ∧ (∀ w0, write_error X w0 (flipped_path (fst o) (snd o) d) = None)).


End AugmentAllTheorem.



(** On the sample picture the eight files are there, next to the
    original; a file that [np.save] wrote is not a picture, and nothing is
    derived from it. *)
Example augment_all_sample :
  let w' := snd (augment_file Samples.X0 "all" "image_db/A" "0_0.jpg"
                   Samples.picture_world) in
  map (fun p => bool_decide (is_Some (files w' !! p)))
    ["image_db/A/0_0_0.jpg"; "image_db/A/0_0_0f.jpg";
     "image_db/A/0_0_90.jpg"; "image_db/A/0_0_90f.jpg";
     "image_db/A/0_0_180.jpg"; "image_db/A/0_0_180f.jpg";
     "image_db/A/0_0_270.jpg"; "image_db/A/0_0_270f.jpg"]
  = [true; true; true; true; true; true; true; true]
  ∧ size (files w') = 9
  ∧ snd (augment_file Samples.X0 "all" "image_db/A" "0_0.npy"
           (add_file "image_db/A/0_0.npy" (Npy Samples.im32)
              Samples.empty_world))
    = add_file "image_db/A/0_0.npy" (Npy Samples.im32) Samples.empty_world.
Proof. vm_compute. repeat split; reflexivity. Qed.

(** ** The feature pass *)

Section FeaturePass.
Context (K : Constants) (X : Externals).

Lemma l_dirpath_from_row_run (self : FeatureExtractor) (row : Series)
    (feature : option string) (w w' : world) (l : string) :
  l_dirpath_from_row K self row feature w = (Ok l, w') →
  ∃ msg, ∀ w0, l_dirpath_from_row K self row feature w0
               = (Ok l, add_log msg w0).
Proof.
  intros H. apply l_dirpath_from_row_ok in H
    as (v & parts & l_name & Hv & Hp & Hl & -> & _).
  exists ("path: " +:+ str v). intros w0.
  unfold l_dirpath_from_row. unfold_monad. rewrite Hv. simpl.
  rewrite Hp. simpl. rewrite Hl. done.
Qed.

Lemma path_from_row_ft_run (self : FeatureExtractor) (row : Series)
    (feature : option string) (w w' : world) (q : string) :
  path_from_row_ft K self row feature w = (Ok q, w') →
  ∃ msg v l,
    getitem row "path" = Ok v
    ∧ (∀ w0, path_from_row_ft K self row feature w0 = (Ok q, add_log msg w0))
    ∧ (∀ w0, l_dirpath_from_row K self row feature w0
             = (Ok l, add_log msg w0)).
Proof.
  intros H. apply path_from_row_ft_ok in H
    as (v & parts & l_name & f_name & Hv & Hp & Hl & Hf & -> & _).
  exists ("path: " +:+ str v), v,
    (dirpath_from_ft self feature +:+ l_name +:+ PATH_SEP K).
  split; [done|].
  assert (Hrun : ∀ w0, l_dirpath_from_row K self row feature w0
                 = (Ok (dirpath_from_ft self feature +:+ l_name +:+ PATH_SEP K),
                    add_log ("path: " +:+ str v) w0)).
  { intros w0. unfold l_dirpath_from_row. unfold_monad. rewrite Hv. simpl.
    rewrite Hp. simpl. rewrite Hl. done. }
  split; [|done]. intros w0.
  unfold path_from_row_ft. unfold_monad. rewrite Hv. simpl. rewrite Hp.
  simpl. rewrite Hf. simpl. rewrite Hrun. done.
Qed.

Lemma path_exists_add_log (p msg : string) (w : world) :
  path_exists p (add_log msg w) = path_exists p w.
Proof. reflexivity. Qed.

Lemma setitem_ok_inv {A} (l l' : list A) (k : nat) (x : A) :
  setitem l (Z.of_nat k) x = Ok l' → k < length l ∧ l' = <[k := x]> l.
Proof.
  unfold setitem. destruct (Z.ltb_spec (Z.of_nat k) 0); [lia|].
  destruct (Z.leb_spec 0 (Z.of_nat k)); [|lia].
  destruct (Z.ltb_spec (Z.of_nat k) (Z.of_nat (length l))); simpl; [|done].
  rewrite Nat2Z.id. intros [= <-]. split; [lia|done].
Qed.

Lemma setitem_ok {A} (l : list A) (k : nat) (x : A) :
  k < length l → setitem l (Z.of_nat k) x = Ok (<[k := x]> l).
Proof.
  intros Hk. unfold setitem. destruct (Z.ltb_spec (Z.of_nat k) 0); [lia|].
  destruct (Z.leb_spec 0 (Z.of_nat k)); [|lia].
  destruct (Z.ltb_spec (Z.of_nat k) (Z.of_nat (length l))); [|lia].
  simpl. by rewrite Nat2Z.id.
Qed.

(** One record whose feature path exists: the path is recorded, no image
    is read and nothing is written. *)
Lemma pre_process_row_reuse (self : FeatureExtractor) (feature : string)
    (should_bb should_resize : bool) (method : option string)
    (radius : option Z) (paths : list value) (k : nat) (row : Series)
    (w : world) (p_new : string) :
  fst (path_from_row_ft K self row (Some feature) w) = Ok p_new →
  path_exists p_new w = true →
  k < length paths →
  ∃ w',
    pre_process_row K X self feature should_bb should_resize method radius
      paths (Z.of_nat k, row) w
    = (Ok (<[k := VStr p_new]> paths), w')
    ∧ same_disk w w' ∧ requests w' = requests w.
Proof.
  intros Hp Hex Hk.
  destruct (path_from_row_ft K self row (Some feature) w) as [r w1] eqn:E.
  simpl in Hp. subst r.
  apply path_from_row_ft_run in E as (msg & v & l & Hv & Hrun & Hlrun).
  unfold pre_process_row. unfold_monad. cbv beta iota.
  rewrite Hrun, Hlrun. cbv beta iota.
  rewrite !path_exists_add_log, Hex.
  cbn [negb]. cbv iota. rewrite setitem_ok by done.
  eexists. split; [reflexivity|]. done.
Qed.

(** [paths[i] = x] on a list: the entry at the position that the label
    names is set; a label from the length of the list on names none. *)
Lemma setitem_label {A} (l : list A) (i : Z) (x : A) :
  (∀ k, i = Z.of_nat k → k < length l → setitem l i x = Ok (<[k := x]> l))
  ∧ ((Z.of_nat (length l) ≤ i ∨ i < - Z.of_nat (length l))%Z →
     setitem l i x = Raise IndexError).
Proof.
  split.
  - intros k -> Hk. by apply setitem_ok.
  - intros Hi. unfold setitem.
    destruct (Z.ltb_spec i 0).
    + destruct (Z.leb_spec 0 (i + Z.of_nat (length l))); [lia|]. done.
    + destruct (Z.leb_spec 0 i); [|lia].
      destruct (Z.ltb_spec i (Z.of_nat (length l))); [lia|]. done.
Qed.

(** One record whose feature path exists, whatever its index label: the
    path is recorded at the position that the label names, no image is
    read and nothing is written. *)
Lemma pre_process_row_reuse_at (self : FeatureExtractor) (feature : string)
    (should_bb should_resize : bool) (method : option string)
    (radius : option Z) (paths : list value) (i : Z) (row : Series)
    (w : world) (p_new : string) :
  fst (path_from_row_ft K self row (Some feature) w) = Ok p_new →
  path_exists p_new w = true →
  ∃ w',
    pre_process_row K X self feature should_bb should_resize method radius
      paths (i, row) w
    = (setitem paths i (VStr p_new), w')
    ∧ same_disk w w' ∧ requests w' = requests w.
Proof.
  intros Hp Hex.
  destruct (path_from_row_ft K self row (Some feature) w) as [r w1] eqn:E.
  simpl in Hp. subst r.
  apply path_from_row_ft_run in E as (msg & v & l & Hv & Hrun & Hlrun).
  unfold pre_process_row. unfold_monad. cbv beta iota.
  rewrite Hrun, Hlrun. cbv beta iota.
  rewrite !path_exists_add_log, Hex.
  cbn [negb]. cbv iota.
  eexists. split; [reflexivity|]. done.
Qed.

(** One record of the ["lbp"] pass whose feature path is missing and
    whose image is a picture file. *)
Lemma pre_process_row_lbp_at (self : FeatureExtractor)
    (should_bb should_resize : bool) (method : option string)
    (radius : option Z) (paths paths' : list value) (i : Z) (row : Series)
    (w : world) (p_new l_new src : string) (img stored : Image) :
  fst (path_from_row_ft K self row (Some "lbp") w) = Ok p_new →
  fst (l_dirpath_from_row K self row (Some "lbp") w) = Ok l_new →
  path_exists p_new w = false →
  getitem row "path" = Ok (VStr src) →
  files w !! src = Some (Picture img) →
  setitem paths i (VStr p_new) = Ok paths' →
  (∀ w0, makedirs_error X w0 l_new = None) →
  (∀ w0, write_error X w0 p_new = None) →
  let transformed :=
    fromarray (lbp X img (default "ror" method) (default 1%Z radius)) in
  let padded :=
    if should_bb
    then make_square_with_bb X transformed default_min_size default_fill_color
           default_mode
    else transformed in
  let out := if should_resize then resize X padded (416, 416)%Z else padded in
  save_format X p_new out = Ok stored →
  ∃ w',
    pre_process_row K X self "lbp" should_bb should_resize method radius
      paths (i, row) w
    = (Ok paths', w')
    ∧ files w' = <[p_new := Picture stored]> (files w)
    ∧ path_exists p_new w' = true
    ∧ requests w' = requests w.
Proof.
  intros Hp Hl Hex Hsrc Hfile Hset Hmk Hwr transformed padded out Hfmt.
  destruct (path_from_row_ft K self row (Some "lbp") w) as [r w1] eqn:E.
  simpl in Hp. subst r.
  apply path_from_row_ft_run in E as (msg & v & l & Hv & Hrun & Hlrun).
  rewrite Hlrun in Hl. simpl in Hl. injection Hl as ->.
  unfold pre_process_row. unfold_monad. cbv beta iota.
  rewrite Hrun, Hlrun. cbv beta iota.
  rewrite !path_exists_add_log, Hex.
  cbn [negb]. cbv iota. rewrite Hsrc. cbv beta iota.
  unfold image_open. cbn [files add_log]. rewrite Hfile. cbv beta iota.
  change (String.eqb "lbp" "lbp") with true. cbv iota.
  rewrite Hset. cbv beta iota zeta.
  unfold makedirs. rewrite Hmk. cbv beta iota.
  unfold image_save, write_file. unfold_monad.
  fold transformed. fold padded. fold out. rewrite Hfmt. cbv beta iota.
  rewrite Hwr. cbv beta iota.
  eexists. split; [reflexivity|]. split; [done|].
  split; [apply path_exists_add_file|done].
Qed.

(** One record whose feature path is missing and whose image is no
    picture file, or, in the ["lbp"] pass, whose index label names no
    position: the pass stops there, and nothing is written. *)
Lemma pre_process_row_stops (self : FeatureExtractor) (feature : string)
    (should_bb should_resize : bool) (method : option string)
    (radius : option Z) (paths : list value) (i : Z) (row : Series)
    (w : world) (p_new src : string) :
  fst (path_from_row_ft K self row (Some feature) w) = Ok p_new →
  path_exists p_new w = false →
  getitem row "path" = Ok (VStr src) →
  ((∀ im, files w !! src ≠ Some (Picture im)) →
   ∃ w', pre_process_row K X self feature should_bb should_resize method
           radius paths (i, row) w = (Raise OSError, w')
         ∧ same_disk w w' ∧ requests w' = requests w)
  ∧ (∀ im e, feature = "lbp" → files w !! src = Some (Picture im) →
       setitem paths i (VStr p_new) = Raise e →
       ∃ w', pre_process_row K X self feature should_bb should_resize method
               radius paths (i, row) w = (Raise e, w')
             ∧ same_disk w w' ∧ requests w' = requests w).
Proof.
  intros Hp Hex Hsrc.
  destruct (path_from_row_ft K self row (Some feature) w) as [r w1] eqn:E.
  simpl in Hp. subst r.
  apply path_from_row_ft_run in E as (msg & v & l & Hv & Hrun & Hlrun).
  split.
  - intros Hno. unfold pre_process_row. unfold_monad. cbv beta iota.
    rewrite Hrun, Hlrun. cbv beta iota.
    rewrite !path_exists_add_log, Hex.
    cbn [negb]. cbv iota. rewrite Hsrc. cbv beta iota.
    unfold image_open. cbn [files add_log].
    destruct (files w !! src) as [[arr|im|t]|] eqn:Hfile;
      try (eexists; split; [reflexivity|done]).
    by destruct (Hno im).
  - intros im e -> Hfile Hset. unfold pre_process_row. unfold_monad.
    cbv beta iota.
    rewrite Hrun, Hlrun. cbv beta iota.
    rewrite !path_exists_add_log, Hex.
    cbn [negb]. cbv iota. rewrite Hsrc. cbv beta iota.
    unfold image_open. cbn [files add_log]. rewrite Hfile. cbv beta iota.
    change (String.eqb "lbp" "lbp") with true. cbv iota.
    rewrite Hset. cbv beta iota.
    eexists. split; [reflexivity|done].
Qed.

End FeaturePass.

Section FeaturePassInv.
Context (K : Constants) (X : Externals).

(** What one turn of the loop of [pre_process] has done when it returns:
    the feature path of the record exists; it is recorded when it was
    there before, or when the feature is ["lbp"]. *)
Lemma pre_process_row_inv (self : FeatureExtractor) (feature : string)
    (should_bb should_resize : bool) (method : option string)
    (radius : option Z) (paths paths' : list value) (k : nat) (row : Series)
    (w w' : world) :
  pre_process_row K X self feature should_bb should_resize method radius
    paths (Z.of_nat k, row) w = (Ok paths', w') →
  ∃ p_new,
    (∀ w0, fst (path_from_row_ft K self row (Some feature) w0) = Ok p_new)
    ∧ disk_grows w w'
    ∧ path_exists p_new w' = true
    ∧ ((path_exists p_new w = true ∨ feature = "lbp")
       ∧ k < length paths ∧ paths' = <[k := VStr p_new]> paths
       ∨ path_exists p_new w = false ∧ feature ≠ "lbp" ∧ paths' = paths).
Proof.
  unfold pre_process_row. unfold_monad. cbv beta iota. intros H.
  destruct (path_from_row_ft K self row (Some feature)
              (add_log (repr_row X row) w)) as [[p_new|e] w1] eqn:E; [|done].
  pose proof E as E'.
  apply path_from_row_ft_run in E' as (msg & v & l & Hv & Hrun & Hlrun).
  rewrite Hrun in E. injection E as <-.
  rewrite Hlrun in H. cbv beta iota in H.
  rewrite !path_exists_add_log in H.
  exists p_new. split; [intros w0; by rewrite Hrun|].
  set (w2 := add_log msg (add_log msg (add_log (repr_row X row) w))) in *.
  assert (Hg2 : disk_grows w w2) by (split; reflexivity).
  destruct (path_exists p_new w) eqn:Hex; cbn [negb] in H; cbv iota in H.
  - destruct (setitem paths (Z.of_nat k) (VStr p_new)) as [ps|e] eqn:Hset;
      [|done].
    injection H as <- <-. apply setitem_ok_inv in Hset as [Hk ->].
    split; [done|]. split; [by apply (path_exists_grows _ w)|]. auto.
  - rewrite Hv in H. cbv beta iota in H. unfold image_open in H.
    destruct v as [src| |n]; try done.
    destruct (files w2 !! src) as [[arr|img|df]|]; try done.
    cbv beta iota in H.
    assert (Hg3 : ∀ c, disk_grows w (add_file p_new c (add_dir l w2))).
    { intros c. eapply disk_grows_trans; [exact Hg2|].
      eapply disk_grows_trans;
        [apply disk_grows_add_dir|apply disk_grows_add_file]. }
    destruct (String.eqb_spec feature "lbp") as [->|Hne].
    + destruct (setitem paths (Z.of_nat k) (VStr p_new)) as [ps|e] eqn:Hset;
        [|done].
      cbv beta iota zeta in H.
      unfold makedirs, image_save, write_file in H. unfold_monad.
      destruct (makedirs_error X w2 l); [done|].
      destruct (save_format X p_new _); [|done]. cbv beta iota in H.
      destruct (write_error X (add_dir l w2) p_new); [done|].
      injection H as <- <-. apply setitem_ok_inv in Hset as [Hk ->].
      split; [apply Hg3|]. split; [apply path_exists_add_file|]. auto.
    + destruct (String.eqb feature "sift"), (String.eqb feature "glcm");
        cbv beta iota zeta in H;
        unfold makedirs, image_save, write_file in H; unfold_monad;
        (destruct (makedirs_error X w2 l); [done|]);
        (destruct (save_format X p_new _); [|done]); cbv beta iota in H;
        (destruct (write_error X (add_dir l w2) p_new); [done|]);
        injection H as <- <-;
        (split; [apply Hg3|]); (split; [apply path_exists_add_file|]); auto.
Qed.

End FeaturePassInv.

Section FeaturePassTheorem.
Context (K : Constants) (X : Externals).

(** The loop of [pre_process] over rows whose index labels are their
    positions, started at position [k]. *)
Lemma pre_process_loop_inv (self : FeatureExtractor) (feature : string)
    (should_bb should_resize : bool) (method : option string)
    (radius : option Z) (todo : DataFrame) :
  ∀ (k : nat) (paths paths' : list value) (w w' : world),
    (∀ j i row, todo !! j = Some (i, row) → i = Z.of_nat (k + j)) →
    for_each (pre_process_row K X self feature should_bb should_resize
                method radius) paths todo w = (Ok paths', w') →
    disk_grows w w'
    ∧ length paths' = length paths
    ∧ (∀ pos, pos < k → paths' !! pos = paths !! pos)
    ∧ ∀ j i row, todo !! j = Some (i, row) →
        ∃ p_new,
          (∀ w0, fst (path_from_row_ft K self row (Some feature) w0)
                 = Ok p_new)
          ∧ path_exists p_new w' = true
          ∧ (path_exists p_new w = true ∨ feature = "lbp" →
             paths' !! (k + j) = Some (VStr p_new)).
Proof.
  induction todo as [|[i0 row0] todo IH]; intros k paths paths' w w' Hlab H.
  - simpl in H. injection H as <- <-.
    split; [apply disk_grows_refl|]. split; [done|]. split; [done|].
    intros j i row Hj. done.
  - cbn [for_each] in H. unfold mbind at 1 in H. unfold M_bind at 1 in H.
    assert (i0 = Z.of_nat k) as ->.
    { rewrite (Hlab 0 i0 row0 eq_refl). f_equal. lia. }
    destruct (pre_process_row K X self feature should_bb should_resize method
                radius paths (Z.of_nat k, row0) w) as [[paths1|e] w1] eqn:Hrow;
      [|done].
    apply pre_process_row_inv in Hrow as (p0 & Hp0 & Hg1 & Hex1 & Hcase).
    apply (IH (S k)) in H as (Hg & Hlen & Hkeep & Hrows).
    2:{ intros j i row Hj. rewrite (Hlab (S j) i row Hj). f_equal. lia. }
    assert (Hlen1 : length paths1 = length paths).
    { destruct Hcase as [(_ & _ & ->)|(_ & _ & ->)]; [|done].
      apply length_insert. }
    split; [by eapply disk_grows_trans|]. split; [congruence|]. split.
    + intros pos Hpos. rewrite Hkeep by lia.
      destruct Hcase as [(_ & _ & ->)|(_ & _ & ->)]; [|done].
      apply list_lookup_insert_ne. lia.
    + intros [|j] i row Hj.
      * injection Hj as <- <-. exists p0. split; [done|].
        split; [by apply (path_exists_grows _ w1)|].
        intros Hrec. rewrite Nat.add_0_r, Hkeep by lia.
        destruct Hcase as [(_ & Hk & ->)|(Hno & Hne & _)].
        -- by apply list_lookup_insert_eq.
        -- destruct Hrec as [Hrec|Hrec]; congruence.
      * destruct (Hrows j i row Hj) as (p & Hp & Hex & Hrec).
        exists p. split; [done|]. split; [done|]. intros Hpre.
        replace (k + S j) with (S k + j) by lia. apply Hrec.
        destruct Hpre as [Hpre|Hpre]; [left|by right].
        by apply (path_exists_grows _ w).
Qed.

(** C6, as the code has it.  A record whose feature path exists has
    that path recorded at the position of [paths] that its index label
    names, an [IndexError] when the label names none; no image is read and
    nothing is written.  In the ["lbp"] pass a record whose feature path
    is missing, whose image is a picture file and whose label names a
    position has its image read, the transform applied, the result padded
    and resized as asked and written at the feature path, and the path
    recorded, when the directory can be made, the encoder accepts the
    result and the write is accepted.  A record whose feature path is
    missing stops the pass when its image is no picture file, with an
    [OSError], and in the ["lbp"] pass when its label names no position;
    nothing is written then.  When a pass over a manifest whose index
    labels are the row positions returns, the manifest with the feature
    column is in the manifest file, the feature path of every record
    exists on disk, and it stands in the feature column of every record
    whose path was there before the pass and, in the ["lbp"] pass, of
    every record. *)
Theorem pre_process_records_feature (self : FeatureExtractor)
    (feature : string) (should_bb should_resize : bool)
    (method : option string) (radius : option Z) :
  (∀ paths i row w p_new,
     fst (path_from_row_ft K self row (Some feature) w) = Ok p_new →
     path_exists p_new w = true →
     (∃ w',
        pre_process_row K X self feature should_bb should_resize method
          radius paths (i, row) w
        = (setitem paths i (VStr p_new), w')
        ∧ same_disk w w' ∧ requests w' = requests w)
     ∧ (∀ k, i = Z.of_nat k → k < length paths →
          setitem paths i (VStr p_new) = Ok (<[k := VStr p_new]> paths))
     ∧ ((Z.of_nat (length paths) ≤ i ∨ i < - Z.of_nat (length paths))%Z →
        setitem paths i (VStr p_new) = Raise IndexError))
  ∧ (∀ paths paths' i row w p_new l_new src img stored,
       fst (path_from_row_ft K self row (Some "lbp") w) = Ok p_new →
       fst (l_dirpath_from_row K self row (Some "lbp") w) = Ok l_new →
       path_exists p_new w = false →
       getitem row "path" = Ok (VStr src) →
       files w !! src = Some (Picture img) →
       setitem paths i (VStr p_new) = Ok paths' →
       (∀ w0, makedirs_error X w0 l_new = None) →
       (∀ w0, write_error X w0 p_new = None) →
       let transformed :=
         fromarray (lbp X img (default "ror" method) (default 1%Z radius)) in
       let padded :=
         if should_bb
         then make_square_with_bb X transformed default_min_size
                default_fill_color default_mode
         else transformed in
       let out :=
         if should_resize then resize X padded (416, 416)%Z else padded in
       save_format X p_new out = Ok stored →
       ∃ w',
         pre_process_row K X self "lbp" should_bb should_resize method radius
           paths (i, row) w
         = (Ok paths', w')
         ∧ files w' = <[p_new := Picture stored]> (files w)
         ∧ path_exists p_new w' = true
         ∧ requests w' = requests w)
  ∧ (∀ paths i row w p_new src,
       fst (path_from_row_ft K self row (Some feature) w) = Ok p_new →
       path_exists p_new w = false →
       getitem row "path" = Ok (VStr src) →
       ((∀ im, files w !! src ≠ Some (Picture im)) →
        ∃ w', pre_process_row K X self feature should_bb should_resize method
                radius paths (i, row) w = (Raise OSError, w')
              ∧ same_disk w w' ∧ requests w' = requests w)
       ∧ (∀ im e, feature = "lbp" → files w !! src = Some (Picture im) →
            setitem paths i (VStr p_new) = Raise e →
            ∃ w', pre_process_row K X self feature should_bb should_resize
                    method radius paths (i, row) w = (Raise e, w')
                  ∧ same_disk w w' ∧ requests w' = requests w))
  ∧ (∀ df w df' w',
       (∀ pos i row, df !! pos = Some (i, row) → i = Z.of_nat pos) →
       pre_process K X self df feature should_bb should_resize method radius w
       = (Ok df', w') →
       files w' !! DATASET_PATH K = Some (Csv df')
       ∧ map fst df' = map fst df
       ∧ ∀ pos i row, df !! pos = Some (i, row) →
           ∃ p_new,
             (∀ w0, fst (path_from_row_ft K self row (Some feature) w0)
                    = Ok p_new)
             ∧ path_exists p_new w' = true
             ∧ (path_exists p_new w = true ∨ feature = "lbp" →
                df' !! pos = Some (i, setcell row feature (VStr p_new)))).
Proof.
  split; [|split; [|split]].
  - intros paths i row w p_new Hp Hex.
    split; [by apply pre_process_row_reuse_at|]. apply setitem_label.
  - intros paths paths' i row w p_new l_new src img stored.
    apply pre_process_row_lbp_at.
  - intros paths i row w p_new src. apply pre_process_row_stops.
  - intros df w df' w' Hlab H. unfold pre_process in H.
    unfold mbind at 1 in H. unfold M_bind at 1 in H.
    destruct (for_each _ _ df w) as [[paths|e] w1] eqn:Hloop; [|done].
    apply (pre_process_loop_inv self feature should_bb should_resize method
             radius df 0) in Hloop as (Hg & Hlen & _ & Hrows); [|done].
    unfold full_nan in Hlen. rewrite repeat_length in Hlen.
    unfold to_csv, write_file in H. unfold_monad.
    destruct (write_error X w1 (DATASET_PATH K)); [done|].
    injection H as <- <-. split; [apply lookup_insert_eq|].
    split; [by apply setcolumn_labels|].
    intros pos i row Hdf.
    destruct (Hrows pos i row Hdf) as (p & Hp & Hex & Hrec).
    exists p. split; [done|]. split.
    + apply (path_exists_grows _ w1); [apply disk_grows_add_file|done].
    + intros Hpre. apply setcolumn_lookup; [done|]. by apply Hrec.
Qed.

End FeaturePassTheorem.

(** The theorem at the sample picture, in the ["lbp"] pass: the feature
    path of the record is in its feature column. *)
Lemma pre_process_records_feature_witness :
  ∃ p_new,
    (∀ w0, fst (path_from_row_ft Samples.K0 Samples.fe0
                  [("species", VStr "A"); ("path", VStr "image_db/A/0_0.jpg")]
                  (Some "lbp") w0) = Ok p_new)
    ∧ path_exists p_new
        (snd (pre_process Samples.K0 Samples.X0 Samples.fe0 Samples.df_picture
                "lbp" true false None None Samples.picture_world)) = true
    ∧ (path_exists p_new Samples.picture_world = true ∨ "lbp" = "lbp" →
       [(0%Z, [("species", VStr "A"); ("path", VStr "image_db/A/0_0.jpg");
               ("lbp", VStr "image_db/feature_lbp/A/0_0.jpg")])] !! 0%nat
       = Some (0%Z,
               setcell [("species", VStr "A");
                        ("path", VStr "image_db/A/0_0.jpg")]
                 "lbp" (VStr p_new))).
Proof.
  destruct (proj2 (proj2 (proj2 (pre_process_records_feature
                                   Samples.K0 Samples.X0 Samples.fe0 "lbp"
                                   true false None None)))
              Samples.df_picture Samples.picture_world
              [(0%Z, [("species", VStr "A");
                      ("path", VStr "image_db/A/0_0.jpg");
                      ("lbp", VStr "image_db/feature_lbp/A/0_0.jpg")])]
              (snd (pre_process Samples.K0 Samples.X0 Samples.fe0
                      Samples.df_picture "lbp" true false None None
                      Samples.picture_world)))
    as (_ & _ & H).
  - by intros [|[|?]] ? ? [= <- <-].
  - vm_compute. reflexivity.
  - exact (H 0%nat 0%Z _ eq_refl).
Defined.

(** C6, as the specification has it, fails: in the ["sift"] pass the
    record of the sample manifest has no feature file yet; the pass writes
    the picture of the record, padded and otherwise as it was, at the
    feature path, and the feature column of the record holds the missing
    value, not the path.  In the ["lbp"] pass the file holds the pattern
    codes, as the RGB square takes them.  And a record whose index label is not its position, as after a
    dropped row, is recorded at the position of its label: here there is
    none, and the pass ends with an [IndexError]. *)
Lemma pre_process_sift_not_recorded :
  let p := "image_db/feature_sift/A/0_0.jpg" in
  let row := [("species", VStr "A"); ("path", VStr "image_db/A/0_0.jpg")] in
  let run := pre_process Samples.K0 Samples.X0 Samples.fe0 Samples.df_picture
               "sift" true false None None Samples.picture_world in
  let run_lbp := pre_process Samples.K0 Samples.X0 Samples.fe0
                   Samples.df_picture "lbp" true false None None
                   Samples.picture_world in
  fst (path_from_row_ft Samples.K0 Samples.fe0 row (Some "sift")
         Samples.picture_world) = Ok p
  ∧ path_exists p Samples.picture_world = false
  ∧ fst run = Ok [(0%Z, row ++ [("sift", VNaN)])]
  ∧ match files (snd run) !! p with
    | Some (Picture im) => getpixel im 127 127
    | _ => None
    end = Some [1; 0; 7]%Z
  ∧ match files (snd run_lbp) !! "image_db/feature_lbp/A/0_0.jpg" with
    | Some (Picture im) => getpixel im 127 127
    | _ => None
    end = Some [8; 8; 8]%Z
  ∧ fst (pre_process Samples.K0 Samples.X0 Samples.fe0 [(2%Z, row)]
           "lbp" true false None None Samples.picture_world)
    = Raise IndexError.
Proof. vm_compute. repeat split; reflexivity. Qed.

(** The files that [fetch_images] leaves are arrays written by [np.save],
    not pictures: on the manifest it returns, the feature pass stops at the
    first record, whose file does not open as an image. *)
Example pre_process_after_fetch :
  let fetched := fetch_images Samples.K0 Samples.X0 Samples.no_augmentation
                   Samples.db0 Samples.df3 "identifier" []
                   Samples.empty_world in
  match fst fetched with
  | Ok df =>
      map fst df = [0; 1; 2]%Z
      ∧ fst (pre_process Samples.K0 Samples.X0 Samples.fe0 df "lbp" true false
               None None (snd fetched)) = Raise OSError
  | Raise _ => False
  end.
Proof. vm_compute. split; reflexivity. Qed.

(** The scenario of the specification: three records of categories ["A"],
    ["A"] and ["B"], the second one out of reach.  The manifest that
    [fetch_images] returns has the first and the third record, under their
    original index labels, with their paths. *)
Example fetch_scenario :
  let fetched := fetch_images Samples.K0 Samples.X1 Samples.no_augmentation
                   Samples.db0 Samples.df3 "identifier" [1; 2; 0]
                   Samples.empty_world in
  match fst fetched with
  | Ok df =>
      map (fun ir => (fst ir, getitem (snd ir) "path")) df
      = [(0%Z, Ok (VStr "image_db/A/0_0.npy"));
         (2%Z, Ok (VStr "image_db/B/2_0.npy"))]
  | Raise _ => False
  end
  ∧ path_exists "image_db/A/0_0.npy" (snd fetched) = true
  ∧ path_exists "image_db/A/1_0.npy" (snd fetched) = false
  ∧ path_exists "image_db/B/2_0.npy" (snd fetched) = true
  ∧ length (requests (snd fetched)) = 3.
Proof. vm_compute. repeat split; reflexivity. Qed.

(** * Further properties of the code *)

(** ** [img_path_from_row]: when it returns, and where the file goes *)

Section ImagePath.
Context (K : Constants) (X : Externals).

Lemma prefix_append (a b : string) : String.prefix a (a +:+ b) = true.
Proof.
  induction a as [|x a IH]; [by destruct b|]. simpl.
  destruct (ascii_dec x x); [exact IH|done].
Qed.

(** X1. [img_path_from_row] returns a path exactly when the species cell,
    the cell of the reference column and the tenth cell of the row are
    strings and the directory of the species exists or can be made.  A row
    without a species column is a [KeyError], a species that is not a
    string an [AttributeError], and a row of fewer than ten cells, all
    else being well, an [IndexError]. *)
Theorem img_path_from_row_returns_iff (row : Series) (i : Z) (col : string)
    (extra : option string) (w : world) :
  ((∃ p, fst (img_path_from_row K X row i col extra w) = Ok p)
   ↔ ∃ sp c s9 : string,
       getitem row "species" = Ok (VStr sp)
       ∧ getitem row col = Ok (VStr c)
       ∧ getpos row 9 = Ok (VStr s9)
       ∧ (path_exists (IMGDIR_PATH K +:+ replace " " (DIRNAME_DELIM K) sp) w
          = true
          ∨ makedirs_error X w
              (IMGDIR_PATH K +:+ replace " " (DIRNAME_DELIM K) sp) = None))
  ∧ (getitem row "species" = Raise KeyError →
     img_path_from_row K X row i col extra w = (Raise KeyError, w))
  ∧ (∀ v, getitem row "species" = Ok v → (∀ s, v ≠ VStr s) →
     img_path_from_row K X row i col extra w = (Raise AttributeError, w))
  ∧ (∀ sp c,
       getitem row "species" = Ok (VStr sp) →
       getitem row col = Ok (VStr c) →
       path_exists (IMGDIR_PATH K +:+ replace " " (DIRNAME_DELIM K) sp) w
       = true →
       length row < 10 →
       img_path_from_row K X row i col extra w = (Raise IndexError, w)).
Proof.
  split; [split|split; [|split]].
  - intros [p Hp].
    destruct (img_path_from_row K X row i col extra w) as [r w'] eqn:E.
    simpl in Hp. subst r.
    apply img_path_from_row_ok in E as (sp & c & s9 & Hsp & Hc & H9 & _ & Hd).
    exists sp, c, s9. split; [done|]. split; [done|]. split; [done|].
    cbv zeta in Hd. destruct Hd as [[Hd _]|(_ & Hd & _)]; auto.
  - intros (sp & c & s9 & Hsp & Hc & H9 & Hd).
    destruct (split_index_last_ok c) as [x Hx].
    unfold img_path_from_row. unfold_monad. rewrite Hsp. simpl.
    destruct (path_exists _ w) eqn:Hex; simpl.
    + rewrite Hc. simpl. rewrite Hx, H9. simpl. eauto.
    + destruct Hd as [Hd|Hd]; [done|]. unfold makedirs. rewrite Hd.
      rewrite Hc. simpl. rewrite Hx, H9. simpl. eauto.
  - intros Hsp. unfold img_path_from_row. unfold_monad. by rewrite Hsp.
  - intros v Hv Hns. unfold img_path_from_row. unfold_monad. rewrite Hv.
    destruct v as [s| |n]; [by destruct (Hns s)|done|done].
  - intros sp c Hsp Hc Hex Hlen.
    destruct (split_index_last_ok c) as [x Hx].
    unfold img_path_from_row. unfold_monad. rewrite Hsp. simpl.
    assert (getpos row 9 = Raise IndexError) as H9.
    { unfold getpos. assert (row !! 9%nat = None) as ->; [|done].
      apply lookup_ge_None_2. lia. }
    rewrite Hex. simpl. rewrite Hc. simpl. rewrite Hx, H9. done.
Qed.

(** X2. The path that [img_path_from_row] returns lies in the directory
    named by the tenth cell of the row, begins there with the index and
    ends with ["_0.npy"], whatever the reference is; two rows with the same
    tenth cell get the same path for the same index.  The directory it
    makes is the one of the species cell: when the tenth cell is the
    species cell, the directory of the returned path exists after the
    call. *)
Theorem img_path_from_row_location (row : Series) (i : Z) (col : string)
    (extra : option string) (w w' : world) (p : string) :
  img_path_from_row K X row i col extra w = (Ok p, w') →
  ∃ s9 : string,
    getpos row 9 = Ok (VStr s9)
    ∧ String.prefix
        (IMGDIR_PATH K +:+ replace " " (DIRNAME_DELIM K) s9 +:+ "/"
           +:+ pretty i) p = true
    ∧ endswith p "_0.npy" = true
    ∧ (extra = None →
       p = (IMGDIR_PATH K +:+ replace " " (DIRNAME_DELIM K) s9 +:+ "/"
              +:+ pretty i) +:+ "_0.npy")
    ∧ (getitem row "species" = Ok (VStr s9) →
       path_exists (IMGDIR_PATH K +:+ replace " " (DIRNAME_DELIM K) s9) w'
       = true)
    ∧ (∀ row2 col2 w2 w2' p2,
         getpos row2 9 = Ok (VStr s9) →
         img_path_from_row K X row2 i col2 extra w2 = (Ok p2, w2') →
         p2 = p).
Proof.
  intros H.
  apply img_path_from_row_ok in H as (sp & c & s9 & Hsp & Hc & H9 & Ep & Hd).
  exists s9. split; [done|]. split; [|split; [|split; [|split]]].
  - rewrite Ep. destruct extra as [e|]; [destruct (String.eqb e "")|];
      try apply prefix_append.
    rewrite (append_assoc _ e "_0.npy"). apply prefix_append.
  - rewrite Ep. apply endswith_append.
  - intros ->. exact Ep.
  - intros Hsp'. rewrite Hsp in Hsp'. injection Hsp' as ->.
    cbv zeta in Hd. destruct Hd as [[Hd ->]|(_ & _ & ->)]; [done|].
    apply path_exists_add_dir.
  - intros row2 col2 w2 w2' p2 H92 H2.
    apply img_path_from_row_ok in H2
      as (sp2 & c2 & s92 & _ & _ & H92' & Ep2 & _).
    rewrite H92 in H92'. injection H92' as <-. by rewrite Ep, Ep2.
Qed.

End ImagePath.

(** The theorem at the sample row of species ["Papilio machaon"]. *)
Lemma img_path_from_row_location_witness :
  ∃ s9 : string,
    getpos (Samples.row_of (VStr "Papilio machaon") (VStr "http://h/a.png")) 9
    = Ok (VStr s9)
    ∧ String.prefix ("image_db/" +:+ replace " " "_" s9 +:+ "/" +:+ pretty 7%Z)
        "image_db/Papilio_machaon/7_0.npy" = true
    ∧ endswith "image_db/Papilio_machaon/7_0.npy" "_0.npy" = true.
Proof.
  destruct (img_path_from_row_location Samples.K0 Samples.X0
              (Samples.row_of (VStr "Papilio machaon") (VStr "http://h/a.png"))
              7 "identifier" None Samples.empty_world
              (add_dir "image_db/Papilio_machaon" Samples.empty_world)
              "image_db/Papilio_machaon/7_0.npy")
    as (s9 & H9 & Hpre & Hend & _).
  - vm_compute. reflexivity.
  - exists s9. split; [exact H9|]. split; [exact Hpre|exact Hend].
Defined.

(** ** The paths of the feature cache *)

Section FeaturePaths.
Context (K : Constants).

(** The last two pieces of a path that has at least one separator. *)
Lemma split_last_two (c : ascii) (pre b f : string) :
  pre = "" ∨ (∃ a, pre = a +:+ String c "") →
  contains b c = false → contains f c = false →
  ∃ init, split_go (String c "") (pre +:+ b +:+ String c f) "" 0
          = init ++ [b; f].
Proof.
  intros Hpre Hb Hf.
  assert (split_go (String c "") (b +:+ String c f) "" 0 = [b; f]) as Hbf.
  { rewrite split_go_at_sep, !split_go_whole by done. done. }
  destruct Hpre as [->|[a ->]].
  - exists []. exact Hbf.
  - exists (split_go (String c "") a "" 0).
    rewrite append_assoc. simpl String.append.
    by rewrite split_go_at_sep, Hbf.
Qed.

(** X3. For a one-character separator, a record whose path is
    [<dir><sep><name>], possibly below further directories, has its
    feature file at [<cache root of the feature><dir><sep><name>]: the last
    directory and the file name are kept, everything above them is
    dropped.  Both path functions log the path once and touch nothing
    else. *)
Theorem feature_path_keeps_last_two (self : FeatureExtractor) (row : Series)
    (feature : option string) (c : ascii) (pre b f : string) (w : world) :
  PATH_SEP K = String c "" →
  getitem row "path" = Ok (VStr (pre +:+ b +:+ String c f)) →
  pre = "" ∨ (∃ a, pre = a +:+ String c "") →
  contains b c = false → contains f c = false →
  l_dirpath_from_row K self row feature w
  = (Ok (dirpath_from_ft self feature +:+ b +:+ String c ""),
     add_log ("path: " +:+ pre +:+ b +:+ String c f) w)
  ∧ path_from_row_ft K self row feature w
    = (Ok ((dirpath_from_ft self feature +:+ b +:+ String c "") +:+ f),
       add_log ("path: " +:+ pre +:+ b +:+ String c f) w).
Proof.
  intros Hsep Hrow Hpre Hb Hf.
  destruct (split_last_two c pre b f Hpre Hb Hf) as [init Hsplit].
  assert (l_dirpath_from_row K self row feature w
          = (Ok (dirpath_from_ft self feature +:+ b +:+ String c ""),
             add_log ("path: " +:+ pre +:+ b +:+ String c f) w)) as Hl.
  { unfold l_dirpath_from_row. unfold_monad. rewrite Hrow, Hsep.
    cbn [Py.str split]. rewrite Hsplit, index_penultimate. done. }
  split; [exact Hl|].
  assert (Py.index (init ++ [b; f]) (-1) = Ok f) as Hlast.
  { change (init ++ [b; f]) with (init ++ [b] ++ [f]).
    rewrite (assoc_L (++)). apply index_last. }
  unfold path_from_row_ft, l_dirpath_from_row. unfold_monad.
  rewrite Hrow, Hsep. cbn [Py.str split].
  rewrite Hsplit, Hlast, index_penultimate. done.
Qed.

(** X4. The failures of the two path functions.  A record without a
    ["path"] cell is a [KeyError], raised before anything is logged.  With
    an empty separator both raise [ValueError].  A path that holds no
    separator, such as the ["nan"] of an empty cell, is an [IndexError]: it
    has no last directory. *)
Theorem feature_path_errors (self : FeatureExtractor) (row : Series)
    (feature : option string) (w : world) :
  (∀ e, getitem row "path" = Raise e →
     l_dirpath_from_row K self row feature w = (Raise e, w)
     ∧ path_from_row_ft K self row feature w = (Raise e, w))
  ∧ (∀ v, getitem row "path" = Ok v → PATH_SEP K = "" →
     l_dirpath_from_row K self row feature w
     = (Raise ValueError, add_log ("path: " +:+ Py.str v) w)
     ∧ path_from_row_ft K self row feature w = (Raise ValueError, w))
  ∧ (∀ v c, getitem row "path" = Ok v → PATH_SEP K = String c "" →
     contains (Py.str v) c = false →
     l_dirpath_from_row K self row feature w
     = (Raise IndexError, add_log ("path: " +:+ Py.str v) w)
     ∧ path_from_row_ft K self row feature w
       = (Raise IndexError, add_log ("path: " +:+ Py.str v) w)).
Proof.
  split; [|split].
  - intros e He. unfold path_from_row_ft, l_dirpath_from_row. unfold_monad.
    by rewrite He.
  - intros v Hv Hsep. unfold path_from_row_ft, l_dirpath_from_row.
    unfold_monad. by rewrite Hv, Hsep.
  - intros v c Hv Hsep Hc.
    unfold path_from_row_ft, l_dirpath_from_row. unfold_monad.
    rewrite Hv, Hsep. cbn [split]. rewrite split_go_whole by done. done.
Qed.

End FeaturePaths.

Lemma feature_path_keeps_last_two_witness :
  fst (path_from_row_ft Samples.K0 Samples.fe0
         [("path", VStr "image_db/A/0_0.npy")] (Some "lbp")
         Samples.empty_world)
  = Ok "image_db/feature_lbp/A/0_0.npy".
Proof.
  exact (f_equal fst
           (proj2 (feature_path_keeps_last_two Samples.K0 Samples.fe0
                     [("path", VStr "image_db/A/0_0.npy")] (Some "lbp")
                     "/" "image_db/" "A" "0_0.npy" Samples.empty_world
                     eq_refl eq_refl
                     (or_intror (ex_intro _ "image_db" eq_refl))
                     eq_refl eq_refl))).
Defined.

(** X5. Two feature names share a cache root exactly when they are equal
    once a missing or empty name is read as ["db"]: a feature called
    ["db"] shares the root of the unnamed one, any other two differ. *)
Theorem dirpath_from_ft_collides_iff (self : FeatureExtractor)
    (f1 f2 : option string) :
  let name f := match f with
                | Some s => if String.eqb s "" then "db" else s
                | None => "db"
                end in
  (dirpath_from_ft self f1 = dirpath_from_ft self f2 ↔ name f1 = name f2)
  ∧ dirpath_from_ft self (Some "db") = dirpath_from_ft self None
  ∧ dirpath_from_ft self (Some "") = dirpath_from_ft self None.
Proof.
  intros name. split; [|done]. unfold dirpath_from_ft.
  fold (name f1) (name f2). split; [|by intros ->].
  intros H. generalize dependent (name f2). generalize dependent (name f1).
  intros a b H. induction (save_path self) as [|x s IH].
  - simpl String.append in H. injection H as H.
    by apply append_inv_tail in H.
  - simpl String.append in H. injection H as H. by apply IH.
Qed.

(** ** [make_square_with_bb] leaves canonical images alone *)

Section SquareAgain.
Context (X : Externals).
Local Open Scope Z_scope.

Lemma make_square_with_bb_square (im : Image) (min_size : Z) (fill : pixel)
    (mode : string) :
  width im = height im → min_size ≤ width im →
  let out := make_square_with_bb X im min_size fill mode in
  im_size out = im_size im ∧ im_mode out = mode
  ∧ ∀ i j, getpixel out i j
           = if (0 <=? i) && (i <? width im) && (0 <=? j) && (j <? height im)
             then Some (paste_source X mode im i j) else None.
Proof.
  intros Hsq Hmin out. unfold out. rewrite make_square_with_bb_unfold.
  cbv zeta.
  assert (max3 min_size (width im) (height im) = width im) as ->
    by (unfold max3; lia).
  rewrite <- Hsq, Z.sub_diag. change (0 / 2) with 0.
  split; [|split; [done|]].
  - simpl. unfold width, height in *.
    destruct (im_size im); simpl in *. congruence.
  - intros i j. unfold getpixel, width, height. simpl.
    unfold width, height in *. rewrite <- Hsq, !Z.sub_0_r, !Z.add_0_l.
    destruct (_ && _) eqn:E; [|done]. reflexivity.
Qed.

(** X6. On a square image whose side is at least [min_size] the
    function keeps the size; the pixels are the image's own when it has
    the requested mode, and else what [paste] makes of them in that
    mode.  Hence applying the function a second time, with the same mode
    and any fill colour, changes nothing: the canonical image is a fixed
    point. *)
Theorem make_square_with_bb_idempotent (im : Image) (min_size : Z)
    (fill fill' : pixel) (mode : string) :
  (width im = height im → min_size ≤ width im →
   im_size (make_square_with_bb X im min_size fill mode) = im_size im
   ∧ (∀ i j, 0 ≤ i < width im → 0 ≤ j < height im →
        getpixel (make_square_with_bb X im min_size fill mode) i j
        = Some (paste_source X mode im i j))
   ∧ (im_mode im = mode →
      ∀ i j, getpixel (make_square_with_bb X im min_size fill mode) i j
             = getpixel im i j))
  ∧ let once := make_square_with_bb X im min_size fill mode in
    let twice := make_square_with_bb X once min_size fill' mode in
    im_size twice = im_size once ∧ im_mode twice = im_mode once
    ∧ ∀ i j, getpixel twice i j = getpixel once i j.
Proof.
  split.
  - intros Hsq Hmin.
    destruct (make_square_with_bb_square im min_size fill mode Hsq Hmin)
      as (Hs & _ & Hpx).
    split; [done|]. split.
    + intros i j Hi Hj. rewrite Hpx.
      repeat match goal with
             | |- context [(?a <=? ?b)] => destruct (Z.leb_spec a b); try lia
             | |- context [(?a <? ?b)] => destruct (Z.ltb_spec a b); try lia
             end; reflexivity.
    + intros Hmode i j. rewrite Hpx, paste_source_same_mode by done.
      reflexivity.
  - intros once twice.
    assert (im_size once
            = (max3 min_size (width im) (height im),
               max3 min_size (width im) (height im))
            ∧ im_mode once = mode) as [Hs Hm].
    { unfold once. rewrite make_square_with_bb_unfold. done. }
    pose proof (max3_spec min_size (width im) (height im)) as (Hge & _).
    assert (width once = height once) as Hsq
      by (unfold width, height; by rewrite Hs).
    assert (min_size ≤ width once) as Hmin
      by (unfold width; by rewrite Hs).
    destruct (make_square_with_bb_square once min_size fill' mode Hsq Hmin)
      as (H1 & H2 & H3).
    fold twice in H1, H2, H3. rewrite Hm. split; [done|]. split; [done|].
    intros i j. rewrite H3, paste_source_same_mode by done. reflexivity.
Qed.

End SquareAgain.

(** ** One unit of the fetch: what it stores, what it leaves *)

Section FetchUnitOutcomes.
Context (K : Constants) (X : Externals).

(** X7. A unit whose file is absent and whose download and write succeed
    makes exactly one request, for the reference of the row with a
    timeout of 40; it stores the 416 x 416 resize of the downloaded image,
    padded to a square of side at least 256 in mode RGB, as an array under
    exactly the path it returns (no [".npy"] is appended), and touches no
    other file. *)
Theorem save_img_stores_normalised_array (col : string) (row : Series)
    (i : Z) (w w1 : world) (p : string) (url : value) (img : Image) :
  img_path_from_row K X row i "identifier" None w = (Ok p, w1) →
  path_exists p w1 = false →
  getitem row col = Ok url →
  http_image X (requests w1) url 40 = Ok img →
  write_error X (add_request url 40 w1) p = None →
  ∃ w',
    save_img K X col row i w = (Ok (VStr p), w')
    ∧ files w' !! p
      = Some (Npy (resize X (make_square_with_bb X img 256 [0; 0; 0; 0]%Z "RGB")
                     (416, 416)%Z))
    ∧ (∀ q, q ≠ p → files w' !! q = files w !! q)
    ∧ requests w' = requests w ++ [(url, 40%Z)]
    ∧ dirs w' = dirs w1 ∧ log w' = log w.
Proof.
  intros Hp Hex Hurl Himg Hwr.
  rewrite (save_img_absent K X col row i w w1 p Hp Hex), Hurl, Himg, Hwr.
  eexists. split; [reflexivity|].
  assert (files w1 = files w ∧ requests w1 = requests w ∧ log w1 = log w)
    as (Hf & Hr & Hl).
  { pose proof (img_path_from_row_world K X row i "identifier" None w) as Hw.
    rewrite Hp in Hw. simpl in Hw. by destruct Hw as [->|(? & _ & _ & ->)]. }
  simpl. rewrite Hf, Hr, Hl. split; [apply lookup_insert_eq|].
  split; [|done]. intros q Hq. by apply lookup_insert_ne.
Qed.

(** X8. A unit whose file is absent and whose reference cannot be read
    (a missing column, say) makes no request; one whose download raises,
    whatever the exception, has made its one request.  Either way the unit
    returns the missing value instead of raising, and no file has been
    written. *)
Theorem save_img_failed_download (col : string) (row : Series) (i : Z)
    (w w1 : world) (p : string) :
  img_path_from_row K X row i "identifier" None w = (Ok p, w1) →
  path_exists p w1 = false →
  (∀ e, getitem row col = Raise e →
     save_img K X col row i w = (Ok VNaN, w1)
     ∧ requests w1 = requests w ∧ files w1 = files w)
  ∧ (∀ url e, getitem row col = Ok url →
       http_image X (requests w1) url 40 = Raise e →
       ∃ w', save_img K X col row i w = (Ok VNaN, w')
             ∧ requests w' = requests w ++ [(url, 40%Z)]
             ∧ files w' = files w
             ∧ path_exists p w' = false).
Proof.
  intros Hp Hex.
  assert (files w1 = files w ∧ requests w1 = requests w) as (Hf & Hr).
  { pose proof (img_path_from_row_world K X row i "identifier" None w) as Hw.
    rewrite Hp in Hw. simpl in Hw. by destruct Hw as [->|(? & _ & _ & ->)]. }
  split.
  - intros e He. by rewrite (save_img_absent K X col row i w w1 p Hp Hex), He.
  - intros url e Hurl He.
    rewrite (save_img_absent K X col row i w w1 p Hp Hex), Hurl, He.
    eexists. split; [reflexivity|]. simpl. by rewrite Hr, Hf.
Qed.

End FetchUnitOutcomes.

Lemma save_img_stores_normalised_array_witness :
  ∃ w',
    save_img Samples.K0 Samples.X0 "identifier"
      (Samples.row_of (VStr "A") (VStr "http://h/a.jpg")) 0
      Samples.empty_world
    = (Ok (VStr "image_db/A/0_0.npy"), w')
    ∧ requests w' = [(VStr "http://h/a.jpg", 40%Z)].
Proof.
  destruct (save_img_stores_normalised_array Samples.K0 Samples.X0
              "identifier" (Samples.row_of (VStr "A") (VStr "http://h/a.jpg"))
              0 Samples.empty_world
              (add_dir "image_db/A" Samples.empty_world)
              "image_db/A/0_0.npy" (VStr "http://h/a.jpg") Samples.im32)
    as (w' & H & _ & _ & Hr & _).
  - vm_compute. reflexivity.
  - vm_compute. reflexivity.
  - reflexivity.
  - reflexivity.
  - reflexivity.
  - exists w'. split; [exact H|exact Hr].
Defined.

Lemma save_img_failed_download_witness :
  ∃ w',
    save_img Samples.K0 Samples.X1 "identifier"
      (Samples.row_of (VStr "A") (VStr "bad")) 1 Samples.empty_world
    = (Ok VNaN, w')
    ∧ requests w' = [(VStr "bad", 40%Z)]
    ∧ files w' = files Samples.empty_world.
Proof.
  destruct (save_img_failed_download Samples.K0 Samples.X1 "identifier"
              (Samples.row_of (VStr "A") (VStr "bad")) 1 Samples.empty_world
              (add_dir "image_db/A" Samples.empty_world)
              "image_db/A/1_0.npy") as [_ H].
  - vm_compute. reflexivity.
  - vm_compute. reflexivity.
  - destruct (H (VStr "bad") Timeout eq_refl eq_refl)
      as (w' & Hrun & Hreq & Hfiles & _).
    exists w'. split; [exact Hrun|]. split; [exact Hreq|exact Hfiles].
Defined.

(** ** The pool phase of [fetch_images]: what it never does *)

Section FetchEffects.
Context (K : Constants) (X : Externals).

(** What one unit may change, whatever it returns or raises. *)
Lemma save_img_world (col : string) (row : Series) (i : Z) (w : world) :
  let w' := snd (save_img K X col row i w) in
  dirs w ⊆ dirs w'
  ∧ log w' = log w
  ∧ (∀ q c, files w !! q = Some c → files w' !! q = Some c)
  ∧ (requests w' = requests w
     ∨ ∃ url, getitem row col = Ok url
              ∧ requests w' = requests w ++ [(url, 40%Z)]).
Proof.
  destruct (img_path_from_row K X row i "identifier" None w) as [[p|e] w1]
    eqn:Hp.
  2:{ rewrite (save_img_path_raise K X col row i w w1 e Hp). simpl.
      pose proof (img_path_from_row_world K X row i "identifier" None w) as Hw.
      rewrite Hp in Hw. simpl in Hw.
      destruct Hw as [->|(? & _ & _ & ->)]; simpl; auto 10.
      split; [set_solver|]. auto 10. }
  assert (dirs w ⊆ dirs w1 ∧ log w1 = log w ∧ files w1 = files w
          ∧ requests w1 = requests w) as (Hd & Hl & Hf & Hr).
  { pose proof (img_path_from_row_world K X row i "identifier" None w) as Hw.
    rewrite Hp in Hw. simpl in Hw.
    destruct Hw as [->|(? & _ & _ & ->)]; simpl; [done|].
    split; [set_solver|done]. }
  destruct (path_exists p w1) eqn:Hex.
  { rewrite (save_img_cached K X col row i w w1 p Hp Hex). simpl.
    rewrite Hl, Hf, Hr. auto 10. }
  rewrite (save_img_absent K X col row i w w1 p Hp Hex).
  destruct (getitem row col) as [url|e]; simpl.
  2:{ rewrite Hl, Hf, Hr. auto 10. }
  assert (∀ q c, files w !! q = Some c → q ≠ p) as Hne.
  { intros q c Hq ->. rewrite <- Hf in Hq.
    assert (path_exists p w1 = true); [|congruence].
    apply path_exists_true. right. apply elem_of_dom. eauto. }
  destruct (http_image X (requests w1) url 40) as [img|e]; simpl.
  2:{ rewrite Hl, Hf, Hr. split; [done|]. split; [done|]. split; [done|].
      right. eauto. }
  destruct (write_error X (add_request url 40 w1) p) as [e|]; simpl;
    rewrite Hl, Hr; (split; [done|]); (split; [done|]).
  - rewrite Hf. split; [done|]. right. eauto.
  - split; [|right; eauto]. intros q c Hq.
    rewrite lookup_insert_ne by (intros ->; by eapply Hne). by rewrite Hf.
Qed.

(** X9. The pool phase of a fetch never removes, overwrites or changes a
    file, and never removes a directory, whatever the units return or
    raise and in whatever order they complete: every file of the starting
    disk is there afterwards with the content it had.  Nothing is
    logged. *)
Theorem fetch_keeps_existing_files (df : DataFrame) (col : string)
    (sched : list nat) (w : world) :
  let w' := snd (fetch_paths K X df col sched w) in
  dirs w ⊆ dirs w'
  ∧ (∀ q c, files w !! q = Some c → files w' !! q = Some c)
  ∧ log w' = log w.
Proof.
  cbv zeta. rewrite fetch_paths_world.
  apply (run_units_keep K X
           (fun w' => dirs w ⊆ dirs w'
                      ∧ (∀ q c, files w !! q = Some c → files w' !! q = Some c)
                      ∧ log w' = log w)); [|done].
  intros pos i row wc _ (Hd & Hf & Hl).
  destruct (save_img_world col row i wc) as (Hd' & Hl' & Hf' & _).
  split; [set_solver|]. split; [|congruence]. eauto.
Qed.

Lemma completion_order_length (sched : list nat) (n : nat) :
  length (completion_order sched n) = n.
Proof.
  transitivity (length (seq 0 n)); [|apply length_seq].
  apply Permutation_length.
  apply NoDup_Permutation.
  - apply completion_order_NoDup.
  - apply NoDup_seq.
  - intros x. rewrite completion_order_elem, elem_of_seq. lia.
Qed.

(** The requests of a run of units: each is the request of a unit of its
    own, for the reference of the row of that unit; the units that made
    one are listed in the order in which they ran. *)
Lemma run_units_requests (col : string) (df : DataFrame) (ord : list nat) :
  ∀ (futs : list Future) (w : world),
    ∃ (ps : list nat) (new : list (value * Z)),
      requests (snd (fold_left (run_unit K X col df) ord (futs, w)))
      = requests w ++ new
      ∧ ps `sublist_of` ord
      ∧ Forall2 (fun pos r => ∃ i row url,
                   df !! pos = Some (i, row) ∧ getitem row col = Ok url
                   ∧ r = (url, 40%Z)) ps new.
Proof.
  induction ord as [|pos ord IH]; intros futs w.
  { exists [], []. simpl. rewrite app_nil_r. split; [done|].
    split; constructor. }
  cbn [fold_left]. unfold run_unit at 2.
  destruct (df !! pos) as [[i row]|] eqn:Hrow.
  2:{ destruct (IH futs w) as (ps & new & H1 & H2 & H3).
      exists ps, new. split; [done|]. split; [by apply sublist_cons|done]. }
  pose proof (save_img_world col row i w) as (_ & _ & _ & Hreq).
  destruct (save_img K X col row i w) as [r w1]. simpl in Hreq.
  destruct (IH (<[pos := Some r]> futs) w1) as (ps & new & H1 & H2 & H3).
  destruct Hreq as [Hreq|(url & Hurl & Hreq)]; rewrite H1, Hreq.
  - exists ps, new. split; [done|]. split; [by apply sublist_cons|done].
  - exists (pos :: ps), ((url, 40%Z) :: new).
    split; [by rewrite <- (assoc_L (++))|].
    split; [by apply sublist_skip|]. constructor; [|done].
    by exists i, row, url.
Qed.

(** X10. A fetch makes at most one request per record of the manifest:
    the requests it adds are those of pairwise distinct rows, one each,
    for the reference cell of that row with a timeout of 40.  Hence there
    are no more requests than records, and an empty manifest makes
    none. *)
Theorem fetch_requests_bounded (df : DataFrame) (col : string)
    (sched : list nat) (w : world) :
  ∃ (ps : list nat) (new : list (value * Z)),
    requests (snd (fetch_paths K X df col sched w)) = requests w ++ new
    ∧ NoDup ps
    ∧ Forall2 (fun pos r => ∃ i row url,
                 df !! pos = Some (i, row) ∧ getitem row col = Ok url
                 ∧ r = (url, 40%Z)) ps new
    ∧ length new ≤ length df
    ∧ (df = [] → new = []).
Proof.
  rewrite fetch_paths_world.
  destruct (run_units_requests col df (completion_order sched (length df))
              (repeat None (length df)) w) as (ps & new & H1 & H2 & H3).
  assert (Hlen : length new ≤ length df).
  { rewrite <- (Forall2_length _ _ _ H3).
    apply sublist_length in H2.
    by rewrite completion_order_length in H2. }
  exists ps, new. split; [done|]. split.
  { eapply sublist_NoDup; [apply completion_order_NoDup|exact H2]. }
  split; [done|]. split; [done|].
  intros ->. simpl in Hlen. destruct new; [done|simpl in Hlen; lia].
Qed.

End FetchEffects.

(** ** The order of completion does not show in the result *)

Section PathsAndDirectories.
Context (K : Constants).

Lemma append_inv_head (a s t : string) : a +:+ s = a +:+ t → s = t.
Proof.
  induction a as [|x a IH]; simpl String.append; [done|].
  intros [= H]. by apply IH.
Qed.

(** The directories above a path are the strings before one of its
    ["/"]. *)
Lemma parents_go_elem (rest : string) :
  ∀ seen q, q ∈ parents_go seen rest →
    ∃ a b, rest = a +:+ String "/" b ∧ q = seen +:+ a.
Proof.
  induction rest as [|x rest IH]; intros seen q Hq; simpl in Hq.
  { by apply elem_of_nil in Hq. }
  apply elem_of_app in Hq as [Hq|Hq].
  - destruct (Ascii.eqb_spec x "/") as [->|_]; [|by apply elem_of_nil in Hq].
    apply list_elem_of_singleton in Hq as ->.
    exists "", rest. by rewrite append_nil_r.
  - apply IH in Hq as (a & b & -> & ->).
    exists (String x a), b. split; [done|].
    by rewrite append_assoc.
Qed.

(** The path of a record is neither the directory of a species whose
    directory name has no ["/"], nor a directory above it. *)
Lemma record_path_not_dir (s9 : string) (i : Z) (dirname : string) :
  contains dirname "/" = false →
  let p := (IMGDIR_PATH K +:+ replace " " (DIRNAME_DELIM K) s9
              +:+ "/" +:+ pretty i) +:+ "_0.npy" in
  p ≠ IMGDIR_PATH K +:+ dirname
  ∧ p ∉ parents (IMGDIR_PATH K +:+ dirname).
Proof.
  intros Hd p.
  assert (∀ b, p +:+ b
               = IMGDIR_PATH K
                   +:+ (replace " " (DIRNAME_DELIM K) s9
                          +:+ String "/" (pretty i +:+ "_0.npy" +:+ b)))
    as Hp.
  { intros b. unfold p. by rewrite !append_assoc. }
  assert (∀ b, p +:+ b ≠ IMGDIR_PATH K +:+ dirname) as Hne.
  { intros b E. rewrite Hp in E. apply append_inv_head in E.
    rewrite <- E, contains_append in Hd.
    apply orb_false_elim in Hd as [_ Hd]. simpl in Hd. done. }
  split.
  - intros E. apply (Hne ""). by rewrite append_nil_r.
  - intros Hin. apply parents_go_elem in Hin as (a & b & E & Ea).
    simpl String.append in Ea. subst a. by apply (Hne (String "/" b)).
Qed.

(** Equal record paths have equal indices. *)
Lemma record_path_index (s9 s9' : string) (i i' : Z) :
  (IMGDIR_PATH K +:+ replace " " (DIRNAME_DELIM K) s9 +:+ "/" +:+ pretty i)
    +:+ "_0.npy"
  = (IMGDIR_PATH K +:+ replace " " (DIRNAME_DELIM K) s9' +:+ "/"
       +:+ pretty i') +:+ "_0.npy" →
  i = i'.
Proof.
  intros E. apply append_inv_tail, append_inv_head in E.
  apply cut_at_last in E as [_ E].
  - by apply (inj pretty).
  - apply pretty_Z_contains; [apply digit_not_slash|done].
  - apply pretty_Z_contains; [apply digit_not_slash|done].
Qed.

Lemma path_exists_add_dir_other (p d : string) (w : world) :
  p ≠ d → p ∉ parents d →
  path_exists p (add_dir d w) = path_exists p w.
Proof.
  intros Hne Hpar. unfold path_exists, add_dir. simpl. f_equal.
  apply bool_decide_ext. rewrite !elem_of_union, elem_of_singleton,
    elem_of_list_to_set. tauto.
Qed.

End PathsAndDirectories.

Section ScheduleIndependence.
Context (K : Constants) (X : Externals).
Context (col : string) (df : DataFrame) (w0 : world).

(** The libraries answer by what they are asked, not by what happened
    before: a directory can always be made, the answer of the network
    does not depend on the earlier calls, nor the failure of a write on
    the rest of the disk. *)
Hypothesis makedirs_succeeds : ∀ w p, makedirs_error X w p = None.
Hypothesis network_stateless :
  ∀ h h' url t, http_image X h url t = http_image X h' url t.
Hypothesis write_by_path : ∀ w w' p, write_error X w p = write_error X w' p.
(** The records have distinct index labels, and no directory name of a
    species holds a ["/"]. *)
Hypothesis labels_distinct : NoDup (map fst df).
Hypothesis species_flat :
  ∀ pos i row sp, df !! pos = Some (i, row) →
    getitem row "species" = Ok (VStr sp) →
    contains (replace " " (DIRNAME_DELIM K) sp) "/" = false.

(** The path of a record does not depend on the disk. *)
Lemma img_path_fst_stable (row : Series) (i : Z) (c : string)
    (extra : option string) (w w' : world) :
  fst (img_path_from_row K X row i c extra w)
  = fst (img_path_from_row K X row i c extra w').
Proof.
  unfold img_path_from_row. unfold_monad.
  destruct (getitem row "species") as [[sp| |n]|e]; simpl; try done.
  destruct (path_exists _ w), (path_exists _ w'); simpl;
    unfold makedirs; rewrite ?makedirs_succeeds;
    destruct (getitem row c) as [[s| |n]|e]; simpl; try done;
    destruct (Py.index _ _); simpl; try done;
    destruct (getpos row 9) as [[s9| |n]|e]; simpl; done.
Qed.

(** The disk while the units run: beyond the starting disk it holds
    directories of species and directories above them, and files at the
    paths of the units that have run. *)
Local Abbreviation pool_disk processed wc :=
  (disk_grows w0 wc
   ∧ (∀ q, q ∈ dirs wc →
        q ∈ dirs w0
        ∨ ∃ pos' i' row' sp,
            df !! pos' = Some (i', row')
            ∧ getitem row' "species" = Ok (VStr sp)
            ∧ (q = IMGDIR_PATH K +:+ replace " " (DIRNAME_DELIM K) sp
               ∨ q ∈ parents
                       (IMGDIR_PATH K +:+ replace " " (DIRNAME_DELIM K) sp)))
   ∧ (∀ q, q ∈ dom (files wc) →
        q ∈ dom (files w0)
        ∨ ∃ pos' i' row',
            pos' ∈ processed ∧ df !! pos' = Some (i', row')
            ∧ fst (img_path_from_row K X row' i' "identifier" None w0)
              = Ok q)).

(** The path of a unit that has not run exists on the disk of the pool
    exactly when it exists on the starting disk. *)
Lemma unprocessed_path_exists (processed : list nat) (wc : world)
    (pos : nat) (i : Z) (row : Series) (p : string) :
  pool_disk processed wc →
  pos ∉ processed →
  df !! pos = Some (i, row) →
  fst (img_path_from_row K X row i "identifier" None w0) = Ok p →
  path_exists p wc = path_exists p w0.
Proof.
  intros (Hg & Hdirs & Hfiles) Hpos Hrow Hp.
  destruct (img_path_from_row K X row i "identifier" None w0) as [r w1] eqn:E.
  simpl in Hp. subst r.
  apply img_path_from_row_ok in E as (_ & _ & s9 & _ & _ & _ & Ep & _).
  destruct (path_exists p w0) eqn:H0.
  { by apply (path_exists_grows _ w0). }
  destruct (path_exists p wc) eqn:Hc; [|done]. exfalso.
  assert (¬ (p ∈ dirs w0 ∨ p ∈ dom (files w0))) as Hnot.
  { rewrite <- path_exists_true. congruence. }
  apply path_exists_true in Hc as [Hc|Hc].
  - apply Hdirs in Hc as [Hc|(pos' & i' & row' & sp & Hrow' & Hsp & Hq)];
      [tauto|].
    pose proof (species_flat pos' i' row' sp Hrow' Hsp) as Hflat.
    destruct (record_path_not_dir K s9 i _ Hflat) as [Hne Hpar].
    rewrite <- Ep in Hne, Hpar. tauto.
  - apply Hfiles in Hc as [Hc|(pos' & i' & row' & Hin & Hrow' & Hq)];
      [tauto|].
    destruct (img_path_from_row K X row' i' "identifier" None w0)
      as [r' w1'] eqn:E'.
    simpl in Hq. subst r'.
    apply img_path_from_row_ok in E' as (_ & _ & s9' & _ & _ & _ & Ep' & _).
    rewrite Ep in Ep'. apply record_path_index in Ep'. subst i'.
    assert (pos = pos'); [|by subst].
    apply (NoDup_lookup (map fst df) pos pos' i labels_distinct);
      rewrite list_lookup_fmap.
    + exact (f_equal (fmap fst) Hrow).
    + exact (f_equal (fmap fst) Hrow').
Qed.

Lemma pool_disk_add_dir (processed : list nat) (wc : world) (pos : nat)
    (i : Z) (row : Series) (sp : string) :
  df !! pos = Some (i, row) → getitem row "species" = Ok (VStr sp) →
  pool_disk processed wc →
  pool_disk processed
    (add_dir (IMGDIR_PATH K +:+ replace " " (DIRNAME_DELIM K) sp) wc).
Proof.
  intros Hrow Hsp (Hg & Hdirs & Hfiles). split; [|split].
  - eapply disk_grows_trans; [done|apply disk_grows_add_dir].
  - intros q. simpl. rewrite !elem_of_union, elem_of_singleton,
      elem_of_list_to_set.
    intros [[->|Hq]|Hq]; [right|right|by apply Hdirs];
      exists pos, i, row, sp; auto.
  - exact Hfiles.
Qed.

Lemma pool_disk_more (processed : list nat) (wc : world) (pos : nat) :
  pool_disk processed wc → pool_disk (pos :: processed) wc.
Proof.
  intros (Hg & Hdirs & Hfiles). split; [done|]. split; [done|].
  intros q Hq. destruct (Hfiles q Hq) as [?|(pos' & i' & row' & ? & ?)];
    [by left|right]. exists pos', i', row'. split; [by right|done].
Qed.

Lemma pool_disk_add_request (processed : list nat) (wc : world) (url : value)
    (t : Z) :
  pool_disk processed wc → pool_disk processed (add_request url t wc).
Proof. done. Qed.

(** A unit returns on the disk of the pool what it returns on the
    starting disk, and leaves a disk of the pool. *)
Lemma unit_solo (processed : list nat) (wc : world) (pos : nat) (i : Z)
    (row : Series) :
  pool_disk processed wc →
  pos ∉ processed →
  df !! pos = Some (i, row) →
  fst (save_img K X col row i wc) = fst (save_img K X col row i w0)
  ∧ pool_disk (pos :: processed) (snd (save_img K X col row i wc)).
Proof.
  intros Hinv Hpos Hrow.
  pose proof (img_path_fst_stable row i "identifier" None wc w0) as Hfst.
  pose proof (img_path_from_row_world K X row i "identifier" None wc) as Hwc.
  pose proof (img_path_from_row_world K X row i "identifier" None w0) as Hw0.
  destruct (img_path_from_row K X row i "identifier" None wc) as [r wc1]
    eqn:Ec.
  destruct (img_path_from_row K X row i "identifier" None w0) as [r0 w01]
    eqn:E0.
  simpl in Hfst, Hwc, Hw0. subst r0.
  assert (pool_disk processed wc1) as Hinv1.
  { destruct Hwc as [->|(sp & Hsp & _ & ->)]; [done|].
    by apply (pool_disk_add_dir processed wc pos i row sp). }
  destruct r as [p|e].
  2:{ rewrite (save_img_path_raise K X col row i wc wc1 e Ec),
        (save_img_path_raise K X col row i w0 w01 e E0).
      split; [done|]. by apply pool_disk_more. }
  assert (path_exists p wc1 = path_exists p w01) as Hex.
  { assert (fst (img_path_from_row K X row i "identifier" None w0) = Ok p)
      as Hp by (by rewrite E0).
    assert (path_exists p w01 = path_exists p w0) as ->.
    { destruct Hw0 as [->|(sp & Hsp & _ & ->)]; [done|].
      pose proof E0 as E0'.
      apply img_path_from_row_ok in E0'
        as (_ & _ & s9 & _ & _ & _ & Ep & _).
      destruct (record_path_not_dir K s9 i _ (species_flat pos i row sp Hrow Hsp))
        as [Hne Hpar].
      rewrite <- Ep in Hne, Hpar. by apply path_exists_add_dir_other. }
    by apply (unprocessed_path_exists processed wc1 pos i row p). }
  destruct (path_exists p w01) eqn:H01.
  { rewrite (save_img_cached K X col row i wc wc1 p Ec Hex),
      (save_img_cached K X col row i w0 w01 p E0 H01).
    split; [done|]. by apply pool_disk_more. }
  rewrite (save_img_absent K X col row i wc wc1 p Ec Hex),
    (save_img_absent K X col row i w0 w01 p E0 H01).
  destruct (getitem row col) as [url|e]; [|split; [done|by apply pool_disk_more]].
  rewrite (network_stateless (requests wc1) (requests w01)).
  destruct (http_image X (requests w01) url 40) as [img|e].
  2:{ split; [done|]. by apply pool_disk_more, pool_disk_add_request. }
  rewrite (write_by_path (add_request url 40 wc1) (add_request url 40 w01)).
  destruct (write_error X (add_request url 40 w01) p) as [e|].
  { split; [done|]. by apply pool_disk_more, pool_disk_add_request. }
  split; [done|]. destruct Hinv1 as (Hg & Hdirs & Hfiles).
  split; [|split].
  - eapply disk_grows_trans; [done|].
    eapply disk_grows_trans;
      [apply disk_grows_add_request|apply disk_grows_add_file].
  - exact Hdirs.
  - intros q. simpl. rewrite dom_insert, elem_of_union, elem_of_singleton.
    intros [->|Hq].
    + right. exists pos, i, row. split; [by left|]. split; [done|].
      by rewrite E0.
    + destruct (Hfiles q Hq) as [?|(pos' & i' & row' & ? & ?)];
        [by left|right]. exists pos', i', row'. split; [by right|done].
Qed.

Lemma run_units_solo (ord : list nat) :
  ∀ (processed : list nat) (futs : list Future) (wc : world),
    NoDup ord →
    (∀ pos, pos ∈ ord → pos ∉ processed) →
    (∀ pos, pos ∈ ord → pos < length futs) →
    pool_disk processed wc →
    ∃ futs' wc',
      fold_left (run_unit K X col df) ord (futs, wc) = (futs', wc')
      ∧ length futs' = length futs
      ∧ (∀ pos, pos ∉ ord → futs' !! pos = futs !! pos)
      ∧ (∀ pos i row, pos ∈ ord → df !! pos = Some (i, row) →
           futs' !! pos = Some (Some (fst (save_img K X col row i w0)))).
Proof.
  induction ord as [|pos ord IH]; intros processed futs wc Hnd Hnew Hlt Hinv.
  { exists futs, wc. split; [done|]. split; [done|]. split; [done|].
    intros pos i row Hin. by apply elem_of_nil in Hin. }
  apply NoDup_cons in Hnd as [Hpos Hnd].
  cbn [fold_left]. unfold run_unit at 2.
  destruct (df !! pos) as [[i row]|] eqn:Hrow.
  - destruct (unit_solo processed wc pos i row Hinv) as [Hr Hinv1];
      [apply Hnew; by left|done|].
    destruct (save_img K X col row i wc) as [r wc1]. simpl in Hr, Hinv1.
    destruct (IH (pos :: processed) (<[pos := Some r]> futs) wc1 Hnd)
      as (futs' & wc' & Hrun & Hlen & Hout & Hin); [| |done|].
    { intros pos' Hin' [->|Hp]%elem_of_cons; [done|].
      revert Hp. apply Hnew. by right. }
    { intros pos' Hin'. rewrite length_insert. apply Hlt. by right. }
    exists futs', wc'. split; [done|].
    split; [by rewrite Hlen, length_insert|]. split.
    + intros pos' Hnot. rewrite Hout by (intros ?; apply Hnot; by right).
      apply list_lookup_insert_ne. intros ->. apply Hnot. by left.
    + intros pos' i' row' [->|Hin']%elem_of_cons Hrow'.
      * rewrite Hout by done. unfold Future in *.
        rewrite Hrow in Hrow'. injection Hrow' as <- <-.
        rewrite list_lookup_insert_eq by (apply Hlt; by left).
        by rewrite Hr.
      * by apply Hin.
  - destruct (IH processed futs wc Hnd)
      as (futs' & wc' & Hrun & Hlen & Hout & Hin); [| |done|].
    { intros pos' Hin'. apply Hnew. by right. }
    { intros pos' Hin'. apply Hlt. by right. }
    exists futs', wc'. split; [done|]. split; [done|]. split.
    + intros pos' Hnot. apply Hout. intros ?. apply Hnot. by right.
    + intros pos' i' row' [->|Hin']%elem_of_cons Hrow'.
      * unfold Future in *. congruence.
      * by apply Hin.
Qed.

(** Reading the futures gives a result that depends on them alone. *)
Lemma collect_fst (items : list (nat * Future)) :
  ∀ (acc : list value) (w w' : world),
    fst (for_each (fun paths '(i, ft) =>
                     r ← future_result ft;
                     lift (setitem paths (Z.of_nat i) r))
           acc items w)
    = fst (for_each (fun paths '(i, ft) =>
                       r ← future_result ft;
                       lift (setitem paths (Z.of_nat i) r))
             acc items w').
Proof.
  induction items as [|[i ft] items IH]; intros acc w w'; [done|].
  cbn [for_each]. unfold mbind at 1 3. unfold M_bind at 1 3.
  unfold_monad. destruct ft as [[v|e]|]; simpl; try done.
  destruct (setitem acc (Z.of_nat i) v) as [acc'|e]; [|done]. apply IH.
Qed.

(** The futures after the wait, whatever the order of completion. *)
Lemma submit_and_wait_solo (sched : list nat) :
  ∃ futs w',
    submit_and_wait K X col df sched w0 = (Ok futs, w')
    ∧ length futs = length df
    ∧ ∀ pos i row, df !! pos = Some (i, row) →
        futs !! pos = Some (Some (fst (save_img K X col row i w0))).
Proof.
  destruct (run_units_solo (completion_order sched (length df)) []
              (repeat None (length df)) w0)
    as (futs & w' & Hrun & Hlen & _ & Hin).
  - apply completion_order_NoDup.
  - intros pos _ Hp. by apply elem_of_nil in Hp.
  - intros pos Hp. rewrite repeat_length.
    by apply (completion_order_elem sched).
  - split; [apply disk_grows_refl|]. split; [by left|by left].
  - exists futs, w'.
    split; [unfold submit_and_wait, Future in *; by rewrite Hrun|].
    split; [by rewrite Hlen, repeat_length|].
    intros pos i row Hrow. apply (Hin pos i row); [|done].
    apply completion_order_elem. by apply lookup_lt_Some in Hrow.
Qed.

(** X11. With libraries that answer by what they are asked (a directory
    can always be made, the network does not remember, a write fails by
    its path alone), distinct index labels and species names without
    ["/"], the result of the pool phase of a fetch does not depend on the
    order in which the pool completes the units: every schedule gives the
    same list, or the same exception, and each record gets the value that
    its unit returns when it runs alone on the starting disk. *)
Theorem fetch_result_independent_of_schedule (sched1 sched2 : list nat) :
  fst (fetch_paths K X df col sched1 w0)
  = fst (fetch_paths K X df col sched2 w0)
  ∧ ∀ paths, fst (fetch_paths K X df col sched1 w0) = Ok paths →
      ∀ pos i row, df !! pos = Some (i, row) →
        ∃ v, fst (save_img K X col row i w0) = Ok v
             ∧ paths !! pos = Some v.
Proof.
  destruct (submit_and_wait_solo sched1) as (futs1 & w1 & Hrun1 & Hlen1 & H1).
  destruct (submit_and_wait_solo sched2) as (futs2 & w2 & Hrun2 & Hlen2 & H2).
  assert (futs1 = futs2) as Heq.
  { apply list_eq. intros pos.
    destruct (df !! pos) as [[i row]|] eqn:Hrow.
    - exact (eq_trans (H1 pos i row Hrow) (eq_sym (H2 pos i row Hrow))).
    - apply lookup_ge_None in Hrow.
      transitivity (@None Future); [|symmetry];
        apply lookup_ge_None_2; unfold Future in *; lia. }
  subst futs2. split.
  - unfold fetch_paths. unfold mbind at 1 3. unfold M_bind at 1 3.
    rewrite Hrun1, Hrun2. apply collect_fst.
  - intros paths Hpaths pos i row Hrow.
    destruct (fetch_paths K X df col sched1 w0) as [r w'] eqn:E.
    simpl in Hpaths. subst r. unfold fetch_paths in E.
    unfold mbind at 1 in E. unfold M_bind at 1 in E. rewrite Hrun1 in E.
    apply (collect_inv futs1 0 [] (full_nan (length df))) in E
      as (_ & vs & Hvs & ->);
      [|done|unfold full_nan; rewrite repeat_length; congruence].
    change ([] ++ vs) with vs.
    destruct (Forall2_lookup_l _ _ _ _ _ Hvs (H1 pos i row Hrow))
      as (v & Hv & [= Hr]).
    exists v. done.
Qed.

End ScheduleIndependence.

Lemma fetch_result_independent_of_schedule_witness :
  fst (fetch_paths Samples.K0 Samples.X1 Samples.df3 "identifier" [2; 0; 1]
         Samples.empty_world)
  = fst (fetch_paths Samples.K0 Samples.X1 Samples.df3 "identifier" []
           Samples.empty_world).
Proof.
  apply (fetch_result_independent_of_schedule Samples.K0 Samples.X1
           "identifier" Samples.df3 Samples.empty_world).
  - reflexivity.
  - reflexivity.
  - reflexivity.
  - simpl.
    repeat (apply NoDup_cons_2;
            [intros H; repeat (apply elem_of_cons in H as [H|H]; [done|]);
             by apply elem_of_nil in H|]).
    apply NoDup_nil_2.
  - intros [|[|[|pos]]] i row sp; intros [= <- <-] [= <-]; reflexivity.
Defined.

(** ** The other modes of the augmentation, and its failures *)

Section AugmentModes.
Context (X : Externals).

(** The loop of mode ["rotate"], for any list of quarter turns. *)
Lemma augment_rotate_loop (codec : string → Image → Image)
    (dir name stem : string) (rest : list string) (im : Image)
    (turns : list Z) :
  (∀ w p, write_error X w p = None) →
  (∀ p i, save_format X p i = Ok (codec p i)) →
  split name "." = Ok (stem :: rest) →
  contains stem "." = false →
  (name = stem ∨ ∃ t, name = stem +:+ String "." t) →
  ∀ w : world,
    files w !! (dir +:+ "/" +:+ name) = Some (Picture im) →
    for_each (fun _ i => rotate_and_save_image X dir name (i * 90)) tt turns w
    = (Ok tt,
       foldl (fun w i =>
                let pr := dir +:+ "/" +:+ stem +:+ "_"
                            +:+ pretty (i * 90)%Z +:+ ".jpg" in
                add_file pr (Picture (codec pr (rotate_expand X im (i * 90))))
                  w)
         w turns).
Proof.
  intros Hw Hfmt Hsplit Hs Hcut.
  induction turns as [|i turns IH]; intros w Hfile; [done|].
  cbn [for_each foldl]. unfold mbind at 1. unfold M_bind at 1.
  rewrite (rotate_and_save_image_ok X dir name stem rest (i * 90) im
             (codec (dir +:+ "/" +:+ stem +:+ "_" +:+ pretty (i * 90)%Z
                       +:+ ".jpg")
                (rotate_expand X im (i * 90))) w) by done.
  cbv zeta. apply IH. simpl.
  rewrite lookup_insert_ne; [done|].
  intros E; symmetry in E; revert E; by apply original_is_kept.
Qed.

(** The name of a flipped file is not the name it was flipped from. *)
Lemma original_is_not_flipped (dir name stem : string) :
  (name = stem ∨ ∃ t, name = stem +:+ String "." t) →
  dir +:+ "/" +:+ name ≠ dir +:+ "/" +:+ stem +:+ "f.jpg".
Proof.
  intros Hcut E. apply append_inv_head in E.
  simpl String.append in E. injection E as E.
  destruct Hcut as [->|[t ->]].
  - apply (f_equal String.length) in E. rewrite append_length in E.
    simpl in E. lia.
  - by apply append_inv_head in E.
Qed.


End AugmentModes.


Section AugmentFailures.
Context (X : Externals).

(** A loop whose body always returns, and keeps a property of the world,
    returns and keeps it. *)
Lemma for_each_returns {A} (P : world → Prop) (body : unit → A → M unit)
    (items : list A) :
  (∀ x w, P w → ∃ w', body tt x w = (Ok tt, w') ∧ P w') →
  ∀ w, P w → ∃ w', for_each body tt items w = (Ok tt, w') ∧ P w'.
Proof.
  intros Hbody. induction items as [|x items IH]; intros w Hw.
  { by exists w. }
  cbn [for_each]. unfold mbind at 1. unfold M_bind at 1.
  destruct (Hbody x w Hw) as (w1 & -> & Hw1). by apply IH.
Qed.

(** Saving a derived image: whether it succeeds or fails with an
    [OSError], the world changes by that one picture file at most. *)
Lemma derive_and_save (derive : Image → Image) (dir name : string)
    (target : string → string) (w : world) :
  (∀ w p e, write_error X w p = Some e → e = OSError) →
  (∀ p im e, save_format X p im = Raise e → e = OSError) →
  ∃ w',
    try_except
      (image ← image_open (VStr (dir +:+ "/" +:+ name));
       let derived := derive image in
       parts ← lift (split name ".");
       stem ← lift (Py.index parts 0);
       image_save X derived (target stem))
      (fun e => match e with
                | OSError => mret tt
                | _ => raise e
                end) w = (Ok tt, w')
    ∧ (w' = w ∨ ∃ p im, w' = add_file p (Picture im) w)
    ∧ (¬ (∃ im, files w !! (dir +:+ "/" +:+ name) = Some (Picture im)) →
       w' = w).
Proof.
  intros Hwr Hfmt.
  destruct (stem_of_name name) as (stem & rest & Hsplit & _ & _).
  unfold image_open, image_save, write_file. unfold_monad.
  destruct (files w !! (dir +:+ "/" +:+ name)) as [[arr|im|t]|] eqn:Hfile;
    try (exists w; split; [done|]; split; [by left|done]).
  rewrite Hsplit, index_first.
  destruct (save_format X (target stem) (derive im)) as [stored|e] eqn:Hs.
  2:{ rewrite (Hfmt _ _ _ Hs). exists w. split; [done|].
      split; [by left|done]. }
  destruct (write_error X w (target stem)) as [e|] eqn:He.
  { rewrite (Hwr _ _ _ He). exists w. split; [done|]. split; [by left|done]. }
  eexists. split; [done|]. split; [right; eauto|].
  intros Hno. destruct Hno. eauto.
Qed.

Lemma rotate_and_save_image_returns (dir name : string) (d : Z) (w : world) :
  (∀ w p e, write_error X w p = Some e → e = OSError) →
  (∀ p im e, save_format X p im = Raise e → e = OSError) →
  ∃ w', rotate_and_save_image X dir name d w = (Ok tt, w')
        ∧ (w' = w ∨ ∃ p im, w' = add_file p (Picture im) w)
        ∧ (¬ (∃ im, files w !! (dir +:+ "/" +:+ name) = Some (Picture im)) →
           w' = w).
Proof.
  intros Hwr Hfmt.
  exact (derive_and_save (fun im => rotate_expand X im d) dir name
           (fun stem => dir +:+ "/" +:+ stem +:+ "_" +:+ pretty d +:+ ".jpg")
           w Hwr Hfmt).
Qed.

Lemma flip_and_save_image_returns (dir name : string) (w : world) :
  (∀ w p e, write_error X w p = Some e → e = OSError) →
  (∀ p im e, save_format X p im = Raise e → e = OSError) →
  ∃ w', flip_and_save_image X dir name w = (Ok tt, w')
        ∧ (w' = w ∨ ∃ p im, w' = add_file p (Picture im) w)
        ∧ (¬ (∃ im, files w !! (dir +:+ "/" +:+ name) = Some (Picture im)) →
           w' = w).
Proof.
  intros Hwr Hfmt.
  exact (derive_and_save (flip_left_right X) dir name
           (fun stem => dir +:+ "/" +:+ stem +:+ "f.jpg") w Hwr Hfmt).
Qed.


End AugmentFailures.


Section AugmentAfterFetch.
Context (K : Constants) (X : Externals).

(** A file that is no picture is passed over. *)
Lemma rotate_and_flip_skip (dir name : string) (d : Z) (w : world) :
  (∀ q im, files w !! q ≠ Some (Picture im)) →
  rotate_and_save_image X dir name d w = (Ok tt, w)
  ∧ flip_and_save_image X dir name w = (Ok tt, w).
Proof.
  intros Hno.
  unfold rotate_and_save_image, flip_and_save_image, image_open.
  unfold_monad.
  destruct (files w !! (dir +:+ "/" +:+ name)) as [[arr|im|t]|] eqn:Hfile;
    try done.
  by destruct (Hno _ _ Hfile).
Qed.

(** A unit of the fetch stores no picture. *)
Lemma save_img_no_picture (col : string) (row : Series) (i : Z) (w : world) :
  (∀ q im, files w !! q ≠ Some (Picture im)) →
  ∀ q im, files (snd (save_img K X col row i w)) !! q ≠ Some (Picture im).
Proof.
  intros Hno.
  pose proof (img_path_from_row_world K X row i "identifier" None w) as Hw.
  destruct (img_path_from_row K X row i "identifier" None w) as [[p|e] w1]
    eqn:Hp; simpl in Hw.
  2:{ rewrite (save_img_path_raise K X col row i w w1 e Hp). simpl.
      by destruct Hw as [->|(? & _ & _ & ->)]. }
  assert (files w1 = files w) as Hf
    by (by destruct Hw as [->|(? & _ & _ & ->)]).
  destruct (path_exists p w1) eqn:Hex.
  { rewrite (save_img_cached K X col row i w w1 p Hp Hex). simpl.
    by rewrite Hf. }
  rewrite (save_img_absent K X col row i w w1 p Hp Hex).
  destruct (getitem row col) as [url|e]; simpl; [|by rewrite Hf].
  destruct (http_image X (requests w1) url 40) as [img|e]; simpl;
    [|by rewrite Hf].
  destruct (write_error X (add_request url 40 w1) p) as [e|]; simpl;
    rewrite Hf; [done|].
  intros q im. destruct (decide (p = q)) as [->|Hne].
  - by rewrite lookup_insert_eq.
  - rewrite lookup_insert_ne by done. apply Hno.
Qed.

(** X14. The fetch stores arrays, and an array is no picture for the
    augmentation: on a disk without picture files [create_augmented_images]
    derives nothing and leaves the world as it is, in every mode and for
    every tree; and a disk without picture files has none after the pool
    phase of a fetch.  So an augmentation that follows fetches alone is
    without effect. *)
Theorem augmentation_skips_fetched_arrays (w : world) :
  (∀ q im, files w !! q ≠ Some (Picture im)) →
  (∀ top degrees, create_augmented_images X top degrees w = (Ok tt, w))
  ∧ ∀ df col sched top degrees,
      let w1 := snd (fetch_paths K X df col sched w) in
      create_augmented_images X top degrees w1 = (Ok tt, w1).
Proof.
  assert (∀ w, (∀ q im, files w !! q ≠ Some (Picture im)) →
            ∀ top degrees,
              create_augmented_images X top degrees w = (Ok tt, w)) as Hskip.
  { clear w. intros w Hno top degrees. unfold create_augmented_images.
    destruct (for_each_returns (fun w' => w' = w)
                (fun _ (sub_dir : string * list string * list string) =>
                   let '(sub_dir0, _, sub_dir2) := sub_dir in
                   for_each (fun _ image_name =>
                     augment_file X degrees sub_dir0 image_name) tt sub_dir2)
                (os_walk X w top)) with (w := w) as (w' & Hrun & ->);
      [|done|done].
    intros [[sub_dir0 sub_dir1] sub_dir2] w1 ->.
    apply (for_each_returns (fun w' => w' = w)); [|done].
    intros image_name w2 ->. unfold augment_file.
    destruct (String.eqb "all" degrees).
    { apply (for_each_returns (fun w' => w' = w)); [|done]. intros i w3 ->.
      unfold mbind at 1. unfold M_bind at 1.
      destruct (rotate_and_flip_skip sub_dir0 image_name (i * 90) w Hno)
        as [-> _].
      destruct (stem_of_name image_name) as (stem & rest & Hsplit & _ & _).
      unfold mbind at 1. unfold M_bind at 1. unfold lift at 1.
      rewrite Hsplit.
      unfold mbind at 1. unfold M_bind at 1. unfold lift at 1.
      rewrite index_first.
      destruct (rotate_and_flip_skip sub_dir0
                  (stem +:+ "_" +:+ pretty (i * 90)%Z +:+ ".jpg") 0 w Hno)
        as [_ ->].
      by exists w. }
    destruct (String.eqb "rotate" degrees).
    { apply (for_each_returns (fun w' => w' = w)); [|done]. intros i w3 ->.
      destruct (rotate_and_flip_skip sub_dir0 image_name (i * 90) w Hno)
        as [-> _].
      by exists w. }
    destruct (String.eqb "flip" degrees).
    { destruct (rotate_and_flip_skip sub_dir0 image_name 0 w Hno) as [_ ->].
      by exists w. }
    by exists w. }
  intros Hno. split; [by apply Hskip|].
  intros df col sched top degrees w1. apply Hskip. unfold w1.
  rewrite fetch_paths_world.
  apply (run_units_keep K X
           (fun w' => ∀ q im, files w' !! q ≠ Some (Picture im))); [|done].
  intros pos i row wc _ Hwc. by apply save_img_no_picture.
Qed.

End AugmentAfterFetch.

(** The theorem at a disk that holds one array, after the fetch of the
    sample manifest has added three: the walk lists the arrays of the
    directory, and the augmentation passes them over. *)
Lemma augmentation_skips_fetched_arrays_witness :
  let w0 := add_file "image_db/A/9_0.npy" (Npy Samples.im32)
              Samples.empty_world in
  let w1 := snd (fetch_paths Samples.K0 Samples.X2 Samples.df3 "identifier"
                   [] w0) in
  originals (os_walk Samples.X2 w1 "image_db/A")
  = [("image_db/A", "9_0.npy"); ("image_db/A", "1_0.npy");
     ("image_db/A", "0_0.npy")]
  ∧ create_augmented_images Samples.X2 "image_db/A" "all" w1 = (Ok tt, w1).
Proof.
  intros w0 w1. split; [vm_compute; reflexivity|].
  apply (proj2 (augmentation_skips_fetched_arrays Samples.K0 Samples.X2 w0
                  ltac:(intros q im; unfold w0; simpl;
                        destruct (decide ("image_db/A/9_0.npy" = q))
                          as [<-|Hne];
                        [rewrite lookup_insert_eq; discriminate
                        |rewrite lookup_insert_ne by done;
                         rewrite lookup_empty; discriminate]))
           Samples.df3 "identifier" [] "image_db/A" "all").
Defined.

(** ** The feature pass: what it keeps, where it stops, a second pass *)

Section FeaturePassEffects.
Context (K : Constants) (X : Externals).

(** Directories stay, files stay with their content, no request is
    made. *)
Local Abbreviation kept w w' :=
  (dirs w ⊆ dirs w'
   ∧ requests w' = requests w
   ∧ ∀ q c, files w !! q = Some c → files w' !! q = Some c).

Lemma pre_process_row_keeps (self : FeatureExtractor) (feature : string)
    (should_bb should_resize : bool) (method : option string)
    (radius : option Z) (paths : list value) (ir : Z * Series) (w : world) :
  kept w (snd (pre_process_row K X self feature should_bb should_resize
                 method radius paths ir w)).
Proof.
  destruct ir as [i row].
  unfold pre_process_row. unfold_monad. cbv beta iota.
  pose proof (path_from_row_ft_world K self row (Some feature)
                (add_log (repr_row X row) w)) as Hw1.
  destruct (path_from_row_ft K self row (Some feature)
              (add_log (repr_row X row) w)) as [[p_new|e] w1] eqn:E.
  2:{ simpl in *. by destruct Hw1 as [->|[msg ->]]. }
  clear Hw1. pose proof E as E'.
  apply path_from_row_ft_run in E' as (msg & v & l & Hv & Hrun & Hlrun).
  rewrite Hrun in E. injection E as <-.
  rewrite Hlrun. cbv beta iota. rewrite !path_exists_add_log.
  set (w2 := add_log msg (add_log msg (add_log (repr_row X row) w))).
  assert (kept w w2) as H2 by done.
  destruct (path_exists p_new w) eqn:Hex; cbn [negb]; cbv iota.
  { by destruct (setitem paths i (VStr p_new)). }
  rewrite Hv. cbv beta iota. unfold image_open.
  destruct v as [src| |n]; try done.
  destruct (files w2 !! src) as [[arr|img|df]|]; try done.
  cbv beta iota.
  assert (∀ c, kept w (add_file p_new c (add_dir l w2))) as H3.
  { intros c. split; [simpl; apply union_subseteq_r|]. split; [done|].
    intros q c' Hq. simpl. rewrite lookup_insert_ne; [done|].
    intros ->. assert (path_exists q w = true); [|congruence].
    apply path_exists_true. right. apply elem_of_dom. eauto. }
  assert (kept w (add_dir l w2)) as H4.
  { split; [simpl; apply union_subseteq_r|done]. }
  assert (∀ (img : Image) (ps : list value),
            kept w (snd ((makedirs X l;; image_save X img p_new;; mret ps)
                           w2))) as Htail.
  { intros im ps. unfold makedirs, image_save, write_file. unfold_monad.
    destruct (makedirs_error X w2 l); [done|].
    destruct (save_format X p_new im); [|done]. cbv beta iota.
    destruct (write_error X (add_dir l w2) p_new); [done|]. apply H3. }
  unfold_monad.
  destruct (String.eqb feature "lbp").
  { destruct (setitem paths i (VStr p_new)); [|done].
    cbv beta iota zeta. apply Htail. }
  destruct (String.eqb feature "sift"), (String.eqb feature "glcm");
    cbv beta iota zeta; apply Htail.
Qed.

(** X15. A feature pass makes no network request, removes no directory
    and removes or changes no file other than the manifest file, which it
    rewrites at its end; this holds whether the pass returns or raises.
    A feature file that exists is never written again. *)
Theorem pre_process_keeps_files (self : FeatureExtractor) (df : DataFrame)
    (feature : string) (should_bb should_resize : bool)
    (method : option string) (radius : option Z) (w : world) :
  let w' := snd (pre_process K X self df feature should_bb should_resize
                   method radius w) in
  dirs w ⊆ dirs w'
  ∧ requests w' = requests w
  ∧ ∀ q c, q ≠ DATASET_PATH K → files w !! q = Some c →
           files w' !! q = Some c.
Proof.
  assert (∀ (todo : DataFrame) (paths : list value) (w1 : world),
            kept w w1 →
            kept w (snd (for_each
                           (pre_process_row K X self feature should_bb
                              should_resize method radius) paths todo w1)))
    as Hloop.
  { induction todo as [|ir todo IH]; intros paths w1 H1; [done|].
    cbn [for_each]. unfold mbind, M_bind.
    pose proof (pre_process_row_keeps self feature should_bb should_resize
                  method radius paths ir w1) as (Hd & Hr & Hf).
    destruct H1 as (Hd1 & Hr1 & Hf1).
    destruct (pre_process_row K X self feature should_bb should_resize method
                radius paths ir w1) as [[paths1|e] w2]; simpl in *.
    - apply IH. split; [by etrans|]. split; [congruence|]. eauto.
    - split; [by etrans|]. split; [congruence|]. eauto. }
  specialize (Hloop df (full_nan (length df)) w).
  cbv zeta. unfold pre_process. unfold mbind, M_bind.
  destruct (for_each _ _ df w) as [[paths|e] w1]; simpl in Hloop.
  2:{ destruct Hloop as (Hd & Hr & Hf); [done|]. simpl. eauto. }
  destruct Hloop as (Hd & Hr & Hf); [done|].
  unfold to_csv, write_file. unfold_monad.
  destruct (write_error X w1 (DATASET_PATH K)); simpl; [eauto|].
  split; [done|]. split; [done|]. intros q c Hq Hfile.
  rewrite lookup_insert_ne by done. eauto.
Qed.

End FeaturePassEffects.

Section FeaturePassStops.
Context (K : Constants) (X : Externals).

(** X16. A feature pass stops with an [OSError] at its first record when
    the feature file of that record is absent and its image is not a
    picture file: a missing file, or an array as the fetch stores it.
    Nothing has been written then, not even the manifest; only the logger
    has records. *)
Theorem pre_process_stops_at_array (self : FeatureExtractor) (i : Z)
    (row : Series) (rest : DataFrame) (feature : string)
    (should_bb should_resize : bool) (method : option string)
    (radius : option Z) (w : world) (p_new src : string) :
  fst (path_from_row_ft K self row (Some feature) w) = Ok p_new →
  path_exists p_new w = false →
  getitem row "path" = Ok (VStr src) →
  (∀ im, files w !! src ≠ Some (Picture im)) →
  ∃ w',
    pre_process K X self ((i, row) :: rest) feature should_bb should_resize
      method radius w = (Raise OSError, w')
    ∧ same_disk w w' ∧ requests w' = requests w.
Proof.
  intros Hp Hex Hsrc Hno.
  destruct (path_from_row_ft K self row (Some feature) w) as [r w1] eqn:E.
  simpl in Hp. subst r.
  apply path_from_row_ft_run in E as (msg & v & l & Hv & Hrun & Hlrun).
  unfold pre_process. cbn [for_each].
  unfold mbind at 1. unfold M_bind at 1.
  unfold mbind at 1. unfold M_bind at 1.
  assert (pre_process_row K X self feature should_bb should_resize method
            radius (full_nan (length ((i, row) :: rest))) (i, row) w
          = (Raise OSError,
             add_log msg (add_log msg (add_log (repr_row X row) w)))) as ->.
  { unfold pre_process_row. unfold_monad. cbv beta iota.
    rewrite Hrun, Hlrun. cbv beta iota.
    rewrite !path_exists_add_log, Hex.
    cbn [negb]. cbv iota. rewrite Hsrc. cbv beta iota.
    unfold image_open. cbn [files add_log].
    destruct (files w !! src) as [[arr|im|t]|] eqn:Hfile; try done.
    by destruct (Hno im). }
  eexists. split; [reflexivity|]. done.
Qed.

End FeaturePassStops.

Lemma pre_process_stops_at_array_witness :
  fst (pre_process Samples.K0 Samples.X0 Samples.fe0
         [(0%Z, [("species", VStr "A"); ("path", VStr "image_db/A/0_0.npy")])]
         "lbp" true false None None
         (add_file "image_db/A/0_0.npy" (Npy Samples.im32)
            Samples.empty_world))
  = Raise OSError.
Proof.
  destruct (pre_process_stops_at_array Samples.K0 Samples.X0 Samples.fe0 0
              [("species", VStr "A"); ("path", VStr "image_db/A/0_0.npy")]
              [] "lbp" true false None None
              (add_file "image_db/A/0_0.npy" (Npy Samples.im32)
                 Samples.empty_world)
              "image_db/feature_lbp/A/0_0.npy" "image_db/A/0_0.npy")
    as (w' & Hrun & _).
  - vm_compute. reflexivity.
  - vm_compute. reflexivity.
  - reflexivity.
  - intros im. vm_compute. discriminate.
  - exact (f_equal fst Hrun).
Defined.

Section SecondPass.
Context (K : Constants) (X : Externals).

Lemma setcell_setcell (row : Series) (label : string) (v v' : value) :
  setcell (setcell row label v) label v' = setcell row label v'.
Proof.
  induction row as [|[k x] row IH]; simpl.
  - by rewrite String.eqb_refl.
  - destruct (String.eqb k label) eqn:E; simpl; rewrite E; [done|].
    by rewrite IH.
Qed.

(** The feature path of a row is read from its ["path"] cell alone. *)
Lemma path_from_row_ft_ext (self : FeatureExtractor) (row row' : Series)
    (feature : option string) (w : world) :
  getitem row' "path" = getitem row "path" →
  path_from_row_ft K self row' feature w
  = path_from_row_ft K self row feature w.
Proof.
  intros E. unfold path_from_row_ft, l_dirpath_from_row. by rewrite E.
Qed.

(** The loop over rows whose feature files all exist: every path is
    recorded, the disk stays as it is. *)
Lemma pre_process_loop_reuse (self : FeatureExtractor) (feature : string)
    (should_bb should_resize : bool) (method : option string)
    (radius : option Z) (todo : DataFrame) :
  ∀ (k : nat) (paths : list value) (w : world),
    (∀ j i row, todo !! j = Some (i, row) → i = Z.of_nat (k + j)) →
    k + length todo ≤ length paths →
    (∀ j i row, todo !! j = Some (i, row) →
       ∃ p_new, fst (path_from_row_ft K self row (Some feature) w) = Ok p_new
                ∧ path_exists p_new w = true) →
    ∃ paths' w',
      for_each (pre_process_row K X self feature should_bb should_resize
                  method radius) paths todo w = (Ok paths', w')
      ∧ same_disk w w' ∧ requests w' = requests w
      ∧ length paths' = length paths
      ∧ (∀ pos, pos < k → paths' !! pos = paths !! pos)
      ∧ ∀ j i row p_new, todo !! j = Some (i, row) →
          fst (path_from_row_ft K self row (Some feature) w) = Ok p_new →
          paths' !! (k + j) = Some (VStr p_new).
Proof.
  induction todo as [|[i0 row0] todo IH]; intros k paths w Hlab Hlen Hall.
  { exists paths, w. split; [done|]. split; [done|]. split; [done|].
    split; [done|]. split; [done|]. intros j i row p_new Hj. done. }
  assert (i0 = Z.of_nat k) as ->.
  { rewrite (Hlab 0 i0 row0 eq_refl). f_equal. lia. }
  destruct (Hall 0 _ _ eq_refl) as (p0 & Hp0 & Hex0).
  simpl in Hlen.
  destruct (pre_process_row_reuse K X self feature should_bb should_resize
              method radius paths k row0 w p0 Hp0 Hex0)
    as (w1 & Hrow & [Hd1 Hf1] & Hr1); [lia|].
  assert (∀ p, path_exists p w1 = path_exists p w) as Hsame.
  { intros p. unfold path_exists. by rewrite Hd1, Hf1. }
  assert (∀ row f, fst (path_from_row_ft K self row f w1)
                   = fst (path_from_row_ft K self row f w)) as Hstable.
  { intros row f.
    destruct (path_from_row_ft K self row f w) as [[q|e] wq] eqn:E.
    - apply path_from_row_ft_run in E as (msg & _ & _ & _ & Hrun & _).
      by rewrite Hrun.
    - unfold path_from_row_ft, l_dirpath_from_row in *. unfold_monad.
      destruct (getitem row "path") as [v|e']; simpl in *; [|congruence].
      destruct (split (Py.str v) (PATH_SEP K)) as [parts|e']; simpl in *;
        [|congruence].
      destruct (Py.index parts (-1)); simpl in *; [|congruence].
      destruct (Py.index parts (-2)); simpl in *; congruence. }
  destruct (IH (S k) (<[k := VStr p0]> paths) w1)
    as (paths' & w' & Hrun & [Hd Hf] & Hr & Hlen' & Hkeep & Hrec).
  { intros j i row Hj. rewrite (Hlab (S j) i row Hj). f_equal. lia. }
  { rewrite length_insert. lia. }
  { intros j i row Hj. destruct (Hall (S j) i row Hj) as (p & Hp & Hex).
    exists p. by rewrite Hstable, Hsame. }
  exists paths', w'. cbn [for_each]. unfold mbind at 1. unfold M_bind at 1.
  rewrite Hrow. split; [done|].
  split; [split; congruence|]. split; [congruence|].
  split; [by rewrite Hlen', length_insert|]. split.
  - intros pos Hpos. rewrite Hkeep by lia.
    apply list_lookup_insert_ne. lia.
  - intros [|j] i row p_new Hj Hp.
    + injection Hj as <- <-. rewrite Hp0 in Hp. injection Hp as <-.
      rewrite Nat.add_0_r, Hkeep by lia.
      apply list_lookup_insert_eq. lia.
    + replace (k + S j) with (S k + j) by lia.
      apply (Hrec j i row p_new Hj). by rewrite Hstable.
Qed.

Lemma setcolumn_lookup_inv (df : DataFrame) (label : string)
    (vs : list value) (pos : nat) (i : Z) (row' : Series) :
  setcolumn df label vs !! pos = Some (i, row') →
  ∃ row v, df !! pos = Some (i, row) ∧ vs !! pos = Some v
           ∧ row' = setcell row label v.
Proof.
  revert vs pos. induction df as [|[j r] df IH]; intros [|x vs] [|pos] H;
    simpl in *; try done.
  - injection H as <- <-. by exists r, x.
  - by apply IH.
Qed.

(** X17. A second pass over the manifest that a first pass returned, for
    the same feature (one that is not called ["path"]; the index labels
    are the row positions and the manifest can be written), reads and
    writes no image: every feature file is there.  It returns the
    manifest with the feature path of every record in the feature column,
    also of the records that a first ["sift"] or ["glcm"] pass left
    without a value; after a first ["lbp"] pass it returns the manifest
    unchanged.  On disk only the manifest file is rewritten. *)
Theorem pre_process_second_pass (self : FeatureExtractor) (df : DataFrame)
    (feature : string) (should_bb should_resize : bool)
    (method : option string) (radius : option Z) (w w1 : world)
    (df1 : DataFrame) :
  (∀ w, write_error X w (DATASET_PATH K) = None) →
  feature ≠ "path" →
  (∀ pos i row, df !! pos = Some (i, row) → i = Z.of_nat pos) →
  pre_process K X self df feature should_bb should_resize method radius w
  = (Ok df1, w1) →
  ∃ df2 w2,
    pre_process K X self df1 feature should_bb should_resize method radius w1
    = (Ok df2, w2)
    ∧ dirs w2 = dirs w1 ∧ requests w2 = requests w1
    ∧ (∀ q, q ≠ DATASET_PATH K → files w2 !! q = files w1 !! q)
    ∧ files w2 !! DATASET_PATH K = Some (Csv df2)
    ∧ (∀ pos i row, df !! pos = Some (i, row) →
         ∃ p_new,
           (∀ w0, fst (path_from_row_ft K self row (Some feature) w0)
                  = Ok p_new)
           ∧ path_exists p_new w2 = true
           ∧ df2 !! pos = Some (i, setcell row feature (VStr p_new)))
    ∧ length df2 = length df
    ∧ (feature = "lbp" → df2 = df1).
Proof.
  intros Hwr Hft Hlab H. unfold pre_process in H.
  unfold mbind at 1 in H. unfold M_bind at 1 in H.
  destruct (for_each _ _ df w) as [[paths1|e] w1a] eqn:Hloop; [|done].
  apply (pre_process_loop_inv K X self feature should_bb should_resize method
           radius df 0) in Hloop as (Hg & Hlen1 & _ & Hrows); [|done].
  unfold full_nan in Hlen1. rewrite repeat_length in Hlen1.
  unfold to_csv, write_file in H. unfold_monad. rewrite Hwr in H.
  injection H as <- <-.
  set (df1 := setcolumn df feature paths1).
  set (w1 := add_file (DATASET_PATH K) (Csv df1) w1a).
  assert (length df1 = length df) as Hlen_df1.
  { rewrite <- (length_map fst df1), <- (length_map fst df).
    unfold df1. by rewrite setcolumn_labels. }
  assert (∀ pos i row', df1 !! pos = Some (i, row') →
            ∃ row v p_new,
              df !! pos = Some (i, row) ∧ paths1 !! pos = Some v
              ∧ row' = setcell row feature v
              ∧ (∀ w0, fst (path_from_row_ft K self row' (Some feature) w0)
                       = Ok p_new)
              ∧ (∀ w0, fst (path_from_row_ft K self row (Some feature) w0)
                       = Ok p_new)
              ∧ path_exists p_new w1 = true
              ∧ (feature = "lbp" → v = VStr p_new)) as Hdf1.
  { intros pos i row' Hpos.
    apply setcolumn_lookup_inv in Hpos as (row & v & Hdf & Hv & ->).
    destruct (Hrows pos i row Hdf) as (p_new & Hp & Hex & Hrec).
    exists row, v, p_new. split; [done|]. split; [done|]. split; [done|].
    split; [|split; [done|split]].
    - intros w0.
      rewrite (path_from_row_ft_ext self row (setcell row feature v));
        [done|].
      by apply getitem_setcell_ne.
    - apply (path_exists_grows _ w1a); [apply disk_grows_add_file|done].
    - intros Hlbp. simpl in Hrec. rewrite Hrec in Hv by (by right).
      by injection Hv. }
  destruct (pre_process_loop_reuse self feature should_bb should_resize method
              radius df1 0 (full_nan (length df1)) w1)
    as (paths2 & w2a & Hrun & [Hd Hf] & Hr & Hlen2 & _ & Hrec).
  { intros j i row' Hj.
    destruct (Hdf1 j i row' Hj) as (row & _ & _ & Hdf & _).
    by apply (Hlab j i row). }
  { unfold full_nan. rewrite repeat_length. simpl. lia. }
  { intros j i row' Hj.
    destruct (Hdf1 j i row' Hj) as (_ & _ & p_new & _ & _ & _ & Hp & _ & Hex & _).
    by exists p_new. }
  unfold full_nan in Hlen2. rewrite repeat_length in Hlen2.
  assert (∀ pos i row, df !! pos = Some (i, row) →
            ∃ v p_new,
              (∀ w0, fst (path_from_row_ft K self row (Some feature) w0)
                     = Ok p_new)
              ∧ path_exists p_new w1 = true
              ∧ df1 !! pos = Some (i, setcell row feature v)
              ∧ (feature = "lbp" → v = VStr p_new)
              ∧ setcolumn df1 feature paths2 !! pos
                = Some (i, setcell row feature (VStr p_new))) as Hdf2.
  { intros pos i row Hdf.
    destruct (lookup_lt_is_Some_2 paths1 pos) as [v Hv].
    { rewrite Hlen1. by apply lookup_lt_Some in Hdf. }
    pose proof (setcolumn_lookup df feature paths1 pos i row v Hdf Hv) as H1.
    fold df1 in H1.
    destruct (Hdf1 pos i _ H1)
      as (row0 & v0 & p_new & Hdf' & Hv' & _ & Hp' & Hp & Hex & Hlbp).
    rewrite Hdf in Hdf'. injection Hdf' as <-.
    rewrite Hv in Hv'. injection Hv' as <-.
    exists v, p_new. split; [done|]. split; [done|]. split; [done|].
    split; [done|].
    rewrite (setcolumn_lookup df1 feature paths2 pos i _ (VStr p_new) H1).
    - by rewrite setcell_setcell.
    - apply (Hrec pos i _ p_new H1). apply Hp'. }
  exists (setcolumn df1 feature paths2),
    (add_file (DATASET_PATH K) (Csv (setcolumn df1 feature paths2)) w2a).
  split.
  { unfold pre_process. unfold mbind at 1. unfold M_bind at 1.
    rewrite Hrun. unfold to_csv, write_file. unfold_monad.
    by rewrite Hwr. }
  split; [done|]. split; [done|]. split.
  { intros q Hq. transitivity (files w2a !! q); [|by rewrite Hf].
    by apply lookup_insert_ne. }
  split; [apply lookup_insert_eq|]. split.
  { intros pos i row Hdf.
    destruct (Hdf2 pos i row Hdf) as (v & p_new & Hp & Hex & _ & _ & H2).
    exists p_new. split; [done|]. split; [|done].
    apply path_exists_true. apply path_exists_true in Hex.
    simpl in *. rewrite dom_insert, elem_of_union in *.
    rewrite <- Hd, <- Hf. simpl. rewrite dom_insert, elem_of_union. tauto. }
  assert (length (setcolumn df1 feature paths2) = length df) as Hlen_df2.
  { rewrite <- (length_map fst (setcolumn _ _ _)), setcolumn_labels,
      length_map by congruence. done. }
  split; [done|].
  intros Hlbp. apply list_eq. intros pos.
  destruct (df !! pos) as [[i row]|] eqn:Hdf.
  - destruct (Hdf2 pos i row Hdf) as (v & p_new & _ & _ & H1 & Hv & H2).
    rewrite (Hv Hlbp) in H1. exact (eq_trans H2 (eq_sym H1)).
  - apply lookup_ge_None in Hdf.
    transitivity (@None (Z * Series)); [|symmetry];
      apply lookup_ge_None_2; [rewrite Hlen_df2|fold df1; rewrite Hlen_df1];
      done.
Qed.

End SecondPass.

(** The theorem at the sample picture, after a first ["sift"] pass, which
    stores the feature file and leaves the column without a value. *)
Lemma pre_process_second_pass_witness :
  let row := [("species", VStr "A"); ("path", VStr "image_db/A/0_0.jpg")] in
  let first := pre_process Samples.K0 Samples.X0 Samples.fe0
                 Samples.df_picture "sift" true false None None
                 Samples.picture_world in
  fst first = Ok [(0%Z, row ++ [("sift", VNaN)])]
  ∧ ∃ df2 w2,
      pre_process Samples.K0 Samples.X0 Samples.fe0
        [(0%Z, row ++ [("sift", VNaN)])] "sift" true false None None
        (snd first) = (Ok df2, w2)
      ∧ ∃ p_new,
          df2 !! 0%nat = Some (0%Z, setcell row "sift" (VStr p_new))
          ∧ path_exists p_new w2 = true.
Proof.
  intros row first. split; [vm_compute; reflexivity|].
  destruct (pre_process_second_pass Samples.K0 Samples.X0 Samples.fe0
              Samples.df_picture "sift" true false None None
              Samples.picture_world (snd first)
              [(0%Z, row ++ [("sift", VNaN)])])
    as (df2 & w2 & Hrun & _ & _ & _ & _ & Hrows & _).
  - intros w. reflexivity.
  - discriminate.
  - intros [|pos] i r; [intros [= <- <-]; reflexivity|discriminate].
  - vm_compute. reflexivity.
  - exists df2, w2. split; [exact Hrun|].
    destruct (Hrows 0%nat 0%Z row eq_refl) as (p_new & _ & Hex & Hrec).
    exists p_new. split; [exact Hrec|exact Hex].
Defined.

(** ** The constructor of the extractor *)

Section Constructor.
Context (K : Constants) (X : Externals).

Lemma mk_ft_dirs_loop (self : FeatureExtractor) (fts : list string) :
  ∀ w w',
    for_each (fun _ feature =>
      let dir_new := dirpath_from_ft self (Some feature) in
      ex ← exists_ dir_new;
      if negb ex then makedirs X dir_new else mret tt) tt fts w = (Ok tt, w') →
    disk_grows w w'
    ∧ files w' = files w ∧ requests w' = requests w ∧ log w' = log w
    ∧ ∀ f, f ∈ fts → path_exists (dirpath_from_ft self (Some f)) w' = true.
Proof.
  induction fts as [|f fts IH]; intros w w' H.
  { injection H as <-. split; [apply disk_grows_refl|]. split; [done|].
    split; [done|]. split; [done|]. intros f Hf. by apply elem_of_nil in Hf. }
  cbn [for_each] in H. unfold mbind at 1 in H. unfold M_bind at 1 in H.
  cbv zeta in H. unfold_monad. unfold makedirs in H.
  destruct (path_exists (dirpath_from_ft self (Some f)) w) eqn:Hex;
    cbn [negb] in H; cbv iota in H.
  - apply IH in H as (Hg & Hf & Hr & Hl & Hall).
    split; [done|]. split; [done|]. split; [done|]. split; [done|].
    intros f' [->|Hin]%elem_of_cons; [|by apply Hall].
    by apply (path_exists_grows _ w).
  - destruct (makedirs_error X w (dirpath_from_ft self (Some f))); [done|].
    apply IH in H as (Hg & Hf & Hr & Hl & Hall).
    split; [eapply disk_grows_trans; [apply disk_grows_add_dir|done]|].
    split; [done|]. split; [done|]. split; [done|].
    intros f' [->|Hin]%elem_of_cons; [|by apply Hall].
    apply (path_exists_grows _ (add_dir (dirpath_from_ft self (Some f)) w));
      [done|apply path_exists_add_dir].
Qed.

Lemma mk_ft_dirs_again (self : FeatureExtractor) (fts : list string)
    (w : world) :
  (∀ f, f ∈ fts → path_exists (dirpath_from_ft self (Some f)) w = true) →
  for_each (fun _ feature =>
    let dir_new := dirpath_from_ft self (Some feature) in
    ex ← exists_ dir_new;
    if negb ex then makedirs X dir_new else mret tt) tt fts w = (Ok tt, w).
Proof.
  induction fts as [|f fts IH]; intros Hall; [done|].
  cbn [for_each]. unfold mbind at 1. unfold M_bind at 1.
  cbv zeta. unfold_monad. rewrite (Hall f) by (by left).
  cbn [negb]. cbv iota. apply IH. intros f' Hf'. apply Hall. by right.
Qed.

(** X18. When the constructor of the extractor returns, the object has
    the two directories it was given, or the configured ones, and the
    cache roots of the three features, [<feature_dir>_sift/],
    [<feature_dir>_lbp/] and [<feature_dir>_glcm/], exist; it has written
    no file, made no request and logged nothing.  Constructing the same
    extractor again then changes nothing, whatever the operating system
    would answer. *)
Theorem constructor_makes_cache_roots (img_dir_path feature_dir_path :
    option string) (w w' : world) (self : FeatureExtractor) :
  FeatureTools.__init__ K X img_dir_path feature_dir_path w = (Ok self, w') →
  save_path self = default (FEATURE_DIR_PATH K) feature_dir_path
  ∧ img_path self = default (IMGDIR_PATH K) img_dir_path
  ∧ (∀ f, f ∈ ["sift"; "lbp"; "glcm"] →
       path_exists (save_path self +:+ "_" +:+ f +:+ "/") w' = true)
  ∧ dirs w ⊆ dirs w'
  ∧ files w' = files w ∧ requests w' = requests w ∧ log w' = log w
  ∧ FeatureTools.__init__ K X img_dir_path feature_dir_path w'
    = (Ok self, w').
Proof.
  intros H. unfold FeatureTools.__init__ in H. cbv zeta in H.
  unfold mbind at 1 in H. unfold M_bind at 1 in H. unfold _mk_ft_dirs in H.
  set (s := {| save_path := default (FEATURE_DIR_PATH K) feature_dir_path;
               img_path := default (IMGDIR_PATH K) img_dir_path |}) in *.
  destruct (for_each _ tt FTS w) as [[[]|e] w1] eqn:Hrun; [|done].
  injection H as <- <-.
  apply mk_ft_dirs_loop in Hrun as ([Hd _] & Hf & Hr & Hl & Hall).
  split; [done|]. split; [done|]. split.
  { intros f Hf'. specialize (Hall f Hf').
    unfold dirpath_from_ft in Hall.
    repeat (apply elem_of_cons in Hf' as [->|Hf']; [exact Hall|]).
    by apply elem_of_nil in Hf'. }
  split; [done|]. split; [done|]. split; [done|]. split; [done|].
  unfold FeatureTools.__init__. cbv zeta. fold s.
  unfold mbind at 1. unfold M_bind at 1. unfold _mk_ft_dirs.
  pose proof (mk_ft_dirs_again s FTS w1 Hall) as Hagain.
  cbv zeta in Hagain. by rewrite Hagain.
Qed.

End Constructor.

Lemma constructor_makes_cache_roots_witness :
  ∃ w',
    FeatureTools.__init__ Samples.K0 Samples.X0 None None Samples.empty_world
    = (Ok Samples.fe0, w')
    ∧ path_exists "image_db/feature_lbp/" w' = true.
Proof.
  eexists. split; [vm_compute; reflexivity|].
  refine (proj1 (proj2 (proj2
            (constructor_makes_cache_roots Samples.K0 Samples.X0 None None
               Samples.empty_world _ Samples.fe0 _))) "lbp" _).
  - vm_compute. reflexivity.
  - right. left.
Defined.

(** ** The check of the shapes of the feature files *)

Section ShapeCheck.
Context (bands : string → list Z).

Lemma getcolumn_raises (df : DataFrame) (label : string) (e : exn) :
  FeatureTools.getcolumn df label = Raise e → e = KeyError.
Proof.
  induction df as [|[i row] df IH]; simpl; [done|].
  destruct (getitem row label) as [v|e'] eqn:Hv.
  - destruct (FeatureTools.getcolumn df label); [done|].
    intros [= <-]. by apply IH.
  - intros [= <-]. clear IH. induction row as [|[k x] row IH]; simpl in Hv.
    + by injection Hv.
    + destruct (String.eqb k label); [done|]. by apply IH.
Qed.

Lemma getcolumn_labels (df : DataFrame) (label : string)
    (col : list (Z * value)) :
  FeatureTools.getcolumn df label = Ok col →
  Forall2 (fun ir iv => fst iv = fst ir ∧ getitem (snd ir) label = Ok (snd iv))
    df col.
Proof.
  revert col. induction df as [|[i row] df IH]; simpl; intros col H.
  { injection H as <-. constructor. }
  destruct (getitem row label) as [v|e] eqn:Hv; [|done].
  destruct (FeatureTools.getcolumn df label) as [col'|e]; [|done].
  injection H as <-. constructor; [done|]. by apply IH.
Qed.

Lemma getcolumn_ok (df : DataFrame) (label : string) (w : world)
    (ims : list Image) :
  Forall2 (fun ir im => ∃ p, getitem (snd ir) label = Ok (VStr p)
                             ∧ files w !! p = Some (Picture im)) df ims →
  ∃ col, FeatureTools.getcolumn df label = Ok col
         ∧ Forall2 (fun iv im => ∃ p, snd iv = VStr p
                                      ∧ files w !! p = Some (Picture im))
             col ims.
Proof.
  induction 1 as [|[i row] im df ims (p & Hp & Hfile) _ (col & Hcol & Hall)].
  { exists []. split; [done|constructor]. }
  exists ((i, VStr p) :: col). simpl in *. rewrite Hp, Hcol.
  split; [done|]. constructor; [|done]. by exists p.
Qed.

Lemma same_shape_loop_spec (shape : list Z) (w : world)
    (col : list (Z * value)) (ims : list Image) :
  Forall2 (fun iv im => ∃ p, snd iv = VStr p
                             ∧ files w !! p = Some (Picture im)) col ims →
  ∃ b, FeatureTools.same_shape_loop bands shape col w = (Ok (shape, b), w)
       ∧ (b = true
          ↔ Forall (fun im => FeatureTools.array_shape bands im = shape) ims).
Proof.
  induction 1 as [|[i v] im col ims (p & Hp & Hfile) _ (b & Hrun & Hb)].
  { exists true. split; [done|]. split; [constructor|done]. }
  simpl in Hp. subst v. cbn [FeatureTools.same_shape_loop].
  unfold mbind at 1. unfold M_bind at 1. unfold image_open. rewrite Hfile.
  cbv zeta. case_bool_decide as Hshape.
  - exists false. split; [done|]. split; [done|].
    intros Hall. apply Forall_cons in Hall as [? _]. done.
  - exists b. split; [done|]. rewrite Hb.
    assert (FeatureTools.array_shape bands im = shape) as Heq.
    { destruct (decide (FeatureTools.array_shape bands im = shape)); tauto. }
    split; [by constructor|]. by intros [_ ?]%Forall_cons.
Qed.

(** X19. [feature_output_same_checker] compares with the image of the row
    whose index label is 0, wherever that row stands.  On a manifest in
    which no row has the label 0 (an empty one, or one from which record
    0 was dropped) it raises [KeyError].  When exactly one row has the
    label 0 and every cell of the column is the path of a picture on
    disk, it returns the shape of that row's image, with [True] exactly
    when every image has this shape, and leaves the world as it is. *)
Theorem feature_output_same_checker_spec (self : FeatureExtractor)
    (feature : string) (df : DataFrame) (w : world) :
  ((∀ ir, ir ∈ df → fst ir ≠ 0%Z) →
   FeatureTools.feature_output_same_checker bands self feature df w
   = (Raise KeyError, w))
  ∧ ∀ (ims : list Image) (row0 : Series) (p0 : string) (im0 : Image),
      Forall2 (fun ir im => ∃ p, getitem (snd ir) feature = Ok (VStr p)
                                 ∧ files w !! p = Some (Picture im)) df ims →
      List.filter (fun ir => (fst ir =? 0)%Z) df = [(0%Z, row0)] →
      getitem row0 feature = Ok (VStr p0) →
      files w !! p0 = Some (Picture im0) →
      ∃ b,
        FeatureTools.feature_output_same_checker bands self feature df w
        = (Ok (FeatureTools.array_shape bands im0, b), w)
        ∧ (b = true
           ↔ Forall (fun im => FeatureTools.array_shape bands im
                               = FeatureTools.array_shape bands im0) ims).
Proof.
  assert (∀ col,
            Forall2 (fun ir iv => fst iv = fst ir
                                  ∧ getitem (snd ir) feature = Ok (snd iv))
              df col →
            Forall2 (fun ir iv => fst iv = fst ir
                                  ∧ getitem (snd ir) feature = Ok (snd iv))
              (List.filter (fun ir => (fst ir =? 0)%Z) df)
              (List.filter (fun iv => (fst iv =? 0)%Z) col)) as Hfilter.
  { intros col H. induction H as [|ir iv df' col' [Hi Hv] _ IH]; [constructor|].
    simpl. rewrite Hi. destruct (fst ir =? 0)%Z; [by constructor|done]. }
  split.
  - intros Hno. unfold FeatureTools.feature_output_same_checker.
    unfold mbind at 1. unfold M_bind at 1. unfold lift.
    destruct (FeatureTools.getcolumn df feature) as [col|e] eqn:Hcol.
    2:{ by rewrite (getcolumn_raises df feature e Hcol). }
    apply getcolumn_labels, Hfilter in Hcol.
    assert (List.filter (fun ir => (fst ir =? 0)%Z) df = []) as Hnil.
    { clear -Hno. induction df as [|ir df IH]; [done|]. simpl.
      destruct (Z.eqb_spec (fst ir) 0) as [E|_].
      - destruct (Hno ir); [by left|done].
      - apply IH. intros ir' Hin. apply Hno. by right. }
    rewrite Hnil in Hcol. apply Forall2_nil_inv_l in Hcol.
    unfold mbind at 1. unfold M_bind at 1.
    unfold FeatureTools.open_at_label. by rewrite Hcol.
  - intros ims row0 p0 im0 Hall H0 Hp0 Hfile0.
    destruct (getcolumn_ok df feature w ims Hall) as (col & Hcol & Hims).
    pose proof (Hfilter col (getcolumn_labels df feature col Hcol)) as Hf.
    rewrite H0 in Hf.
    apply Forall2_cons_inv_l in Hf as ([i v] & rest & [Hi Hv] & Hrest & Hf).
    apply Forall2_nil_inv_l in Hrest. subst rest. simpl in Hi, Hv. subst i.
    rewrite Hp0 in Hv. injection Hv as <-.
    destruct (same_shape_loop_spec (FeatureTools.array_shape bands im0) w
                col ims Hims) as (b & Hrun & Hb).
    exists b. split; [|done].
    unfold FeatureTools.feature_output_same_checker.
    unfold mbind at 1. unfold M_bind at 1. unfold lift. rewrite Hcol.
    unfold mbind at 1. unfold M_bind at 1.
    unfold FeatureTools.open_at_label. rewrite Hf.
    unfold image_open. rewrite Hfile0. exact Hrun.
Qed.

End ShapeCheck.

(** On a disk with a 3 x 2 picture and a 2 x 2 picture: two records of
    the first give its shape and [True], the two pictures give [False],
    and the manifest that begins at label 1 is a [KeyError]. *)
Example feature_output_same_checker_sample :
  let bands := fun mode : string =>
    if String.eqb mode "RGB" then [3%Z] else [] in
  let small := {| im_mode := "RGB"; im_size := (2, 2)%Z;
                  im_data := fun _ _ => [0; 0; 0]%Z |} in
  let w := add_file "b.jpg" (Picture small)
             (add_file "a.jpg" (Picture Samples.im32) Samples.empty_world) in
  let check := fun df =>
    fst (FeatureTools.feature_output_same_checker bands Samples.fe0 "lbp" df
           w) in
  check [(0%Z, [("lbp", VStr "a.jpg")]); (1%Z, [("lbp", VStr "a.jpg")])]
  = Ok ([2; 3; 3]%Z, true)
  ∧ check [(1%Z, [("lbp", VStr "b.jpg")]); (0%Z, [("lbp", VStr "a.jpg")])]
    = Ok ([2; 3; 3]%Z, false)
  ∧ check [(1%Z, [("lbp", VStr "a.jpg")]); (2%Z, [("lbp", VStr "a.jpg")])]
    = Raise KeyError.
Proof. vm_compute. repeat split; reflexivity. Qed.

(** ** [drop_cols] *)

Section DropCols.
Context (C : DatabaseSetup.SetupConstants).

Lemma getitem_filter (keep : string → bool) (row : Series) (c : string) :
  getitem (List.filter (fun cv => keep (fst cv)) row) c
  = if keep c then getitem row c else Raise KeyError.
Proof.
  induction row as [|[k x] row IH]; simpl; [by destruct (keep c)|].
  destruct (keep k) eqn:Hk; simpl; rewrite IH;
    destruct (String.eqb_spec k c) as [E|Hne]; try done.
  - by rewrite <- E, Hk.
  - by rewrite <- E, Hk.
Qed.

Lemma filter_true {A} (f : A → bool) (l : list A) :
  (∀ x, x ∈ l → f x = true) → List.filter f l = l.
Proof.
  induction l as [|x l IH]; intros H; simpl; [done|].
  rewrite (H x) by (by left). f_equal. apply IH. intros y Hy. apply H.
  by right.
Qed.

Lemma lookup_map {A B} (f : A → B) (l : list A) (k : nat) :
  map f l !! k = f <$> l !! k.
Proof. exact (list_lookup_fmap f l k). Qed.

(** The columns that [drop_cols] keeps in a frame. *)
Lemma drop_cols_keep (cols : list string) (c : string) :
  negb (bool_decide
          (c ∈ List.filter
                 (fun col =>
                    negb (bool_decide (col ∈ DatabaseSetup.MERGE_COLS C)))
                 cols)) = true
  ↔ (c ∈ cols → c ∈ DatabaseSetup.MERGE_COLS C).
Proof.
  rewrite negb_true_iff, bool_decide_eq_false, list_elem_of_In, filter_In,
    <- !list_elem_of_In, negb_true_iff, bool_decide_eq_false.
  destruct (decide (c ∈ DatabaseSetup.MERGE_COLS C)); tauto.
Qed.

(** X20. [drop_cols] leaves in every frame exactly its columns that are
    merge columns, in their order; the rows keep their number, their index
    labels and, under the columns that stay, their cells; a column that
    went is a [KeyError] afterwards.  It never raises, and a second call
    changes nothing. *)
Theorem drop_cols_spec (dfs : list DatabaseSetup.Table) :
  length (DatabaseSetup.drop_cols C dfs) = length dfs
  ∧ (∀ k df, dfs !! k = Some df →
       ∃ df',
         DatabaseSetup.drop_cols C dfs !! k = Some df'
         ∧ DatabaseSetup.columns df'
           = List.filter
               (fun c => bool_decide (c ∈ DatabaseSetup.MERGE_COLS C))
               (DatabaseSetup.columns df)
         ∧ map fst (DatabaseSetup.rows df') = map fst (DatabaseSetup.rows df)
         ∧ ∀ pos i row, DatabaseSetup.rows df !! pos = Some (i, row) →
             ∃ row',
               DatabaseSetup.rows df' !! pos = Some (i, row')
               ∧ (∀ c, c ∈ DatabaseSetup.MERGE_COLS C →
                    getitem row' c = getitem row c)
               ∧ (∀ c, c ∈ DatabaseSetup.columns df →
                    c ∉ DatabaseSetup.MERGE_COLS C →
                    getitem row' c = Raise KeyError))
  ∧ DatabaseSetup.drop_cols C (DatabaseSetup.drop_cols C dfs)
    = DatabaseSetup.drop_cols C dfs.
Proof.
  unfold DatabaseSetup.drop_cols. split; [by rewrite length_map|]. split.
  - intros k df Hk. eexists. split; [rewrite lookup_map, Hk; reflexivity|]. cbv zeta.
    cbn [DatabaseSetup.columns DatabaseSetup.rows]. split; [|split].
    + apply filter_ext_in. intros c Hc. apply list_elem_of_In in Hc.
      apply eq_true_iff_eq. rewrite drop_cols_keep, bool_decide_eq_true.
      tauto.
    + rewrite map_map. apply map_ext. by intros [i row].
    + intros pos i row Hpos.
      set (keep := fun col : string =>
             negb (bool_decide
                     (col ∈ List.filter
                              (fun col0 =>
                                 negb (bool_decide
                                         (col0 ∈ DatabaseSetup.MERGE_COLS C)))
                              (DatabaseSetup.columns df)))).
      exists (List.filter (fun cv => keep (fst cv)) row).
      split; [exact (eq_trans (lookup_map _ _ _) (f_equal (fmap _) Hpos))|].
      split.
      * intros c Hc. rewrite getitem_filter. unfold keep.
        by rewrite (proj2 (drop_cols_keep _ c)).
      * intros c Hc Hnot. rewrite getitem_filter. unfold keep.
        destruct (negb _) eqn:E; [|done].
        apply drop_cols_keep in E; tauto.
  - rewrite map_map. apply map_ext. intros df. cbv zeta.
    cbn [DatabaseSetup.columns DatabaseSetup.rows].
    set (keep := fun col : string =>
           negb (bool_decide
                   (col ∈ List.filter
                            (fun col0 =>
                               negb (bool_decide
                                       (col0 ∈ DatabaseSetup.MERGE_COLS C)))
                            (DatabaseSetup.columns df)))).
    assert (∀ c, negb (bool_decide
                         (c ∈ List.filter
                                (fun col =>
                                   negb (bool_decide
                                           (col ∈ DatabaseSetup.MERGE_COLS C)))
                                (List.filter keep (DatabaseSetup.columns df))))
                 = true) as Hall.
    { intros c. apply drop_cols_keep. intros Hc.
      apply list_elem_of_In, filter_In in Hc as [Hc Hk].
      apply list_elem_of_In in Hc. unfold keep in Hk.
      by apply drop_cols_keep in Hk. }
    f_equal.
    + apply filter_true. intros c _. apply Hall.
    + rewrite map_map. apply map_ext. intros [i row]. f_equal.
      apply filter_true. intros cv _. apply Hall.
Qed.

End DropCols.

(** ** [setup_dataset]: the cached dataset *)

Section SetupCache.
Context (K : Constants) (C : DatabaseSetup.SetupConstants) (X : Externals)
  (P : DatabaseSetup.Pandas).
Context (create_augmented_df :
           FeatureExtractor → DataFrame → string → M DataFrame).

(** The first statements on a disk that has the image directory and a
    dataset file that can be read. *)
Lemma cached_dataset_read (self : DatabaseSetup.Dataset) (w : world)
    (c : content) (t : DatabaseSetup.Table) :
  path_exists (IMGDIR_PATH K) w = true →
  files w !! DatabaseSetup.dataset_csv_filename self = Some c →
  DatabaseSetup.read_table P c "," = Ok t →
  DatabaseSetup.cached_dataset K X P self w
  = (Ok (if DatabaseSetup.truthy (_num_rows (DatabaseSetup.base self))
            && bool_decide (Some (DatabaseSetup.len t)
                            = DatabaseSetup.num_rows_attr self)
         then Some t else None),
     add_log ("len(df): " +:+ pretty (DatabaseSetup.len t)
                +:+ ", self.num_rows: "
                +:+ DatabaseSetup.str_num_rows
                      (DatabaseSetup.num_rows_attr self)) w).
Proof.
  intros Hdir Hfile Hread.
  assert (path_exists (DatabaseSetup.dataset_csv_filename self) w = true)
    as Hex.
  { apply path_exists_true. right. apply elem_of_dom. eauto. }
  unfold DatabaseSetup.cached_dataset, DatabaseSetup.read_csv. unfold_monad.
  rewrite Hdir. cbn [negb]. cbv iota. rewrite Hex, Hfile, Hread.
  by destruct (_ && _).
Qed.

(** X21. On a disk that has the image directory, a database constructed
    with a limit [n] other than 0 takes the dataset file for its result
    when the file can be read and has [n] times the fan-out of the
    augmentation mode rows (8 for ["all"], 4 for ["rotate"], 2 for
    ["flip"], 1 otherwise): [setup_dataset] returns the rows read from the
    file, whatever the raw files hold.  Nothing is fetched, augmented,
    removed or written; the one trace is a record of the logger. *)
Theorem setup_dataset_returns_cached
    (raw_dataset_path raw_label_path label_dataset_path
       dataset_csv_filename : string) (bfly : list string)
    (ft_extractor : FeatureExtractor) (degrees : string) (n : Z)
    (sort : bool) (sched : list nat) (w : world) (c : content)
    (t : DatabaseSetup.Table) :
  n ≠ 0%Z →
  path_exists (IMGDIR_PATH K) w = true →
  files w !! dataset_csv_filename = Some c →
  DatabaseSetup.read_table P c "," = Ok t →
  DatabaseSetup.len t
  = ((if bool_decide (degrees = "all") then 8
      else if bool_decide (degrees = "rotate") then 4
      else if bool_decide (degrees = "flip") then 2
      else 1) * n)%Z →
  ∃ msg,
    DatabaseSetup.setup_dataset K C X P create_augmented_df
      (DatabaseSetup.__init__ raw_dataset_path raw_label_path
         label_dataset_path dataset_csv_filename bfly ft_extractor degrees
         (Some n) sort) sched w
    = (Ok (DatabaseSetup.rows t), add_log msg w).
Proof.
  intros Hn Hdir Hfile Hread Hlen.
  set (self := DatabaseSetup.__init__ _ _ _ _ _ _ _ _ _).
  eexists. unfold DatabaseSetup.setup_dataset.
  unfold mbind at 1. unfold M_bind at 1.
  rewrite (cached_dataset_read self w c t Hdir Hfile Hread).
  assert (DatabaseSetup.truthy (_num_rows (DatabaseSetup.base self)) = true)
    as ->.
  { simpl. by apply negb_true_iff, Z.eqb_neq. }
  assert (DatabaseSetup.num_rows_attr self = Some (DatabaseSetup.len t))
    as ->.
  { rewrite Hlen. unfold self. simpl. unfold num_rows. simpl.
    destruct (String.eqb_spec degrees "all") as [->|Hall];
      [f_equal; simpl; lia|].
    rewrite bool_decide_eq_false_2 by done.
    destruct (String.eqb_spec degrees "flip") as [->|Hflip];
      [f_equal; simpl; lia|].
    destruct (String.eqb_spec degrees "rotate") as [->|Hrot];
      [f_equal; simpl; lia|].
    rewrite !bool_decide_eq_false_2 by done. f_equal; lia. }
  rewrite bool_decide_eq_true_2 by done. reflexivity.
Qed.

(** X22. [setup_dataset] removes a dataset file that it has read and
    does not take for its result, before it reads the raw files: without
    a limit, with the limit 0, or when the file has another number of rows
    than expected.  When the file can be removed and the raw dataset is
    missing, the call raises [OSError] and the dataset file is gone. *)
Theorem setup_dataset_drops_stale_cache (self : DatabaseSetup.Dataset)
    (sched : list nat) (w : world) (c : content) (t : DatabaseSetup.Table) :
  path_exists (IMGDIR_PATH K) w = true →
  files w !! DatabaseSetup.dataset_csv_filename self = Some c →
  DatabaseSetup.read_table P c "," = Ok t →
  (_num_rows (DatabaseSetup.base self) = None
   ∨ _num_rows (DatabaseSetup.base self) = Some 0%Z
   ∨ DatabaseSetup.num_rows_attr self ≠ Some (DatabaseSetup.len t)) →
  (∀ w', DatabaseSetup.remove_error P w'
           (DatabaseSetup.dataset_csv_filename self) = None) →
  files w !! DatabaseSetup.raw_dataset_path self = None →
  ∃ w',
    DatabaseSetup.setup_dataset K C X P create_augmented_df self sched w
    = (Raise OSError, w')
    ∧ files w' = delete (DatabaseSetup.dataset_csv_filename self) (files w)
    ∧ dirs w' = dirs w ∧ requests w' = requests w.
Proof.
  intros Hdir Hfile Hread Hstale Hrm Hraw.
  unfold DatabaseSetup.setup_dataset.
  unfold mbind at 1. unfold M_bind at 1.
  rewrite (cached_dataset_read self w c t Hdir Hfile Hread).
  assert (DatabaseSetup.truthy (_num_rows (DatabaseSetup.base self))
          && bool_decide (Some (DatabaseSetup.len t)
                          = DatabaseSetup.num_rows_attr self) = false) as ->.
  { destruct Hstale as [->|[->|Hne]]; [done|done|].
    rewrite bool_decide_eq_false_2 by congruence. apply andb_false_r. }
  set (w1 := add_log _ w).
  assert (path_exists (DatabaseSetup.dataset_csv_filename self) w1 = true)
    as Hex.
  { apply path_exists_true. right. apply elem_of_dom. simpl. eauto. }
  assert (DatabaseSetup.raw_dataset_path self
          ≠ DatabaseSetup.dataset_csv_filename self) as Hne
    by congruence.
  unfold mbind at 1. unfold M_bind at 1.
  unfold DatabaseSetup.assemble_dataset, DatabaseSetup.remove,
    DatabaseSetup.read_csv.
  unfold_monad. rewrite Hex. cbn [files w1 add_log]. rewrite Hfile, Hrm.
  cbn [files]. rewrite lookup_delete_ne by done. rewrite Hraw.
  eexists. split; [reflexivity|]. done.
Qed.

End SetupCache.

(** The theorem at a dataset file of one row, for a limit of one row and
    no augmentation. *)
Lemma setup_dataset_returns_cached_witness :
  ∃ msg,
    DatabaseSetup.setup_dataset Samples.K0 SetupSamples.C0 Samples.X0
      SetupSamples.P0 Samples.no_augmentation
      (DatabaseSetup.__init__ "raw/occurrence.txt" "raw/media.txt"
         "image_db/labels.csv" "image_db/butterflies.csv" ["all"]
         Samples.fe0 "none" (Some 1%Z) false) []
      (add_file "image_db/butterflies.csv"
         (Csv [(0%Z, [("species", VStr "A"); ("path", VStr "p")])])
         (add_dir "image_db/" Samples.empty_world))
    = (Ok [(0%Z, [("species", VStr "A"); ("path", VStr "p")])],
       add_log msg
         (add_file "image_db/butterflies.csv"
            (Csv [(0%Z, [("species", VStr "A"); ("path", VStr "p")])])
            (add_dir "image_db/" Samples.empty_world))).
Proof.
  apply (setup_dataset_returns_cached Samples.K0 SetupSamples.C0 Samples.X0
           SetupSamples.P0 Samples.no_augmentation
           "raw/occurrence.txt" "raw/media.txt" "image_db/labels.csv"
           "image_db/butterflies.csv" ["all"] Samples.fe0 "none" 1 false []
           _ (Csv [(0%Z, [("species", VStr "A"); ("path", VStr "p")])])
           {| DatabaseSetup.columns := ["species"; "path"];
              DatabaseSetup.rows :=
                [(0%Z, [("species", VStr "A"); ("path", VStr "p")])] |}).
  - discriminate.
  - vm_compute. reflexivity.
  - vm_compute. reflexivity.
  - reflexivity.
  - reflexivity.
Defined.

(** The theorem at a dataset file of one row where forty are expected,
    without the raw files. *)
Lemma setup_dataset_drops_stale_cache_witness :
  ∃ w',
    DatabaseSetup.setup_dataset Samples.K0 SetupSamples.C0 Samples.X0
      SetupSamples.P0 Samples.no_augmentation SetupSamples.ds0 []
      (add_file "image_db/butterflies.csv"
         (Csv [(0%Z, [("species", VStr "A"); ("path", VStr "p")])])
         (add_dir "image_db/" Samples.empty_world))
    = (Raise OSError, w')
    ∧ files w' !! "image_db/butterflies.csv" = None.
Proof.
  destruct (setup_dataset_drops_stale_cache Samples.K0 SetupSamples.C0
              Samples.X0 SetupSamples.P0 Samples.no_augmentation
              SetupSamples.ds0 []
              (add_file "image_db/butterflies.csv"
                 (Csv [(0%Z, [("species", VStr "A"); ("path", VStr "p")])])
                 (add_dir "image_db/" Samples.empty_world))
              (Csv [(0%Z, [("species", VStr "A"); ("path", VStr "p")])])
              {| DatabaseSetup.columns := ["species"; "path"];
                 DatabaseSetup.rows :=
                   [(0%Z, [("species", VStr "A"); ("path", VStr "p")])] |})
    as (w' & Hrun & Hfiles & _).
  - vm_compute. reflexivity.
  - vm_compute. reflexivity.
  - reflexivity.
  - right. right. discriminate.
  - intros w'. reflexivity.
  - vm_compute. reflexivity.
  - exists w'. split; [exact Hrun|]. rewrite Hfiles. apply lookup_delete_eq.
Defined.

(** ** [setup_dataset]: the rows that are handed to the fetch *)

Section SelectRows.
Context (C : DatabaseSetup.SetupConstants) (P : DatabaseSetup.Pandas).

Lemma cells_ok (df : DataFrame) (label : string) (vs : list value) :
  DatabaseSetup.cells df label = Ok vs →
  Forall2 (fun r v => getitem (snd r) label = Ok v) df vs.
Proof.
  revert vs. induction df as [|[i row] df IH]; simpl; intros vs H.
  { injection H as <-. constructor. }
  destruct (getitem row label) as [v|e] eqn:Hv; [|done].
  destruct (DatabaseSetup.cells df label) as [vs'|e]; [|done].
  injection H as <-. constructor; [done|]. by apply IH.
Qed.

(** The rows of a selection by a test on the cells of a column. *)
Lemma loc_rows (t : DatabaseSetup.Table) (label : string) (vs : list value)
    (f : value → bool) (r : Z * Series) :
  DatabaseSetup.column t label = Ok vs →
  r ∈ DatabaseSetup.rows (DatabaseSetup.loc t (map f vs)) →
  r ∈ DatabaseSetup.rows t
  ∧ ∃ v, getitem (snd r) label = Ok v ∧ f v = true.
Proof.
  unfold DatabaseSetup.column. case_bool_decide; [|done].
  intros Hcells%cells_ok. unfold DatabaseSetup.loc. simpl.
  induction Hcells as [|r0 v0 df vs Hv _ IH]; simpl.
  { intros Hin. by apply elem_of_nil in Hin. }
  destruct (f v0) eqn:Hf; simpl.
  - intros [->|Hin]%elem_of_cons.
    + split; [by left|]. eauto.
    + destruct (IH Hin) as [? ?]. split; [by right|done].
  - intros Hin. destruct (IH Hin) as [? ?]. split; [by right|done].
Qed.

Lemma drop_index_from_length (df : DataFrame) (n : Z) :
  (0 < n)%Z → (Z.of_nat (length (DatabaseSetup.drop_index_from df n)) ≤ n)%Z.
Proof.
  intros Hn. unfold DatabaseSetup.drop_index_from, DatabaseSetup.slice_from.
  destruct (Z.ltb_spec n 0); [lia|].
  set (k := Z.to_nat (Z.min n (Z.of_nat (length df)))).
  assert (k ≤ Z.to_nat n)%nat as Hk by (unfold k; lia).
  assert (length (take k df) ≤ Z.to_nat n)%nat as Hhd
    by (rewrite length_take; lia).
  assert (df = take k df ++ drop k df) as Hsplit
    by (symmetry; apply take_drop).
  clearbody k. set (hd := take k df) in *. set (tl := drop k df) in *.
  clearbody hd tl. subst df.
  assert (∀ x, x ∈ tl → fst x ∈ map fst tl) as Hlab
    by (intros x; apply (list_elem_of_fmap_2 fst)).
  revert Hlab. generalize (map fst tl). intros labels Hlab.
  rewrite List.filter_app, length_app.
  assert (List.filter (fun r => negb (bool_decide (fst r ∈ labels))) tl = [])
    as ->.
  { induction tl as [|r rest IH]; [done|].
    simpl. rewrite bool_decide_eq_true_2 by (apply Hlab; by left).
    simpl. apply IH. intros x Hx. apply Hlab. by right. }
  simpl. rewrite Nat.add_0_r.
  apply Z.le_trans with (Z.of_nat (length hd));
    [apply Nat2Z.inj_le, filter_length_le|lia].
Qed.

Lemma reset_index_lookup (df : DataFrame) (pos : nat) (i : Z) (row : Series) :
  DatabaseSetup.reset_index df !! pos = Some (i, row) →
  i = Z.of_nat pos ∧ ∃ j, df !! pos = Some (j, row).
Proof.
  unfold DatabaseSetup.reset_index, DataFrame in *.
  rewrite list_lookup_imap.
  destruct (df !! pos) as [[j r]|] eqn:E; simpl; [|done].
  intros [= <- <-]. eauto.
Qed.

Lemma drop_index_from_elem (df : DataFrame) (n : Z) (r : Z * Series) :
  r ∈ DatabaseSetup.drop_index_from df n → r ∈ df.
Proof.
  unfold DatabaseSetup.drop_index_from.
  rewrite !list_elem_of_In, filter_In. tauto.
Qed.

Lemma dropna_elem (df : DataFrame) (label : string) (r : Z * Series) :
  r ∈ dropna df label →
  r ∈ df ∧ ∃ v, getitem (snd r) label = Ok v ∧ isna v = false.
Proof.
  unfold dropna. rewrite !list_elem_of_In, filter_In. unfold notna_at.
  intros [Hin Hv]. split; [done|].
  destruct (getitem (snd r) label) as [v|e]; [|done].
  exists v. split; [done|]. by apply negb_true_iff.
Qed.

(** What the selection keeps. *)
Lemma select_rows_spec (self : DatabaseSetup.Dataset)
    (df df_label : DatabaseSetup.Table) (out : DataFrame) :
  (∀ d label r, r ∈ DatabaseSetup.sort_values P d label → r ∈ d) →
  DatabaseSetup.select_rows C P self df df_label = Ok out →
  (∀ pos i row, out !! pos = Some (i, row) → i = Z.of_nat pos)
  ∧ (∀ n, _num_rows (DatabaseSetup.base self) = Some n → (0 < n)%Z →
       (Z.of_nat (length out) ≤ n)%Z)
  ∧ ∀ i row, (i, row) ∈ out →
      (∃ sp, getitem row "species" = Ok sp ∧ isna sp = false
             ∧ (DatabaseSetup.bfly self ≠ [] →
                "all" ∉ DatabaseSetup.bfly self →
                ∃ s, sp = VStr s ∧ s ∈ DatabaseSetup.bfly self))
      ∧ (∃ st, getitem row "lifeStage" = Ok st
               ∧ st ∉ DatabaseSetup.BFLY_LIFESTAGE C)
      ∧ (DatabaseSetup.bfly self ≠ [] → "all" ∈ DatabaseSetup.bfly self →
         ∃ fam, getitem row "family" = Ok fam
                ∧ fam ∈ DatabaseSetup.BFLY_FAMILY C).
Proof.
  intros Hsort. unfold DatabaseSetup.select_rows. cbv zeta.
  unfold mbind, mret, DatabaseSetup.result_bind, DatabaseSetup.result_ret.
  destruct (DatabaseSetup.column _ "gbifID") as [label_ids|]; [|done].
  destruct (DatabaseSetup.column _ "gbifID") as [ids|]; [|done].
  destruct (DatabaseSetup.merge P _ _ "gbifID") as [m|]; [|done].
  destruct (DatabaseSetup.column m "lifeStage") as [stages|] eqn:Hstages;
    [|done].
  set (t1 := DatabaseSetup.loc m _).
  unfold DatabaseSetup.dropna_subset. case_bool_decide as Hcol; [|done].
  set (t2 := {| DatabaseSetup.columns := DatabaseSetup.columns t1;
                DatabaseSetup.rows := dropna (DatabaseSetup.rows t1)
                                        "species" |}).
  assert (∀ r, r ∈ DatabaseSetup.rows t2 →
            (∃ sp, getitem (snd r) "species" = Ok sp ∧ isna sp = false)
            ∧ ∃ st, getitem (snd r) "lifeStage" = Ok st
                    ∧ st ∉ DatabaseSetup.BFLY_LIFESTAGE C) as H2.
  { intros r [Hin Hsp]%dropna_elem. split; [done|].
    unfold t1, DatabaseSetup.isin in Hin. rewrite map_map in Hin.
    apply (loc_rows m "lifeStage" stages
             (fun v => negb (bool_decide (v ∈ DatabaseSetup.BFLY_LIFESTAGE C))))
      in Hin as [_ (st & Hst & Hf)]; [|done].
    exists st. split; [done|].
    by apply negb_true_iff, bool_decide_eq_false in Hf. }
  clearbody t2. clear Hcol Hstages t1.
  set (pick := match DatabaseSetup.bfly self with [] => _ | _ => _ end).
  assert (∀ t3, pick = Ok t3 →
            ∀ r, r ∈ DatabaseSetup.rows t3 →
              r ∈ DatabaseSetup.rows t2
              ∧ (DatabaseSetup.bfly self ≠ [] →
                 "all" ∉ DatabaseSetup.bfly self →
                 ∃ sp s, getitem (snd r) "species" = Ok sp ∧ sp = VStr s
                         ∧ s ∈ DatabaseSetup.bfly self)
              ∧ (DatabaseSetup.bfly self ≠ [] →
                 "all" ∈ DatabaseSetup.bfly self →
                 ∃ fam, getitem (snd r) "family" = Ok fam
                        ∧ fam ∈ DatabaseSetup.BFLY_FAMILY C)) as H3.
  { intros t3 Hpick r Hr. unfold pick in Hpick.
    destruct (DatabaseSetup.bfly self) as [|b bs] eqn:Hb.
    { injection Hpick as <-. done. }
    rewrite <- Hb in *. case_bool_decide as Hall.
    - destruct (DatabaseSetup.column t2 "family") as [families|] eqn:Hfam;
        [|done].
      injection Hpick as <-.
      apply (loc_rows t2 "family" families
               (fun v => bool_decide (v ∈ DatabaseSetup.BFLY_FAMILY C)))
        in Hr as [Hin (fam & Hf & Hmem)]; [|done].
      split; [done|]. split; [done|]. intros _ _. exists fam.
      split; [done|]. by apply bool_decide_eq_true in Hmem.
    - destruct (DatabaseSetup.column t2 "species") as [species|] eqn:Hsp;
        [|done].
      injection Hpick as <-.
      apply (loc_rows t2 "species" species
               (fun v => bool_decide
                           (v ∈ map VStr (DatabaseSetup.bfly self))))
        in Hr as [Hin (sp & Hf & Hmem)]; [|done].
      split; [done|]. split; [|done]. intros _ _.
      apply bool_decide_eq_true, list_elem_of_fmap in Hmem as (s & -> & Hs).
      by exists (VStr s), s. }
  destruct pick as [t3|]; [|done]. specialize (H3 t3 eq_refl).
  set (sorted := if DatabaseSetup.sort self then _ else _).
  assert (∀ r, r ∈ sorted → r ∈ DatabaseSetup.rows t3) as Hsorted.
  { unfold sorted. destruct (DatabaseSetup.sort self); [apply Hsort|done]. }
  clearbody sorted.
  set (cut := match _num_rows (DatabaseSetup.base self) with
              | Some n => _ | None => _ end).
  assert (∀ r, r ∈ cut → r ∈ sorted) as Hcut.
  { unfold cut. destruct (_num_rows (DatabaseSetup.base self)) as [n|];
      [|done].
    destruct (DatabaseSetup.truthy (Some n)); [|done].
    intros r. apply drop_index_from_elem. }
  assert (∀ n, _num_rows (DatabaseSetup.base self) = Some n → (0 < n)%Z →
            (Z.of_nat (length cut) ≤ n)%Z) as Hlen.
  { intros n Hn Hpos. unfold cut. rewrite Hn.
    assert (DatabaseSetup.truthy (Some n) = true) as ->.
    { simpl. apply negb_true_iff, Z.eqb_neq. lia. }
    by apply drop_index_from_length. }
  clearbody cut. intros [= <-]. split; [|split].
  - intros pos i row Hpos. by apply reset_index_lookup in Hpos as [-> _].
  - intros n Hn Hpos. unfold DatabaseSetup.reset_index.
    rewrite length_imap. by apply Hlen.
  - intros i row Hin. apply list_elem_of_lookup in Hin as [pos Hpos].
    apply reset_index_lookup in Hpos as [_ [j Hj]].
    apply list_elem_of_lookup_2, Hcut, Hsorted in Hj.
    destruct (H3 _ Hj) as (Hin2 & Hsp & Hfam).
    destruct (H2 _ Hin2) as ((sp & Hsp1 & Hna) & Hst).
    simpl in *. split; [|split; [done|done]].
    exists sp. split; [done|]. split; [done|].
    intros Hb Hall. destruct (Hsp Hb Hall) as (sp' & s & Hsp2 & -> & Hs).
    exists s. split; [congruence|done].
Qed.

End SelectRows.

Section AssembleDataset.
Context (C : DatabaseSetup.SetupConstants) (X : Externals)
  (P : DatabaseSetup.Pandas).

(** X23. The frame that [setup_dataset] hands to [fetch_images], when a
    sort keeps the rows it is given: its index labels are the positions
    0, 1, 2, ..., so they are distinct; with a positive limit it has at
    most that many rows; every row has a species that is not missing and
    a life stage outside the excluded ones; with ["all"] among the wanted
    butterflies every row is of a butterfly family, with other names
    wanted every row is of one of these species. *)
Theorem assemble_dataset_rows (self : DatabaseSetup.Dataset) (w w' : world)
    (out : DataFrame) :
  (∀ d label r, r ∈ DatabaseSetup.sort_values P d label → r ∈ d) →
  DatabaseSetup.assemble_dataset C X P self w = (Ok out, w') →
  (∀ pos i row, out !! pos = Some (i, row) → i = Z.of_nat pos)
  ∧ NoDup (map fst out)
  ∧ (∀ n, _num_rows (DatabaseSetup.base self) = Some n → (0 < n)%Z →
       (Z.of_nat (length out) ≤ n)%Z)
  ∧ ∀ i row, (i, row) ∈ out →
      (∃ sp, getitem row "species" = Ok sp ∧ isna sp = false
             ∧ (DatabaseSetup.bfly self ≠ [] →
                "all" ∉ DatabaseSetup.bfly self →
                ∃ s, sp = VStr s ∧ s ∈ DatabaseSetup.bfly self))
      ∧ (∃ st, getitem row "lifeStage" = Ok st
               ∧ st ∉ DatabaseSetup.BFLY_LIFESTAGE C)
      ∧ (DatabaseSetup.bfly self ≠ [] → "all" ∈ DatabaseSetup.bfly self →
         ∃ fam, getitem row "family" = Ok fam
                ∧ fam ∈ DatabaseSetup.BFLY_FAMILY C).
Proof.
  intros Hsort H.
  assert (∃ df df_label,
            DatabaseSetup.select_rows C P self df df_label = Ok out)
    as (df & df_label & Hsel).
  { unfold DatabaseSetup.assemble_dataset in H. unfold_monad.
    destruct (path_exists _ w).
    - destruct (DatabaseSetup.remove P _ w) as [[[]|] w1]; [|done].
      destruct (DatabaseSetup.read_csv P _ _ w1) as [[df|] w2]; [|done].
      destruct (path_exists _ w2).
      + destruct (DatabaseSetup.read_csv P _ _ w2) as [[dl|] w3]; [|done].
        injection H as H _. eauto.
      + destruct (DatabaseSetup.read_csv P _ _ w2) as [[dl|] w3]; [|done].
        destruct (to_csv X _ _ w3) as [[[]|] w4]; [|done].
        injection H as H _. eauto.
    - destruct (DatabaseSetup.read_csv P _ _ w) as [[df|] w2]; [|done].
      destruct (path_exists _ w2).
      + destruct (DatabaseSetup.read_csv P _ _ w2) as [[dl|] w3]; [|done].
        injection H as H _. eauto.
      + destruct (DatabaseSetup.read_csv P _ _ w2) as [[dl|] w3]; [|done].
        destruct (to_csv X _ _ w3) as [[[]|] w4]; [|done].
        injection H as H _. eauto. }
  destruct (select_rows_spec C P self df df_label out Hsort Hsel)
    as (Hlab & Hlen & Hrows).
  split; [done|]. split; [|by split].
  apply NoDup_alt. intros p q i Hp Hq.
  apply list_lookup_fmap_Some_1 in Hp as ([ip rp] & -> & Ep).
  apply list_lookup_fmap_Some_1 in Hq as ([iq rq] & Hi & Eq).
  simpl in Hi. subst iq. apply Hlab in Ep, Eq. lia.
Qed.

End AssembleDataset.

(** The theorem at the sample files: of the two occurrences the
    butterfly is kept. *)
Lemma assemble_dataset_rows_witness :
  ∃ w',
    DatabaseSetup.assemble_dataset SetupSamples.C0 Samples.X0 SetupSamples.P0
      SetupSamples.ds0 SetupSamples.raw_world
    = (Ok [(0%Z, [("gbifID", VInt 1); ("species", VStr "Papilio machaon");
                  ("family", VStr "Papilionidae"); ("lifeStage", VNaN);
                  ("identifier", VStr "http://h/a.jpg")])], w')
    ∧ NoDup [0%Z].
Proof.
  eexists. split; [vm_compute; reflexivity|].
  refine (proj1 (proj2
            (assemble_dataset_rows SetupSamples.C0 Samples.X0 SetupSamples.P0
               SetupSamples.ds0 SetupSamples.raw_world _
               [(0%Z, [("gbifID", VInt 1); ("species", VStr "Papilio machaon");
                       ("family", VStr "Papilionidae"); ("lifeStage", VNaN);
                       ("identifier", VStr "http://h/a.jpg")])] _ _))).
  - intros d label r Hr. exact Hr.
  - vm_compute. reflexivity.
Defined.

(** ** [setup_dataset]: what a returned frame says about the disk *)

Section SetupPersists.
Context (K : Constants) (C : DatabaseSetup.SetupConstants) (X : Externals)
  (P : DatabaseSetup.Pandas).
Context (create_augmented_df :
           FeatureExtractor → DataFrame → string → M DataFrame).

(** A fetch that returns has written the frame it returns to the
    manifest file. *)
Lemma fetch_images_persists (self : Database) (df out : DataFrame)
    (col : string) (sched : list nat) (w w' : world) :
  fetch_images K X create_augmented_df self df col sched w = (Ok out, w') →
  files w' !! DATASET_PATH K = Some (Csv out).
Proof.
  unfold fetch_images. unfold mbind at 1. unfold M_bind at 1.
  destruct (fetch_paths K X df col sched w) as [[paths|] w1]; [|done].
  cbv zeta. unfold mbind at 1. unfold M_bind at 1.
  destruct (create_augmented_df _ _ _ w1) as [[df1|] w2]; [|done].
  unfold to_csv, write_file. unfold_monad.
  destruct (write_error X _ (DATASET_PATH K)); [done|].
  intros [= <- <-]. apply lookup_insert_eq.
Qed.

(** X24. When [setup_dataset] returns a frame, either it has taken the
    dataset file, and then the disk holds the files it held, each with its
    content; or it has built the frame, and then the dataset file and the
    manifest file both hold the frame that is returned. *)
Theorem setup_dataset_persists (self : DatabaseSetup.Dataset)
    (sched : list nat) (w w' : world) (out : DataFrame) :
  DatabaseSetup.setup_dataset K C X P create_augmented_df self sched w
  = (Ok out, w') →
  (∃ c t,
     files w !! DatabaseSetup.dataset_csv_filename self = Some c
     ∧ DatabaseSetup.read_table P c "," = Ok t
     ∧ out = DatabaseSetup.rows t
     ∧ Some (DatabaseSetup.len t) = DatabaseSetup.num_rows_attr self
     ∧ files w' = files w ∧ requests w' = requests w)
  ∨ (files w' !! DatabaseSetup.dataset_csv_filename self = Some (Csv out)
     ∧ files w' !! DATASET_PATH K = Some (Csv out)).
Proof.
  unfold DatabaseSetup.setup_dataset. unfold mbind at 1. unfold M_bind at 1.
  destruct (DatabaseSetup.cached_dataset K X P self w) as [[[t|]|] w1]
    eqn:Hcache; [| |done].
  - intros [= <- <-]. left.
    unfold DatabaseSetup.cached_dataset, DatabaseSetup.read_csv in Hcache.
    unfold_monad. unfold makedirs in Hcache.
    destruct (path_exists (IMGDIR_PATH K) w); cbn [negb] in Hcache;
      cbv iota in Hcache.
    + destruct (path_exists _ w); [|done].
      destruct (files w !! DatabaseSetup.dataset_csv_filename self) as [c|];
        [|done].
      destruct (DatabaseSetup.read_table P c ",") as [t0|] eqn:Ht; [|done].
      destruct (DatabaseSetup.truthy _); [|done]. simpl in Hcache.
      case_bool_decide as Hlen; [|done].
      injection Hcache as <- <-. exists c, t0. done.
    + destruct (makedirs_error X w (IMGDIR_PATH K)); [done|].
      destruct (path_exists _ (add_dir _ w)); [|done].
      cbn [files add_dir] in Hcache.
      destruct (files w !! DatabaseSetup.dataset_csv_filename self) as [c|];
        [|done].
      destruct (DatabaseSetup.read_table P c ",") as [t0|] eqn:Ht; [|done].
      destruct (DatabaseSetup.truthy _); [|done]. simpl in Hcache.
      case_bool_decide as Hlen; [|done].
      injection Hcache as <- <-. exists c, t0. done.
  - clear Hcache. unfold mbind at 1. unfold M_bind at 1.
    destruct (DatabaseSetup.assemble_dataset C X P self w1) as [[df|] w2];
      [|done].
    unfold mbind at 1. unfold M_bind at 1.
    destruct (fetch_images K X create_augmented_df (DatabaseSetup.base self)
                df "identifier" sched w2) as [[df1|] w3] eqn:Hfetch; [|done].
    apply fetch_images_persists in Hfetch.
    unfold to_csv, write_file. unfold_monad.
    destruct (write_error X w3 (DatabaseSetup.dataset_csv_filename self));
      [done|].
    intros [= <- <-]. right. split; [apply lookup_insert_eq|]. simpl.
    destruct (decide (DatabaseSetup.dataset_csv_filename self
                      = DATASET_PATH K)) as [->|Hne].
    + apply lookup_insert_eq.
    + by rewrite lookup_insert_ne.
Qed.

End SetupPersists.

(** The theorem at the dataset file of one row that is taken. *)
Lemma setup_dataset_persists_witness :
  let w := add_file "image_db/butterflies.csv"
             (Csv [(0%Z, [("species", VStr "A"); ("path", VStr "p")])])
             (add_dir "image_db/" Samples.empty_world) in
  let w' := add_log "len(df): 1, self.num_rows: 1" w in
  (∃ c t,
     files w !! "image_db/butterflies.csv" = Some c
     ∧ DatabaseSetup.read_table SetupSamples.P0 c "," = Ok t
     ∧ [(0%Z, [("species", VStr "A"); ("path", VStr "p")])]
       = DatabaseSetup.rows t
     ∧ Some (DatabaseSetup.len t) = Some 1%Z
     ∧ files w' = files w ∧ requests w' = requests w)
  ∨ (files w' !! "image_db/butterflies.csv"
     = Some (Csv [(0%Z, [("species", VStr "A"); ("path", VStr "p")])])
     ∧ files w' !! "image_db/dataset.csv"
       = Some (Csv [(0%Z, [("species", VStr "A"); ("path", VStr "p")])])).
Proof.
  intros w w'.
  apply (setup_dataset_persists Samples.K0 SetupSamples.C0 Samples.X0
           SetupSamples.P0 Samples.no_augmentation
           (DatabaseSetup.__init__ "raw/occurrence.txt" "raw/media.txt"
              "image_db/labels.csv" "image_db/butterflies.csv" ["all"]
              Samples.fe0 "none" (Some 1%Z) false) [] w w').
  vm_compute. reflexivity.
Defined.
